(** * Ingestion and synchronisation engine of xeno-backend: a shallow embedding

    The development follows the TypeScript sources:
    - [services/shopify-api.ts]     the external source client,
    - [services/data-ingestion.ts]  the ingestion orchestrator and upsert writer,
    - [services/webhook-handler.ts] the webhook receiver,
    - [routes/api.ts]               the manual ingestion trigger (both revisions),
    - [database/connection.ts]      [Database.query] and [Database.transaction],
    - [database/migrations.sql]     the tables and their uniqueness constraints.

    Strings are Rocq strings read as byte sequences (the UTF-8 encoding of the
    JavaScript string); JavaScript numbers that the engine only moves around
    are integers of [Z]; the results of [parseFloat] are exact decimals (no
    rounding to binary floating point is modelled). *)

From Stdlib Require Import List ZArith NArith String Ascii Bool Lia.
Import ListNotations.

Open Scope string_scope.
Open Scope Z_scope.
Open Scope list_scope.

Set Implicit Arguments.

(* ================================================================== *)
(** ** JavaScript values and built-ins used by the engine *)
(* ================================================================== *)

Module JS.

(** A thrown value: [code] is the [e.code] property the handlers inspect. *)
Record Error := mkError { code : option string; message : string }.

(** The result of [parseFloat] and [parseInt]: a number is kept as the exact
    decimal [(-1)^neg * mant * 10^exp10]. *)
Inductive Num :=
| NaN
| Infinity (neg : bool)
| Dec (neg : bool) (mant : N) (exp10 : Z).

Definition zero : Num := Dec false 0 0.

Definition is_zero (x : Num) : bool :=
  match x with
  | Dec _ m _ => N.eqb m 0
  | _ => false
  end.

Definition is_NaN (x : Num) : bool :=
  match x with NaN => true | _ => false end.

(** A [Date] object: its time value in milliseconds, or Invalid Date. *)
Inductive Date := Valid (ms : Z) | InvalidDate.

(** [a > b] on dates: false as soon as one side is Invalid Date (NaN). *)
Definition date_gt (a b : Date) : bool :=
  match a, b with
  | Valid x, Valid y => y <? x
  | _, _ => false
  end.

(** Truthiness of a string: only the empty string is falsy. *)
Definition truthy (s : string) : bool :=
  match s with EmptyString => false | _ => true end.

(** [a || b] on strings. *)
Definition or_else (a b : string) : string := if truthy a then a else b.

Definition cc (c : ascii) : N := N_of_ascii c.

Definition is_digit (c : ascii) : bool := (48 <=? cc c)%N && (cc c <=? 57)%N.

Definition digit_val (c : ascii) : N := (cc c - 48)%N.

(** Value of a run of decimal digits, most significant first. *)
Definition digits_val (ds : list ascii) : N :=
  fold_left (fun acc c => (acc * 10 + digit_val c)%N) ds 0%N.

(** Longest prefix of decimal digits, and what follows it. *)
Fixpoint span_digits (l : list ascii) : list ascii * list ascii :=
  match l with
  | c :: r =>
      if is_digit c
      then let (ds, rest) := span_digits r in (c :: ds, rest)
      else ([], l)
  | [] => ([], [])
  end.

Definition is_ascii_ws (c : ascii) : bool :=
  let n := cc c in
  (N.eqb n 9 || N.eqb n 10 || N.eqb n 11 || N.eqb n 12 || N.eqb n 13
   || N.eqb n 32)%bool.

(** Leading white space and line terminators (StrWhiteSpaceChar), the
    characters beyond ASCII in their UTF-8 encoding. *)
Fixpoint trim_start (l : list ascii) : list ascii :=
  match l with
  | c :: r =>
      if is_ascii_ws c then trim_start r
      else
        match r with
        | c1 :: r1 =>
            if (N.eqb (cc c) 194 && N.eqb (cc c1) 160)%bool then trim_start r1
            else
              match r1 with
              | c2 :: r2 =>
                  let a := cc c in let b := cc c1 in let d := cc c2 in
                  if ((N.eqb a 225 && N.eqb b 154 && N.eqb d 128)
                      || (N.eqb a 226 && N.eqb b 128
                          && ((128 <=? d)%N && (d <=? 138)%N
                              || N.eqb d 168 || N.eqb d 169 || N.eqb d 175))
                      || (N.eqb a 226 && N.eqb b 129 && N.eqb d 159)
                      || (N.eqb a 227 && N.eqb b 128 && N.eqb d 128)
                      || (N.eqb a 239 && N.eqb b 187 && N.eqb d 191))%bool
                  then trim_start r2
                  else l
              | [] => l
              end
        | [] => l
        end
  | [] => []
  end.

Fixpoint starts_with (p l : list ascii) : bool :=
  match p, l with
  | [], _ => true
  | a :: p', b :: l' => Ascii.eqb a b && starts_with p' l'
  | _ :: _, [] => false
  end.

(** Optional sign: [true] for a minus. *)
Definition take_sign (l : list ascii) : bool * list ascii :=
  match l with
  | c :: r =>
      if N.eqb (cc c) 45 then (true, r)
      else if N.eqb (cc c) 43 then (false, r)
      else (false, l)
  | [] => (false, [])
  end.

(** ExponentPart, when one follows: [e] or [E], an optional sign and at
    least one digit; otherwise the exponent is 0. *)
Definition exponent_part (l : list ascii) : Z :=
  match l with
  | c :: r =>
      if (N.eqb (cc c) 101 || N.eqb (cc c) 69)%bool then
        let (neg, r') := take_sign r in
        let (ds, _) := span_digits r' in
        match ds with
        | [] => 0
        | _ => if neg then - Z.of_N (digits_val ds) else Z.of_N (digits_val ds)
        end
      else 0
  | [] => 0
  end.

(** [parseFloat]: the longest prefix of the trimmed string that is a
    StrDecimalLiteral; [NaN] when there is none.  It never throws. *)
Definition parseFloat (s : string) : Num :=
  let l := trim_start (list_ascii_of_string s) in
  let (neg, l1) := take_sign l in
  if starts_with (list_ascii_of_string "Infinity") l1 then Infinity neg
  else
    let (ip, l2) := span_digits l1 in
    match l2 with
    | c :: l3 =>
        if N.eqb (cc c) 46 then
          let (fp, l4) := span_digits l3 in
          match ip, fp with
          | [], [] => NaN
          | _, _ =>
              Dec neg (digits_val (ip ++ fp))
                  (exponent_part l4 - Z.of_nat (List.length fp))
          end
        else
          match ip with
          | [] => NaN
          | _ => Dec neg (digits_val ip) (exponent_part l2)
          end
    | [] =>
        match ip with
        | [] => NaN
        | _ => Dec neg (digits_val ip) 0
        end
    end.

(** [Buffer.from(s)]: the bytes of the string. *)
Definition Buffer_from (s : string) : list ascii := list_ascii_of_string s.

Definition hex_digit (n : N) : ascii :=
  if (n <? 10)%N then ascii_of_N (48 + n) else ascii_of_N (87 + n).

(** [buf.toString('hex')]: two lower-case hexadecimal digits per byte. *)
Fixpoint toString_hex (b : list ascii) : string :=
  match b with
  | [] => EmptyString
  | c :: r =>
      String (hex_digit (cc c / 16)) (String (hex_digit (cc c mod 16)) (toString_hex r))
  end.

(** [s.slice(0, n)]. *)
Definition slice0 (n : nat) (s : string) : string := substring 0 n s.

Definition hex_val (c : ascii) : option N :=
  let n := cc c in
  if ((48 <=? n) && (n <=? 57))%N then Some (n - 48)%N
  else if ((97 <=? n) && (n <=? 102))%N then Some (n - 87)%N
  else if ((65 <=? n) && (n <=? 70))%N then Some (n - 55)%N
  else None.

(** Longest prefix of hexadecimal digits, as their values. *)
Fixpoint span_hex (l : list ascii) : list N :=
  match l with
  | c :: r =>
      match hex_val c with
      | Some v => v :: span_hex r
      | None => []
      end
  | [] => []
  end.

Definition strip_0x (l : list ascii) : list ascii :=
  match l with
  | a :: b :: r =>
      if (N.eqb (cc a) 48 && (N.eqb (cc b) 120 || N.eqb (cc b) 88))%bool
      then r else l
  | _ => l
  end.

(** [parseInt(s, 16)]. *)
Definition parseInt16 (s : string) : Num :=
  let l := trim_start (list_ascii_of_string s) in
  let (neg, l1) := take_sign l in
  match span_hex (strip_0x l1) with
  | [] => NaN
  | ds => Dec neg (fold_left (fun acc d => (acc * 16 + d)%N) ds 0%N) 0
  end.

End JS.

(* ================================================================== *)
(** ** Outcomes of effectful code: a state-and-exception monad *)
(* ================================================================== *)

(** A computation over a state [S] returns, throws (the state reached so far
    is kept: earlier statements have taken effect), or is still looping when
    the fuel of a [while] loop runs out. *)
Inductive Outcome (S A : Type) :=
| Done (a : A) (s : S)
| Throw (e : JS.Error) (s : S)
| Diverge.

Arguments Done {S A} a s.
Arguments Throw {S A} e s.
Arguments Diverge {S A}.

Definition M (S A : Type) := S -> Outcome S A.

Definition ret {S A} (a : A) : M S A := fun s => Done a s.

Definition throw {S A} (e : JS.Error) : M S A := fun s => Throw e s.

Definition bind {S A B} (m : M S A) (k : A -> M S B) : M S B :=
  fun s =>
    match m s with
    | Done a s' => k a s'
    | Throw e s' => Throw e s'
    | Diverge => Diverge
    end.

(** [try { m } catch (e) { h e }]. *)
Definition try_catch {S A} (m : M S A) (h : JS.Error -> M S A) : M S A :=
  fun s =>
    match m s with
    | Throw e s' => h e s'
    | o => o
    end.

Definition get {S} : M S S := fun s => Done s s.

Definition modify {S} (f : S -> S) : M S unit := fun s => Done tt (f s).

(** Run a computation on a component of the state. *)
Definition zoom {S T A} (proj : S -> T) (inj : T -> S -> S) (m : M T A) : M S A :=
  fun s =>
    match m (proj s) with
    | Done a t => Done a (inj t s)
    | Throw e t => Throw e (inj t s)
    | Diverge => Diverge
    end.

Declare Scope monad_scope.
Delimit Scope monad_scope with monad.
Notation "x <- m ;; k" := (bind m (fun x => k))
  (at level 100, m at next level, right associativity) : monad_scope.
Notation "m ;;; k" := (bind m (fun _ => k))
  (at level 100, right associativity) : monad_scope.
Open Scope monad_scope.

(** [for (const x of l) { body x }]. *)
Fixpoint for_of {S A} (l : list A) (body : A -> M S unit) : M S unit :=
  match l with
  | [] => ret tt
  | x :: l' => body x ;;; for_of l' body
  end.

(** The final state of an outcome that is not [Diverge]. *)
Definition final {S A} (o : Outcome S A) : option S :=
  match o with
  | Done _ s => Some s
  | Throw _ s => Some s
  | Diverge => None
  end.

(* ================================================================== *)
(** ** The relational store ([database/migrations.sql]) *)
(* ================================================================== *)

Module Pg.

(** A row: the locally assigned identifier ([id UUID DEFAULT
    gen_random_uuid()], a counter here), the local bookkeeping timestamps
    ([created_at], [updated_at], both [DEFAULT NOW()]) and the columns bound
    from statement parameters. *)
Record Row (V : Type) := mkRow {
  row_id : nat;
  created_at : Z;
  updated_at : Z;
  vals : V
}.

Definition Key := (string * Z)%type.

Definition key_eqb (a b : Key) : bool :=
  String.eqb (fst a) (fst b) && Z.eqb (snd a) (snd b).

(** *** INSERT ... ON CONFLICT (tenant_id, shopify_x_id) DO UPDATE SET ... *)

Section Table.
Variable V : Type.
(** The columns of the uniqueness constraint. *)
Variable key : V -> Key.
(** [merge old new]: the row after DO UPDATE SET col = EXCLUDED.col. *)
Variable merge : V -> V -> V.
(** Whether the SET list has [updated_at = NOW()]. *)
Variable touch : bool.

Definition Table := list (Row V).

Definition has_key (k : Key) (r : Row V) : bool := key_eqb k (key (vals r)).

Definition on_conflict (now : Z) (v : V) (r : Row V) : Row V :=
  mkRow (row_id r) (created_at r)
        (if touch then now else updated_at r)
        (merge (vals r) v).

Fixpoint upsert (now : Z) (fresh : nat) (v : V) (t : Table) : Table :=
  match t with
  | [] => [mkRow fresh now now v]
  | r :: t' =>
      if has_key (key v) r then on_conflict now v r :: t'
      else r :: upsert now fresh v t'
  end.

(** SELECT ... WHERE tenant_id = $1 AND shopify_x_id = $2. *)
Definition select_key (k : Key) (t : Table) : list (Row V) :=
  filter (has_key k) t.

(** RETURNING id of the upsert. *)
Definition returning_id (fresh : nat) (v : V) (t : Table) : nat :=
  match select_key (key v) t with
  | r :: _ => row_id r
  | [] => fresh
  end.

(** The number of rows holding a key. *)
Definition count_key (k : Key) (t : Table) : nat :=
  List.length (select_key k t).

(** The uniqueness constraint UNIQUE(tenant_id, shopify_x_id). *)
Definition unique (t : Table) : Prop := forall k, (count_key k t <= 1)%nat.

(** A row without its [updated_at], which every update refreshes. *)
Definition content (r : Row V) : nat * Z * V :=
  (row_id r, created_at r, vals r).
End Table.

(** *** Column values per table *)

Record CustomerVals := mkCustomerVals {
  c_tenant_id : string;
  c_shopify_customer_id : Z;
  c_email : string;
  c_first_name : string;
  c_last_name : string;
  c_phone : string;
  c_total_spent : JS.Num;
  c_orders_count : Z;
  c_shopify_created_at : string;
  c_shopify_updated_at : string
}.

Record ProductVals := mkProductVals {
  p_tenant_id : string;
  p_shopify_product_id : Z;
  p_title : string;
  p_body_html : string;
  p_vendor : string;
  p_product_type : string;
  p_handle : string;
  p_tags : string;
  p_status : string;
  p_shopify_created_at : string;
  p_shopify_updated_at : string;
  p_shopify_published_at : string
}.

Record VariantVals := mkVariantVals {
  v_tenant_id : string;
  v_product_id : nat;
  v_shopify_variant_id : Z;
  v_title : string;
  v_price : JS.Num;
  v_sku : string;
  v_inventory_quantity : Z;
  v_weight : Z;
  v_shopify_created_at : string;
  v_shopify_updated_at : string
}.

Record OrderVals := mkOrderVals {
  o_tenant_id : string;
  o_customer_id : option nat;
  o_shopify_order_id : Z;
  o_order_number : Z;
  o_total_price : JS.Num;
  o_subtotal_price : JS.Num;
  o_total_tax : JS.Num;
  o_currency : string;
  o_financial_status : string;
  o_fulfillment_status : string;
  o_shipping_address : string;
  o_billing_address : string;
  o_shopify_created_at : string;
  o_shopify_updated_at : string
}.

Record LineItemVals := mkLineItemVals {
  l_tenant_id : string;
  l_order_id : nat;
  l_shopify_line_item_id : Z;
  l_quantity : Z;
  l_price : JS.Num;
  l_title : string;
  l_variant_title : string;
  l_sku : string
}.

Record EventVals := mkEventVals {
  e_tenant_id : string;
  e_customer_id : option nat;
  e_event_type : string;
  e_event_data : string;
  e_cart_token : option string
}.

Record ReceiptVals := mkReceiptVals {
  r_tenant_id : string;
  r_topic : string;
  r_external_id : option Z
}.

Record SyncLog := mkSyncLog {
  log_id : nat;
  log_tenant_id : string;
  sync_type : string;
  status : string;
  records_processed : Z;
  error_message : option string;
  started_at : Z;
  completed_at : option Z
}.

Record Checkpoint := mkCheckpoint {
  ck_tenant_id : string;
  ck_entity : string;
  last_updated_at : option Z;
  last_run_at : Z
}.

Record Tenant := mkTenant {
  t_id : string;
  shop_domain : string;
  access_token : option string;
  t_status : string
}.

(** *** Keys and DO UPDATE SET lists, as written in the statements *)

Definition customer_key (v : CustomerVals) : Key :=
  (c_tenant_id v, c_shopify_customer_id v).

Definition customer_merge (old new : CustomerVals) : CustomerVals :=
  mkCustomerVals (c_tenant_id old) (c_shopify_customer_id old)
    (c_email new) (c_first_name new) (c_last_name new) (c_phone new)
    (c_total_spent new) (c_orders_count new)
    (c_shopify_created_at old) (c_shopify_updated_at new).

Definition product_key (v : ProductVals) : Key :=
  (p_tenant_id v, p_shopify_product_id v).

Definition product_merge (old new : ProductVals) : ProductVals :=
  mkProductVals (p_tenant_id old) (p_shopify_product_id old)
    (p_title new) (p_body_html new) (p_vendor new) (p_product_type new)
    (p_handle new) (p_tags new) (p_status new)
    (p_shopify_created_at old) (p_shopify_updated_at new)
    (p_shopify_published_at new).

Definition variant_key (v : VariantVals) : Key :=
  (v_tenant_id v, v_shopify_variant_id v).

Definition variant_merge (old new : VariantVals) : VariantVals :=
  mkVariantVals (v_tenant_id old) (v_product_id new) (v_shopify_variant_id old)
    (v_title new) (v_price new) (v_sku new) (v_inventory_quantity new)
    (v_weight new) (v_shopify_created_at old) (v_shopify_updated_at new).

Definition order_key (v : OrderVals) : Key :=
  (o_tenant_id v, o_shopify_order_id v).

Definition order_merge (old new : OrderVals) : OrderVals :=
  mkOrderVals (o_tenant_id old) (o_customer_id new) (o_shopify_order_id old)
    (o_order_number new) (o_total_price new) (o_subtotal_price new)
    (o_total_tax new) (o_currency old) (o_financial_status new)
    (o_fulfillment_status new) (o_shipping_address old) (o_billing_address old)
    (o_shopify_created_at old) (o_shopify_updated_at new).

Definition line_item_key (v : LineItemVals) : Key :=
  (l_tenant_id v, l_shopify_line_item_id v).

Definition line_item_merge (old new : LineItemVals) : LineItemVals :=
  mkLineItemVals (l_tenant_id old) (l_order_id new) (l_shopify_line_item_id old)
    (l_quantity new) (l_price new) (l_title new) (l_variant_title new)
    (l_sku new).

(** *** The database *)

Record DB := mkDB {
  tenants : list Tenant;
  customers : Table CustomerVals;
  products : Table ProductVals;
  product_variants : Table VariantVals;
  orders : Table OrderVals;
  order_line_items : Table LineItemVals;
  custom_events : list (Row EventVals);
  sync_logs : list SyncLog;
  webhook_receipts : list (Row ReceiptVals);
  sync_checkpoints : list Checkpoint;
  (** The next identifier the store hands out. *)
  next_id : nat;
  (** The value of NOW(). *)
  now : Z
}.

Definition empty : DB := mkDB [] [] [] [] [] [] [] [] [] [] 0 0.

(** A statement that binds values coming from outside the engine, with the
    values it binds. *)
Inductive Stmt :=
| UpsertCustomer (v : CustomerVals)
| UpsertProduct (v : ProductVals)
| UpsertVariant (v : VariantVals)
| UpsertOrder (v : OrderVals)
| UpsertLineItem (v : LineItemVals)
| InsertEvent (v : EventVals)
| InsertReceipt (v : ReceiptVals)
| UpsertCheckpoint (tenant entity : string) (ms : Z).

Definition unique_violation : JS.Error :=
  JS.mkError (Some "23505") "duplicate key value violates unique constraint".

Definition not_null_violation : JS.Error :=
  JS.mkError (Some "23502") "null value violates not-null constraint".

Definition invalid_datetime : JS.Error :=
  JS.mkError (Some "22007") "invalid input syntax for type timestamp".

Definition invalid_bigint : JS.Error :=
  JS.mkError (Some "22P02") "invalid input syntax for type bigint".

(** A text between double quotes, as the server writes it in a message. *)
Definition quoted (s : string) : string := String "034" (s ++ String "034" "").

(** The error for a text bound to a UUID column that is not a uuid. *)
Definition invalid_uuid (text : string) : JS.Error :=
  JS.mkError (Some "22P02") ("invalid input syntax for type uuid: " ++ quoted text).

(** The error for a row whose [tenant_id] is the id of no tenant
    ([tenant_id UUID NOT NULL REFERENCES tenants(id)]). *)
Definition foreign_key_violation (table : string) : JS.Error :=
  JS.mkError (Some "23503")
    ("insert or update on table " ++ quoted table
     ++ " violates foreign key constraint " ++ quoted (table ++ "_tenant_id_fkey")).

End Pg.

(* ================================================================== *)
(** ** The external source client ([types/shopify.ts], [services/shopify-api.ts]) *)
(* ================================================================== *)

Module Shopify.

(** The fields of the payload interfaces that the engine reads; an address
    object is kept as its JSON text, which is all the engine does with it. *)
Record ShopifyCustomer := mkCustomer {
  id : Z;
  email : string;
  first_name : string;
  last_name : string;
  phone : string;
  created_at : string;
  updated_at : string;
  total_spent : string;
  orders_count : Z
}.

Record ShopifyVariant := mkVariant {
  variant_id : Z;
  variant_title : string;
  variant_price : string;
  variant_sku : string;
  inventory_quantity : Z;
  weight : Z;
  variant_created_at : string;
  variant_updated_at : string
}.

Record ShopifyProduct := mkProduct {
  product_id : Z;
  title : string;
  body_html : string;
  vendor : string;
  product_type : string;
  product_created_at : string;
  product_updated_at : string;
  published_at : string;
  handle : string;
  tags : string;
  product_status : string;
  variants : list ShopifyVariant
}.

Record ShopifyLineItem := mkLineItem {
  line_item_id : Z;
  quantity : Z;
  line_price : string;
  line_title : string;
  line_variant_title : string;
  line_sku : string
}.

Record ShopifyOrder := mkOrder {
  order_id : Z;
  order_number : Z;
  (** [order.customer], absent for an order without a customer. *)
  customer : option ShopifyCustomer;
  line_items : list ShopifyLineItem;
  total_price : string;
  subtotal_price : string;
  total_tax : string;
  currency : string;
  financial_status : string;
  fulfillment_status : string;
  order_created_at : string;
  order_updated_at : string;
  shipping_address : string;
  billing_address : string
}.

(** A query-string parameter of a request. *)
Inductive Param := PNum (z : Z) | PStr (s : string).

(** One GET request as [makeRequest] hands it to axios. *)
Record Request := mkRequest {
  url : string;
  access_token_header : option string;
  params : list (string * Param)
}.

(** [response.data]. *)
Inductive Payload :=
| Customers (l : list ShopifyCustomer)
| Products (l : list ShopifyProduct)
| Orders (l : list ShopifyOrder)
| Other.

(** The upstream API: the answer to the request sent after [n] earlier
    ones, an error standing for a failed call (network, rate limit, 4xx). *)
Definition Source := nat -> Request -> JS.Error + Payload.

(** What the engine can reach outside the store: the requests sent so far. *)
Record World := mkWorld {
  db : Pg.DB;
  sent : list Request
}.

Record ShopifyAPIService := mkService {
  baseUrl : string;
  accessToken : option string
}.

Definition strip_prefix (p s : string) : option string :=
  if String.prefix p s
  then Some (substring (String.length p) (String.length s - String.length p) s)
  else None.

(** [shopDomain.replace(/^https?:\/\//, '')]. *)
Definition sanitize (shopDomain : string) : string :=
  match strip_prefix "https://" shopDomain with
  | Some d => d
  | None =>
      match strip_prefix "http://" shopDomain with
      | Some d => d
      | None => shopDomain
      end
  end.

Definition new_ShopifyAPIService (shopDomain : string) (accessToken : option string)
  : ShopifyAPIService :=
  mkService ("https://" ++ sanitize shopDomain ++ "/admin/api/2023-10") accessToken.

(** [makeRequest]: the request goes out, a failure is rethrown. *)
Definition makeRequest (src : Source) (svc : ShopifyAPIService)
    (endpoint : string) (ps : list (string * Param)) : M World Payload :=
  fun w =>
    let rq := mkRequest (baseUrl svc ++ endpoint) (accessToken svc) ps in
    let w' := mkWorld (db w) (sent w ++ [rq]) in
    match src (List.length (sent w)) rq with
    | inl e => Throw e w'
    | inr data => Done data w'
    end.

(** [if (sinceId) params.since_id = sinceId]. *)
Definition since_param (sinceId : option Z) : list (string * Param) :=
  match sinceId with
  | Some z => if Z.eqb z 0 then [] else [("since_id", PNum z)]
  | None => []
  end.

(** The three getters declare [(limit = 250, sinceId?)]; a third argument
    given at a call site is bound to no parameter. *)
Definition getCustomers (src : Source) (svc : ShopifyAPIService)
    (limit : Z) (sinceId : option Z) (_surplus : option Z) : M World Payload :=
  makeRequest src svc "/customers.json" (("limit", PNum limit) :: since_param sinceId).

Definition getOrders (src : Source) (svc : ShopifyAPIService)
    (limit : Z) (sinceId : option Z) (_surplus : option Z) : M World Payload :=
  makeRequest src svc "/orders.json"
    (("limit", PNum limit) :: ("status", PStr "any") :: since_param sinceId).

Definition getProducts (src : Source) (svc : ShopifyAPIService)
    (limit : Z) (sinceId : option Z) (_surplus : option Z) : M World Payload :=
  makeRequest src svc "/products.json" (("limit", PNum limit) :: since_param sinceId).

End Shopify.

(* ================================================================== *)
(** ** What the engine takes from its platform *)
(* ================================================================== *)

Record Env := mkEnv {
  (** [new Date(s)] on a string. *)
  Date_parse : string -> JS.Date;
  (** [crypto.createHmac('sha256', secret).update(raw).digest('base64')]. *)
  hmac_sha256_base64 : string -> list ascii -> string;
  (** The verdict of the server on the values a statement binds, for the
      column types and constraints that are not modelled one by one:
      [Some e] when it raises [e]. *)
  pg_check : Pg.Stmt -> option JS.Error;
  (** Whether [process.env.TOKEN_ENCRYPTION_KEY] is set. *)
  TOKEN_ENCRYPTION_KEY : bool;
  (** [decryptToken] of [services/encryption.ts]. *)
  decryptToken : string -> JS.Error + string;
  (** The server's reading of a text bound to a UUID column: the uuid in the
      text in which the server prints it (the text the [id] of a stored row
      is read as), or [None] when the text is no uuid and the statement
      raises 22P02. *)
  uuid_in : string -> option string
}.

(* ================================================================== *)
(** ** Statements ([database/connection.ts] and the SQL of the services) *)
(* ================================================================== *)

Module Database.
Import Pg.

Definition with_customers (t : Table CustomerVals) (d : DB) : DB :=
  mkDB (tenants d) t (products d) (product_variants d) (orders d)
       (order_line_items d) (custom_events d) (sync_logs d)
       (webhook_receipts d) (sync_checkpoints d) (next_id d) (now d).

Definition with_products (t : Table ProductVals) (d : DB) : DB :=
  mkDB (tenants d) (customers d) t (product_variants d) (orders d)
       (order_line_items d) (custom_events d) (sync_logs d)
       (webhook_receipts d) (sync_checkpoints d) (next_id d) (now d).

Definition with_product_variants (t : Table VariantVals) (d : DB) : DB :=
  mkDB (tenants d) (customers d) (products d) t (orders d)
       (order_line_items d) (custom_events d) (sync_logs d)
       (webhook_receipts d) (sync_checkpoints d) (next_id d) (now d).

Definition with_orders (t : Table OrderVals) (d : DB) : DB :=
  mkDB (tenants d) (customers d) (products d) (product_variants d) t
       (order_line_items d) (custom_events d) (sync_logs d)
       (webhook_receipts d) (sync_checkpoints d) (next_id d) (now d).

Definition with_order_line_items (t : Table LineItemVals) (d : DB) : DB :=
  mkDB (tenants d) (customers d) (products d) (product_variants d) (orders d)
       t (custom_events d) (sync_logs d)
       (webhook_receipts d) (sync_checkpoints d) (next_id d) (now d).

Definition with_custom_events (t : list (Row EventVals)) (d : DB) : DB :=
  mkDB (tenants d) (customers d) (products d) (product_variants d) (orders d)
       (order_line_items d) t (sync_logs d)
       (webhook_receipts d) (sync_checkpoints d) (next_id d) (now d).

Definition with_sync_logs (t : list SyncLog) (d : DB) : DB :=
  mkDB (tenants d) (customers d) (products d) (product_variants d) (orders d)
       (order_line_items d) (custom_events d) t
       (webhook_receipts d) (sync_checkpoints d) (next_id d) (now d).

Definition with_webhook_receipts (t : list (Row ReceiptVals)) (d : DB) : DB :=
  mkDB (tenants d) (customers d) (products d) (product_variants d) (orders d)
       (order_line_items d) (custom_events d) (sync_logs d)
       t (sync_checkpoints d) (next_id d) (now d).

Definition with_sync_checkpoints (t : list Checkpoint) (d : DB) : DB :=
  mkDB (tenants d) (customers d) (products d) (product_variants d) (orders d)
       (order_line_items d) (custom_events d) (sync_logs d)
       (webhook_receipts d) t (next_id d) (now d).

(** An identifier has been handed out. *)
Definition bump (d : DB) : DB :=
  mkDB (tenants d) (customers d) (products d) (product_variants d) (orders d)
       (order_line_items d) (custom_events d) (sync_logs d)
       (webhook_receipts d) (sync_checkpoints d) (S (next_id d)) (now d).

(** Time passing between two operations. *)
Definition at_time (t : Z) (d : DB) : DB :=
  mkDB (tenants d) (customers d) (products d) (product_variants d) (orders d)
       (order_line_items d) (custom_events d) (sync_logs d)
       (webhook_receipts d) (sync_checkpoints d) (next_id d) t.

(** [Database.transaction]: BEGIN, the callback, COMMIT; when the callback
    throws, ROLLBACK and rethrow. *)
Definition transaction {A} (callback : M DB A) : M DB A :=
  fun d =>
    match callback d with
    | Done a d' => Done a d'
    | Throw e _ => Throw e d
    | Diverge => Diverge
    end.

Section Statements.
Variable env : Env.

(** A statement the server may refuse for the values it binds. *)
Definition checked {A} (st : Stmt) (run : M DB A) : M DB A :=
  fun d =>
    match pg_check env st with
    | Some e => Throw e d
    | None => run d
    end.

Definition upsert_customer (v : CustomerVals) : M DB unit :=
  checked (UpsertCustomer v)
    (modify (fun d =>
       bump (with_customers
         (upsert customer_key customer_merge true (now d) (next_id d) v (customers d)) d))).

Definition upsert_product (v : ProductVals) : M DB nat :=
  checked (UpsertProduct v)
    (fun d =>
       Done (returning_id product_key (next_id d) v (products d))
            (bump (with_products
               (upsert product_key product_merge true (now d) (next_id d) v (products d)) d))).

Definition upsert_variant (v : VariantVals) : M DB unit :=
  checked (UpsertVariant v)
    (modify (fun d =>
       bump (with_product_variants
         (upsert variant_key variant_merge true (now d) (next_id d) v
                 (product_variants d)) d))).

Definition upsert_order (v : OrderVals) : M DB nat :=
  checked (UpsertOrder v)
    (fun d =>
       Done (returning_id order_key (next_id d) v (orders d))
            (bump (with_orders
               (upsert order_key order_merge true (now d) (next_id d) v (orders d)) d))).

Definition upsert_line_item (v : LineItemVals) : M DB unit :=
  checked (UpsertLineItem v)
    (modify (fun d =>
       bump (with_order_line_items
         (upsert line_item_key line_item_merge false (now d) (next_id d) v
                 (order_line_items d)) d))).

(** SELECT id FROM customers WHERE tenant_id = $1 AND shopify_customer_id = $2. *)
Definition select_customer_id (tenantId : string) (shopifyId : Z)
  : M DB (list (Row CustomerVals)) :=
  fun d => Done (select_key customer_key (tenantId, shopifyId) (customers d)) d.

Definition insert_event (v : EventVals) : M DB unit :=
  checked (InsertEvent v)
    (modify (fun d =>
       bump (with_custom_events
               (custom_events d ++ [mkRow (next_id d) (now d) (now d) v]) d))).

(** Whether a stored receipt collides with a new one under
    UNIQUE(tenant_id, topic, external_id): NULLs never collide. *)
Definition receipt_conflict (v : ReceiptVals) (r : Row ReceiptVals) : bool :=
  String.eqb (r_tenant_id (vals r)) (r_tenant_id v)
  && String.eqb (r_topic (vals r)) (r_topic v)
  && match r_external_id (vals r), r_external_id v with
     | Some a, Some b => Z.eqb a b
     | _, _ => false
     end.

(** INSERT INTO webhook_receipts (tenant_id, topic, external_id). *)
Definition insert_receipt (v : ReceiptVals) : M DB unit :=
  checked (InsertReceipt v)
    (fun d =>
       if existsb (receipt_conflict v) (webhook_receipts d)
       then Throw unique_violation d
       else Done tt
              (bump (with_webhook_receipts
                 (webhook_receipts d ++ [mkRow (next_id d) (now d) (now d) v]) d))).

(** SELECT * FROM tenants WHERE shop_domain = $1. *)
Definition select_tenant_by_domain (shopDomain : option string) : M DB (list Tenant) :=
  fun d =>
    Done match shopDomain with
         | Some s => filter (fun t => String.eqb (shop_domain t) s) (tenants d)
         | None => []
         end d.

(** The uuid that a text bound to a [tenant_id] or tenants [id] parameter
    stands for, in the server's print.  The ids of the tenants table were
    printed by the server and stand for themselves; any other text goes
    through the server's reader, and the statement raises 22P02 when the text
    is no uuid. *)
Definition uuid_param (tenantId : string) (d : DB) : JS.Error + string :=
  if existsb (fun t => String.eqb (t_id t) tenantId) (tenants d) then inr tenantId
  else match uuid_in env tenantId with
       | Some u => inr u
       | None => inl (invalid_uuid tenantId)
       end.

(** SELECT * FROM tenants WHERE id = $1. *)
Definition select_tenant_by_id (tenantId : string) : M DB (list Tenant) :=
  fun d =>
    match uuid_param tenantId d with
    | inl e => Throw e d
    | inr u => Done (filter (fun t => String.eqb (t_id t) u) (tenants d)) d
    end.

(** SELECT id, shop_domain, access_token FROM tenants WHERE status = $1. *)
Definition select_tenants_by_status (st : string) : M DB (list Tenant) :=
  fun d => Done (filter (fun t => String.eqb (t_status t) st) (tenants d)) d.

Definition is_checkpoint (tenantId entity : string) (c : Checkpoint) : bool :=
  String.eqb (ck_tenant_id c) tenantId && String.eqb (ck_entity c) entity.

(** SELECT last_updated_at FROM sync_checkpoints WHERE tenant_id = $1 AND
    entity = '...'. *)
Definition select_checkpoint (tenantId entity : string) : M DB (list Checkpoint) :=
  fun d =>
    match uuid_param tenantId d with
    | inl e => Throw e d
    | inr _ => Done (filter (is_checkpoint tenantId entity) (sync_checkpoints d)) d
    end.

(** GREATEST, which skips NULL arguments. *)
Definition GREATEST (stored : option Z) (excluded : Z) : option Z :=
  match stored with
  | Some s => Some (Z.max s excluded)
  | None => Some excluded
  end.

Fixpoint raise_checkpoint (now : Z) (tenantId entity : string) (ms : Z)
    (t : list Checkpoint) : list Checkpoint :=
  match t with
  | [] => [mkCheckpoint tenantId entity (Some ms) now]
  | c :: t' =>
      if is_checkpoint tenantId entity c
      then mkCheckpoint (ck_tenant_id c) (ck_entity c)
                        (GREATEST (last_updated_at c) ms) now :: t'
      else c :: raise_checkpoint now tenantId entity ms t'
  end.

(** INSERT INTO sync_checkpoints ... ON CONFLICT (tenant_id, entity) DO
    UPDATE SET last_updated_at = GREATEST(...), last_run_at = NOW().  An
    Invalid Date has no timestamp text the server reads. *)
Definition upsert_checkpoint (tenantId entity : string) (latestUpdated : JS.Date)
  : M DB unit :=
  match latestUpdated with
  | JS.InvalidDate => throw invalid_datetime
  | JS.Valid ms =>
      checked (UpsertCheckpoint tenantId entity ms)
        (modify (fun d =>
           with_sync_checkpoints
             (raise_checkpoint (now d) tenantId entity ms (sync_checkpoints d)) d))
  end.

(** What the server raises for a row of [table] whose [tenant_id] is bound to
    [tenantId], if anything: 22P02 for a text that is no uuid, 23503 for a
    uuid that is the id of no tenant. *)
Definition referenced (table tenantId : string) (d : DB) : option JS.Error :=
  match uuid_param tenantId d with
  | inl e => Some e
  | inr u =>
      if existsb (fun t => String.eqb (t_id t) u) (tenants d) then None
      else Some (foreign_key_violation table)
  end.

(** INSERT INTO sync_logs (tenant_id, sync_type, status) VALUES ($1, $2,
    'running') RETURNING id.  The row is refused, and nothing is written,
    unless [tenant_id] references a tenant. *)
Definition insert_sync_log (tenantId syncType : string) : M DB nat :=
  fun d =>
    match referenced "sync_logs" tenantId d with
    | Some e => Throw e d
    | None =>
        Done (next_id d)
             (bump (with_sync_logs
                (sync_logs d ++
                 [mkSyncLog (next_id d) tenantId syncType "running" 0 None (now d) None]) d))
    end.

(** UPDATE sync_logs SET status = $1, records_processed = $2,
    error_message = $3, completed_at = NOW() WHERE id = $4. *)
Definition set_log (now : Z) (logId : nat) (st : string) (recordsProcessed : Z)
    (errorMessage : option string) (logs : list SyncLog) : list SyncLog :=
  map (fun l =>
         if Nat.eqb (log_id l) logId
         then mkSyncLog (log_id l) (log_tenant_id l) (sync_type l) st
                        recordsProcessed errorMessage (started_at l) (Some now)
         else l)
      logs.

Definition update_sync_log (logId : nat) (st : string) (recordsProcessed : Z)
    (errorMessage : option string) : M DB unit :=
  modify (fun d =>
    with_sync_logs
      (set_log (now d) logId st recordsProcessed errorMessage (sync_logs d)) d).
End Statements.

End Database.

(* ================================================================== *)
(** ** The ingestion orchestrator and upsert writer ([services/data-ingestion.ts]) *)
(* ================================================================== *)

Module Ingestion.
Import Pg Database Shopify.

(** [{ success: true, processed }]. *)
Record IngestResult := mkResult { success : bool; processed : Z }.

(** The mutable locals of one run. *)
Record Locals := mkLocals {
  hasMore : bool;
  sinceId : option Z;
  totalProcessed : Z;
  maxUpdatedInRun : option JS.Date
}.

Record Frame := mkFrame { world : World; locals : Locals }.

Definition in_db {A} (m : M DB A) : M World A :=
  zoom db (fun d w => mkWorld d (sent w)) m.

Definition in_world {A} (m : M World A) : M Frame A :=
  zoom world (fun w f => mkFrame w (locals f)) m.

Definition set_locals (l : Locals) : M Frame unit :=
  modify (fun f => mkFrame (world f) l).

(** A call with fresh locals: [hasMore = true], [sinceId] undefined,
    [totalProcessed = 0], [maxUpdatedInRun = null]. *)
Definition call {A} (m : M Frame A) : M World A :=
  fun w =>
    match m (mkFrame w (mkLocals true None 0 None)) with
    | Done a f => Done a (world f)
    | Throw e f => Throw e (world f)
    | Diverge => Diverge
    end.

(** [while (cond) { body }], unrolled at most [fuel] times. *)
Fixpoint while {S} (fuel : nat) (cond : S -> bool) (body : M S unit) : M S unit :=
  fun s =>
    if cond s then
      match fuel with
      | O => Diverge
      | Datatypes.S fuel' => bind body (fun _ => while fuel' cond body) s
      end
    else Done tt s.

Definition type_error : JS.Error :=
  JS.mkError None "Cannot read properties of undefined (reading 'length')".

Fixpoint last_of {A} (l : list A) : option A :=
  match l with
  | [] => None
  | [x] => Some x
  | _ :: l' => last_of l'
  end.

Section Orchestrator.
Variable env : Env.
Variable src : Source.

(** *** The upsert writer: the body of the loop over one page *)

Definition write_customer (tenantId : string) (customer : ShopifyCustomer) : M DB unit :=
  upsert_customer env
    (mkCustomerVals tenantId (id customer) (email customer) (first_name customer)
       (last_name customer) (phone customer)
       (JS.parseFloat (total_spent customer)) (orders_count customer)
       (created_at customer) (updated_at customer)).

Definition write_variant (tenantId : string) (productId : nat)
    (variant : ShopifyVariant) : M DB unit :=
  upsert_variant env
    (mkVariantVals tenantId productId (variant_id variant) (variant_title variant)
       (JS.parseFloat (variant_price variant)) (variant_sku variant)
       (inventory_quantity variant) (weight variant)
       (variant_created_at variant) (variant_updated_at variant)).

Definition write_product (tenantId : string) (product : ShopifyProduct) : M DB unit :=
  productId <- upsert_product env
    (mkProductVals tenantId (product_id product) (title product) (body_html product)
       (vendor product) (product_type product) (handle product) (tags product)
       (product_status product) (product_created_at product)
       (product_updated_at product) (published_at product)) ;;
  for_of (variants product) (write_variant tenantId productId).

(** The customer resolution lookup of an order. *)
Definition resolve_customer (tenantId : string) (c : option ShopifyCustomer)
  : M DB (option nat) :=
  match c with
  | Some cust =>
      rows <- select_customer_id tenantId (id cust) ;;
      ret match rows with
          | r :: _ => Some (row_id r)
          | [] => None
          end
  | None => ret None
  end.

Definition write_line_item (tenantId : string) (orderId : nat)
    (lineItem : ShopifyLineItem) : M DB unit :=
  upsert_line_item env
    (mkLineItemVals tenantId orderId (line_item_id lineItem) (quantity lineItem)
       (JS.parseFloat (line_price lineItem)) (line_title lineItem)
       (line_variant_title lineItem) (line_sku lineItem)).

Definition write_order (tenantId : string) (order : ShopifyOrder) : M DB unit :=
  customerId <- resolve_customer tenantId (customer order) ;;
  orderId <- upsert_order env
    (mkOrderVals tenantId customerId (order_id order) (order_number order)
       (JS.parseFloat (total_price order)) (JS.parseFloat (subtotal_price order))
       (JS.parseFloat (total_tax order)) (currency order) (financial_status order)
       (fulfillment_status order) (shipping_address order) (billing_address order)
       (order_created_at order) (order_updated_at order)) ;;
  for_of (line_items order) (write_line_item tenantId orderId).

(** *** What differs between the three [ingest...] methods *)

Record Entity (R : Type) := mkEntity {
  (** The entity name in sync_logs and sync_checkpoints. *)
  entity : string;
  (** [shopify.getX(250, sinceId, lastUpdatedAt ?? undefined)]. *)
  getPage : ShopifyAPIService -> Z -> option Z -> option Z -> M World Payload;
  (** [const { x } = ...]: the array under the entity's key. *)
  unwrap : Payload -> option (list R);
  rec_id : R -> Z;
  rec_updated_at : R -> string;
  rec_created_at : R -> string;
  (** What the transaction does for one record of the page. *)
  write : string -> R -> M DB unit
}.

Definition customers_entity : Entity ShopifyCustomer :=
  mkEntity "customers" (getCustomers src)
    (fun p => match p with Customers l => Some l | _ => None end)
    id updated_at created_at write_customer.

Definition products_entity : Entity ShopifyProduct :=
  mkEntity "products" (getProducts src)
    (fun p => match p with Products l => Some l | _ => None end)
    product_id product_updated_at product_created_at write_product.

Definition orders_entity : Entity ShopifyOrder :=
  mkEntity "orders" (getOrders src)
    (fun p => match p with Orders l => Some l | _ => None end)
    order_id order_updated_at order_created_at write_order.

Section Run.
Variable R : Type.
Variable E : Entity R.
Variable tenantId : string.
Variable shopify : ShopifyAPIService.
Variable lastUpdatedAt : option Z.

(** [new Date(c.updated_at || c.created_at)]. *)
Definition updatedAt_of (c : R) : JS.Date :=
  Date_parse env (JS.or_else (rec_updated_at E c) (rec_created_at E c)).

(** [if (!maxUpdatedInRun || updatedAt > maxUpdatedInRun) maxUpdatedInRun
    = updatedAt], over the page. *)
Definition track (m : option JS.Date) (c : R) : option JS.Date :=
  match m with
  | None => Some (updatedAt_of c)
  | Some d => if JS.date_gt (updatedAt_of c) d then Some (updatedAt_of c) else Some d
  end.

(** One turn of the loop. *)
Definition page_step : M Frame unit :=
  f <- get ;;
  data <- in_world (getPage E shopify 250 (sinceId (locals f)) lastUpdatedAt) ;;
  match unwrap E data with
  | None => throw type_error
  | Some page =>
      if Nat.eqb (List.length page) 0 then
        (* hasMore = false; break *)
        modify (fun f => mkFrame (world f)
                  (mkLocals false (sinceId (locals f)) (totalProcessed (locals f))
                            (maxUpdatedInRun (locals f))))
      else
        in_world (in_db (transaction (for_of page (write E tenantId)))) ;;;
        modify (fun f =>
          let l := locals f in
          mkFrame (world f)
            (mkLocals
               (if Z.of_nat (List.length page) <? 250 then false else hasMore l)
               (option_map (rec_id E) (last_of page))
               (totalProcessed l + Z.of_nat (List.length page))
               (fold_left track page (maxUpdatedInRun l))))
  end.

(** The [try] block and its [catch]. *)
Definition sweep (fuel : nat) (logId : nat) : M Frame IngestResult :=
  try_catch
    (while fuel (fun f => hasMore (locals f)) page_step ;;;
     f <- get ;;
     in_world (in_db (update_sync_log logId "completed"
                        (totalProcessed (locals f)) None)) ;;;
     match maxUpdatedInRun (locals f) with
     | Some latestUpdated =>
         if 0 <? totalProcessed (locals f)
         then in_world (in_db (upsert_checkpoint env tenantId (entity E) latestUpdated))
         else ret tt
     | None => ret tt
     end ;;;
     ret (mkResult true (totalProcessed (locals f))))
    (fun error =>
       f <- get ;;
       in_world (in_db (update_sync_log logId "failed"
                          (totalProcessed (locals f))
                          (Some (JS.message error)))) ;;;
       throw error).
End Run.

(** [checkpoint.rows[0]?.last_updated_at || null]. *)
Definition read_checkpoint (tenantId entityName : string) : M World (option Z) :=
  rows <- in_db (select_checkpoint env tenantId entityName) ;;
  ret match rows with
      | c :: _ => last_updated_at c
      | [] => None
      end.

Definition createSyncLog (tenantId syncType : string) : M World nat :=
  in_db (insert_sync_log env tenantId syncType).

(** [ingestCustomers] reads the checkpoint, then opens the log. *)
Definition ingestCustomers (fuel : nat) (tenantId shopDomain : string)
    (accessToken : option string) : M World IngestResult :=
  let shopify := new_ShopifyAPIService shopDomain accessToken in
  lastUpdatedAt <- read_checkpoint tenantId "customers" ;;
  logId <- createSyncLog tenantId "customers" ;;
  call (sweep customers_entity tenantId shopify lastUpdatedAt fuel logId).

(** [ingestProducts] and [ingestOrders] open the log, then read the checkpoint. *)
Definition ingestProducts (fuel : nat) (tenantId shopDomain : string)
    (accessToken : option string) : M World IngestResult :=
  let shopify := new_ShopifyAPIService shopDomain accessToken in
  logId <- createSyncLog tenantId "products" ;;
  lastUpdatedAt <- read_checkpoint tenantId "products" ;;
  call (sweep products_entity tenantId shopify lastUpdatedAt fuel logId).

Definition ingestOrders (fuel : nat) (tenantId shopDomain : string)
    (accessToken : option string) : M World IngestResult :=
  let shopify := new_ShopifyAPIService shopDomain accessToken in
  logId <- createSyncLog tenantId "orders" ;;
  lastUpdatedAt <- read_checkpoint tenantId "orders" ;;
  call (sweep orders_entity tenantId shopify lastUpdatedAt fuel logId).
End Orchestrator.

End Ingestion.

(* ================================================================== *)
(** ** The webhook receiver ([services/webhook-handler.ts]) *)
(* ================================================================== *)

Module Webhook.
Import Pg Database.

(** What the handlers read of a request: the two headers, the raw body kept
    by the body parser and the parsed body. *)
Record Request (B : Type) := mkRequest {
  shop_domain_header : option string;
  hmac_header : option string;
  rawBody : list ascii;
  body : B
}.

(** The parsed body of customers/update; absent properties are [None]. *)
Record CustomerBody := mkCustomerBody {
  cb_id : option Z;
  cb_email : string;
  cb_first_name : string;
  cb_last_name : string;
  cb_phone : string;
  cb_total_spent : option string;
  cb_orders_count : Z;
  cb_created_at : string;
  cb_updated_at : string
}.

(** The parsed body of carts/abandoned: [customer_ref] is
    [cartData.customer.id] when there is a customer object, [json] is
    [JSON.stringify(cartData)]. *)
Record CartBody := mkCartBody {
  token : option string;
  cart_customer_ref : option Z;
  cart_json : string
}.

Record CheckoutBody := mkCheckoutBody {
  checkout_id : option Z;
  checkout_customer_ref : option Z;
  checkout_json : string;
  cart_token : option string
}.

Inductive Body :=
| ErrorBody (error : string)
| SuccessBody (duplicate : bool).

Record Response := mkResponse { status : Z; json : Body }.

(** A 2xx answer. *)
Definition is_success (r : Response) : bool := Z.eqb (status r) 200.

(** [x || '0'] on an optional string. *)
Definition or_zero (x : option string) : string :=
  match x with
  | Some s => JS.or_else s "0"
  | None => "0"
  end.

(** Truthiness of an optional string. *)
Definition present (x : option string) : bool :=
  match x with
  | Some s => JS.truthy s
  | None => false
  end.

Section Handlers.
Variable env : Env.
Variable webhookSecret : string.

(** [hash === signature]; an absent header equals no digest. *)
Definition verifyWebhook (raw : list ascii) (signature : option string) : bool :=
  match signature with
  | Some sig => String.eqb (hmac_sha256_base64 env webhookSecret raw) sig
  | None => false
  end.

(** [result.rows[0] || null]. *)
Definition getTenantByDomain (shopDomain : option string) : M DB (option Tenant) :=
  rows <- select_tenant_by_domain shopDomain ;;
  ret (hd_error rows).

(** The receipt insert with its [catch]: [true] when the unique violation
    23505 was caught (the handler then answers duplicate), any other error
    is rethrown. *)
Definition claim_receipt (ins : M DB unit) : M DB bool :=
  try_catch (ins ;;; ret false)
    (fun e =>
       match JS.code e with
       | Some c => if String.eqb c "23505" then ret true else throw e
       | None => throw e
       end).

(** The BIGINT parameter bound from a JavaScript number. *)
Definition bigint_param (x : JS.Num) : M DB (option Z) :=
  match x with
  | JS.Dec neg m 0 => ret (Some (if neg then - Z.of_N m else Z.of_N m))
  | _ => throw invalid_bigint
  end.

(** SELECT id FROM customers ..., [customerId] stays null without a row. *)
Definition lookup_customer (tenantId : string) (ref : option Z) : M DB (option nat) :=
  match ref with
  | Some i =>
      rows <- select_customer_id tenantId i ;;
      ret match rows with
          | r :: _ => Some (row_id r)
          | [] => None
          end
  | None => ret None
  end.

Definition handleCustomerUpdate (req : Request CustomerBody) : M DB Response :=
  try_catch
    (if negb (verifyWebhook (rawBody req) (hmac_header req))
     then ret (mkResponse 401 (ErrorBody "Unauthorized"))
     else
       tenant <- getTenantByDomain (shop_domain_header req) ;;
       match tenant with
       | None => ret (mkResponse 404 (ErrorBody "Tenant not found"))
       | Some tenant =>
           let customer := body req in
           duplicate <- claim_receipt
             (insert_receipt env
                (mkReceiptVals (t_id tenant) "customers/update" (cb_id customer))) ;;
           if duplicate then ret (mkResponse 200 (SuccessBody true))
           else
             match cb_id customer with
             | None => throw not_null_violation
             | Some cid =>
                 upsert_customer env
                   (mkCustomerVals (t_id tenant) cid (cb_email customer)
                      (cb_first_name customer) (cb_last_name customer)
                      (cb_phone customer)
                      (JS.parseFloat (or_zero (cb_total_spent customer)))
                      (cb_orders_count customer) (cb_created_at customer)
                      (cb_updated_at customer))
             end ;;;
             ret (mkResponse 200 (SuccessBody false))
       end)
    (fun _ => ret (mkResponse 500 (ErrorBody "Internal server error"))).

(** [cartData?.token ? parseInt(Buffer.from(cartData.token).toString('hex')
    .slice(0,12), 16) : null]. *)
Definition cart_external_id (cartData : CartBody) : option JS.Num :=
  match token cartData with
  | Some t =>
      if JS.truthy t
      then Some (JS.parseInt16 (JS.slice0 12 (JS.toString_hex (JS.Buffer_from t))))
      else None
  | None => None
  end.

Definition insert_cart_receipt (tenantId : string) (cartData : CartBody) : M DB unit :=
  ext <- match cart_external_id cartData with
         | Some n => bigint_param n
         | None => ret None
         end ;;
  insert_receipt env (mkReceiptVals tenantId "carts/abandoned" ext).

Definition handleCartAbandoned (req : Request CartBody) : M DB Response :=
  try_catch
    (if negb (verifyWebhook (rawBody req) (hmac_header req))
     then ret (mkResponse 401 (ErrorBody "Unauthorized"))
     else
       tenant <- getTenantByDomain (shop_domain_header req) ;;
       match tenant with
       | None => ret (mkResponse 404 (ErrorBody "Tenant not found"))
       | Some tenant =>
           let cartData := body req in
           duplicate <- claim_receipt (insert_cart_receipt (t_id tenant) cartData) ;;
           if duplicate then ret (mkResponse 200 (SuccessBody true))
           else
             customerId <- lookup_customer (t_id tenant) (cart_customer_ref cartData) ;;
             insert_event env
               (mkEventVals (t_id tenant) customerId "cart_abandoned"
                  (cart_json cartData) (token cartData)) ;;;
             ret (mkResponse 200 (SuccessBody false))
       end)
    (fun _ => ret (mkResponse 500 (ErrorBody "Internal server error"))).

Definition handleCheckoutStarted (req : Request CheckoutBody) : M DB Response :=
  try_catch
    (if negb (verifyWebhook (rawBody req) (hmac_header req))
     then ret (mkResponse 401 (ErrorBody "Unauthorized"))
     else
       tenant <- getTenantByDomain (shop_domain_header req) ;;
       match tenant with
       | None => ret (mkResponse 404 (ErrorBody "Tenant not found"))
       | Some tenant =>
           let checkoutData := body req in
           duplicate <- claim_receipt
             (insert_receipt env
                (mkReceiptVals (t_id tenant) "checkouts/create"
                   (checkout_id checkoutData))) ;;
           if duplicate then ret (mkResponse 200 (SuccessBody true))
           else
             customerId <- lookup_customer (t_id tenant)
                             (checkout_customer_ref checkoutData) ;;
             insert_event env
               (mkEventVals (t_id tenant) customerId "checkout_started"
                  (checkout_json checkoutData) (cart_token checkoutData)) ;;;
             ret (mkResponse 200 (SuccessBody false))
       end)
    (fun _ => ret (mkResponse 500 (ErrorBody "Internal server error"))).
End Handlers.

End Webhook.

(* ================================================================== *)
(** ** The manual trigger ([routes/api.ts]) and the scheduler ([index.ts]) *)
(* ================================================================== *)

Module Routes.
Import Pg Database Shopify Ingestion.

Inductive Body :=
| ErrorBody (error : string)
| ErrorDetails (error details : string)
| Results (results : list (string * IngestResult)).

Record Response := mkResponse { status : Z; json : Body }.

(** [!data_types || data_types.includes(x)]. *)
Definition wanted (data_types : option (list string)) (x : string) : bool :=
  match data_types with
  | None => true
  | Some l => existsb (String.eqb x) l
  end.

(** Truthiness of the stored credential. *)
Definition has_token (t : Tenant) : bool :=
  match access_token t with
  | Some s => JS.truthy s
  | None => false
  end.

(** [req.tenantId && req.tenantId !== tenantId]: the caller authenticated as
    another tenant than the one the path names. *)
Definition tenant_mismatch (reqTenantId : option string) (tenantId : string) : bool :=
  match reqTenantId with
  | Some t => JS.truthy t && negb (String.eqb t tenantId)
  | None => false
  end.

Section Trigger.
Variable env : Env.
Variable src : Source.
Variable fuel : nat.

(** The three guarded calls, in the order of the handler. *)
Definition ingest_wanted (data_types : option (list string))
    (tenantId : string) (shopDomain : string) (tok : option string)
  : M World (list (string * IngestResult)) :=
  r1 <- (if wanted data_types "customers"
         then r <- ingestCustomers env src fuel tenantId shopDomain tok ;;
              ret [("customers", r)]
         else ret []) ;;
  r2 <- (if wanted data_types "products"
         then r <- ingestProducts env src fuel tenantId shopDomain tok ;;
              ret [("products", r)]
         else ret []) ;;
  r3 <- (if wanted data_types "orders"
         then r <- ingestOrders env src fuel tenantId shopDomain tok ;;
              ret [("orders", r)]
         else ret []) ;;
  ret (r1 ++ r2 ++ r3).

Definition ingestion_failed (error : JS.Error) : M World Response :=
  ret (mkResponse 500 (ErrorDetails "Data ingestion failed" (JS.message error))).


(** The later revision of the same route (the router that follows
    [middleware/response.ts]), after its authentication middleware:
    [reqTenantId] is the tenant the caller authenticated as, if any. *)
Definition post_ingest_guarded (reqTenantId : option string) (tenantId : string)
    (data_types : option (list string)) : M World Response :=
  try_catch
    (if tenant_mismatch reqTenantId tenantId
     then ret (mkResponse 403 (ErrorBody "Forbidden: tenant mismatch"))
     else
       tenant <- in_db (select_tenant_by_id env tenantId) ;;
       match tenant with
       | [] => ret (mkResponse 404 (ErrorBody "Tenant not found"))
       | tenantData :: _ =>
           if negb (has_token tenantData)
           then ret (mkResponse 400
                       (ErrorBody "Tenant not connected to Shopify yet (missing access token)"))
           else
             let stored := match access_token tenantData with
                           | Some s => s
                           | None => ""
                           end in
             match (if TOKEN_ENCRYPTION_KEY env then decryptToken env stored
                    else inr stored) with
             | inl _ =>
                 ret (mkResponse 500 (ErrorBody "Failed to decrypt tenant access token"))
             | inr tok =>
                 results <- ingest_wanted data_types tenantId
                              (shop_domain tenantData) (Some tok) ;;
                 ret (mkResponse 200 (Results results))
             end
       end)
    ingestion_failed.

(** One tenant of [runScheduledIngestion]: skipped without a credential or
    when decryption fails; an error of its sync is caught and logged. *)
Definition scheduled_tenant (t : Tenant) : M World unit :=
  if negb (has_token t) then ret tt
  else
    let stored := match access_token t with Some s => s | None => "" end in
    match (if TOKEN_ENCRYPTION_KEY env then decryptToken env stored
           else inr stored) with
    | inl _ => ret tt
    | inr tok =>
        try_catch
          (ingestCustomers env src fuel (t_id t) (shop_domain t) (Some tok) ;;;
           ingestProducts env src fuel (t_id t) (shop_domain t) (Some tok) ;;;
           ingestOrders env src fuel (t_id t) (shop_domain t) (Some tok) ;;;
           ret tt)
          (fun _ => ret tt)
    end.

Definition runScheduledIngestion : M World unit :=
  try_catch
    (tenants <- in_db (select_tenants_by_status "active") ;;
     for_of tenants scheduled_tenant)
    (fun _ => ret tt).
End Trigger.

End Routes.

(* ================================================================== *)
(** ** Concrete platforms and payloads used in examples *)
(* ================================================================== *)

Module Scenario.
Import Pg Shopify.

(** A platform whose timestamps are written as milliseconds in decimal,
    whose keyed digest is the secret followed by the bytes, and whose store
    accepts every value. *)
Definition date_of_millis (s : string) : JS.Date :=
  match JS.parseFloat s with
  | JS.Dec false m 0 => JS.Valid (Z.of_N m)
  | _ => JS.InvalidDate
  end.

(** A reader that takes the texts of 36 characters for uuids in the server's
    print. *)
Definition uuid_of_length (s : string) : option string :=
  if Nat.eqb (String.length s) 36 then Some s else None.

Definition env0 : Env :=
  mkEnv date_of_millis
        (fun secret raw => (secret ++ string_of_list_ascii raw)%string)
        (fun _ => None)
        false
        (fun s => inr s)
        uuid_of_length.

(** The same platform with a store that enforces VARCHAR(255) on the email
    of a customer. *)
Definition string_too_long : JS.Error :=
  JS.mkError (Some "22001") "value too long for type character varying(255)".

Definition env_varchar : Env :=
  mkEnv date_of_millis
        (fun secret raw => (secret ++ string_of_list_ascii raw)%string)
        (fun st =>
           match st with
           | UpsertCustomer v =>
               if (255 <? String.length (c_email v))%nat
               then Some string_too_long else None
           | _ => None
           end)
        false
        (fun s => inr s)
        uuid_of_length.

Definition tenant1 : Tenant := mkTenant "t1" "shop.myshopify.com" (Some "tok") "active".

(** A tenant that has not been connected yet. *)
Definition tenant_no_token : Tenant := mkTenant "t2" "new.myshopify.com" None "active".

Definition db1 : DB :=
  mkDB [tenant1; tenant_no_token] [] [] [] [] [] [] [] [] [] 0 100.

(** [db1] with a checkpoint for the customers of [t1]. *)
Definition db_checkpointed : DB :=
  mkDB [tenant1; tenant_no_token] [] [] [] [] [] [] [] []
       [mkCheckpoint "t1" "customers" (Some 5000) 50] 0 100.

Definition alice (updated : string) : ShopifyCustomer :=
  mkCustomer 101 "alice@example.com" "Alice" "A" "555" "1000" updated "12.50" 3.

Definition network_error : JS.Error := JS.mkError None "Request failed with status code 429".

Definition unauthorized_error : JS.Error :=
  JS.mkError None "Request failed with status code 401".

(** A source with one customer, whatever is asked. *)
Definition one_customer : Source :=
  fun _ _ => inr (Customers [alice "7000"]).

(** A source that refuses requests without a credential and has nothing
    else to return. *)
Definition needs_token : Source :=
  fun _ rq =>
    match access_token_header rq with
    | None => inl unauthorized_error
    | Some _ =>
        if String.prefix "https://shop.myshopify.com/admin/api/2023-10/customers" (url rq)
        then inr (Customers [])
        else if String.prefix "https://shop.myshopify.com/admin/api/2023-10/products" (url rq)
        then inr (Products [])
        else inr (Orders [])
    end.

(** 250 customers with identifiers [first .. first + 249]. *)
Definition full_page (first : Z) : list ShopifyCustomer :=
  map (fun i => mkCustomer (first + Z.of_nat i) "c@example.com" "C" "C" "" "1000"
                           "2000" "1.00" 1)
      (seq 0 250).

(** A source that serves one full page and then fails. *)
Definition page_then_error : Source :=
  fun n _ =>
    match n with
    | O => inr (Customers (full_page 1))
    | _ => inl network_error
    end.

Definition world_of (d : DB) : World := mkWorld d [].

End Scenario.

(* ================================================================== *)
(** ** The remaining method of the ingestion service ([ingestAll]) *)
(* ================================================================== *)

Module Service.



Section All.
Variable env : Env.
Variable src : Shopify.Source.
Variable fuel : nat.

End All.

End Service.

(* ================================================================== *)
(** ** Reasoning about outcomes *)
(* ================================================================== *)

Section Hoare.
Variable S : Type.

(** [wp m Q E s]: from [s], [m] returns in a state satisfying [Q], or
    throws in a state satisfying [E]. Nothing is said of a loop that is
    out of fuel; such outcomes are excluded separately by [returns]. *)
Definition wp {A} (m : M S A) (Q : A -> S -> Prop) (E : JS.Error -> S -> Prop)
    (s : S) : Prop :=
  match m s with
  | Done a s' => Q a s'
  | Throw e s' => E e s'
  | Diverge => True
  end.

(** [m] does not run out of fuel from [s]. *)
Definition returns {A} (m : M S A) (s : S) : Prop := m s <> Diverge.
End Hoare.

Arguments wp {S A} m Q E s.
Arguments returns {S A} m s.

Section HoareRules.
Context {S : Type}.

Lemma wp_ret {A} (a : A) Q E (s : S) : Q a s -> wp (ret a) Q E s.
Proof. exact (fun H => H). Qed.

Lemma wp_throw {A} e (Q : A -> S -> Prop) E (s : S) : E e s -> wp (throw e) Q E s.
Proof. exact (fun H => H). Qed.

Lemma wp_get Q E (s : S) : Q s s -> wp get Q E s.
Proof. exact (fun H => H). Qed.

Lemma wp_modify (f : S -> S) Q E (s : S) : Q tt (f s) -> wp (modify f) Q E s.
Proof. exact (fun H => H). Qed.

Lemma wp_bind {A B} (m : M S A) (k : A -> M S B) Q E s :
  wp m (fun a s' => wp (k a) Q E s') E s -> wp (bind m k) Q E s.
Proof. unfold wp, bind. destruct (m s); auto. Qed.

Lemma wp_try_catch {A} (m : M S A) h Q E s :
  wp m Q (fun e s' => wp (h e) Q E s') s -> wp (try_catch m h) Q E s.
Proof. unfold wp, try_catch. destruct (m s); auto. Qed.

Lemma wp_mono {A} (m : M S A) (Q Q' : A -> S -> Prop) (E E' : JS.Error -> S -> Prop) s :
  wp m Q E s ->
  (forall a s', Q a s' -> Q' a s') ->
  (forall e s', E e s' -> E' e s') ->
  wp m Q' E' s.
Proof. unfold wp. destruct (m s); auto. Qed.


Lemma wp_thrown {A} (m : M S A) Q E s e s' :
  wp m Q E s -> m s = Throw e s' -> E e s'.
Proof. unfold wp. intros H Hm. rewrite Hm in H. exact H. Qed.

Lemma wp_for_of {A} (I : S -> Prop) (l : list A) (body : A -> M S unit) E s :
  I s ->
  (forall x s0, In x l -> I s0 -> wp (body x) (fun _ s' => I s') E s0) ->
  wp (for_of l body) (fun _ s' => I s') E s.
Proof.
  revert s. induction l as [|x l IH]; intros s Hs Hb; simpl.
  - apply wp_ret. exact Hs.
  - apply wp_bind.
    eapply wp_mono; [apply (Hb x s); [left; reflexivity | exact Hs] | | auto].
    intros ? s' Hs'. apply IH; [exact Hs'|].
    intros y s0 Hy. apply Hb. right. exact Hy.
Qed.

Lemma wp_while (I : S -> Prop) fuel cond (body : M S unit) E s :
  I s ->
  (forall s0, I s0 -> cond s0 = true -> wp body (fun _ s' => I s') E s0) ->
  wp (Ingestion.while fuel cond body) (fun _ s' => I s' /\ cond s' = false) E s.
Proof.
  revert s. induction fuel as [|fuel IH]; intros s Hs Hb.
  - unfold wp; simpl. destruct (cond s) eqn:Hc; auto.
  - unfold wp. simpl. destruct (cond s) eqn:Hc.
    + change (wp (bind body (fun _ => Ingestion.while fuel cond body))
                 (fun _ s' => I s' /\ cond s' = false) E s).
      apply wp_bind.
      eapply wp_mono; [apply (Hb s Hs Hc) | | auto].
      intros ? s' Hs'. apply IH; assumption.
    + split; assumption.
Qed.

Lemma returns_bind {A B} (m : M S A) (k : A -> M S B) s :
  returns m s ->
  (forall a s', m s = Done a s' -> returns (k a) s') ->
  returns (bind m k) s.
Proof.
  unfold returns, bind. intros Hm Hk.
  destruct (m s) eqn:Hms; [apply (Hk a s0); reflexivity | discriminate | congruence].
Qed.

Lemma returns_try_catch {A} (m : M S A) h s :
  returns m s ->
  (forall e s', m s = Throw e s' -> returns (h e) s') ->
  returns (try_catch m h) s.
Proof.
  unfold returns, try_catch. intros Hm Hh.
  destruct (m s) eqn:Hms; [discriminate | apply (Hh e s0); reflexivity | congruence].
Qed.

Lemma returns_for_of {A} (l : list A) (body : A -> M S unit) :
  (forall x s, returns (body x) s) -> forall s, returns (for_of l body) s.
Proof.
  intros Hb. induction l as [|x l IH]; intros s; simpl.
  - discriminate.
  - apply returns_bind; [apply Hb | intros; apply IH].
Qed.
End HoareRules.

Lemma wp_zoom {S T A} (proj : S -> T) (inj : T -> S -> S) (m : M T A) Q E s :
  wp m (fun a t => Q a (inj t s)) (fun e t => E e (inj t s)) (proj s) ->
  wp (zoom proj inj m) Q E s.
Proof. unfold wp, zoom. destruct (m (proj s)); auto. Qed.

Lemma returns_zoom {S T A} (proj : S -> T) (inj : T -> S -> S) (m : M T A) s :
  returns m (proj s) -> returns (zoom proj inj m) s.
Proof. unfold returns, zoom. destruct (m (proj s)); congruence. Qed.

Lemma wp_transaction {A} (callback : M Pg.DB A) Q E d :
  wp callback Q (fun e _ => E e d) d -> wp (Database.transaction callback) Q E d.
Proof. unfold wp, Database.transaction. destruct (callback d); auto. Qed.

Lemma returns_transaction {A} (callback : M Pg.DB A) d :
  returns callback d -> returns (Database.transaction callback) d.
Proof. unfold returns, Database.transaction. destruct (callback d); congruence. Qed.

Lemma wp_call {A} (m : M Ingestion.Frame A) Q E w :
  wp m (fun a f => Q a (Ingestion.world f)) (fun e f => E e (Ingestion.world f))
     (Ingestion.mkFrame w (Ingestion.mkLocals true None 0 None)) ->
  wp (Ingestion.call m) Q E w.
Proof. unfold wp, Ingestion.call. destruct (m _); auto. Qed.

(* ================================================================== *)
(** ** Signature check of the webhook receiver *)
(* ================================================================== *)

Section WebhookSignature.
Import Webhook.
Variable env : Env.
Variable secret : string.

Lemma verifyWebhook_spec raw sig :
  verifyWebhook env secret raw sig = true <->
  sig = Some (hmac_sha256_base64 env secret raw).
Proof.
  unfold verifyWebhook. destruct sig as [s|].
  - rewrite String.eqb_eq. split; [intros ->; reflexivity | intros H; inversion H; reflexivity].
  - split; discriminate.
Qed.

Definition unauthorized : Response := mkResponse 401 (ErrorBody "Unauthorized").

Lemma customer_update_unauthorized req d :
  verifyWebhook env secret (rawBody req) (hmac_header req) = false ->
  handleCustomerUpdate env secret req d = Done unauthorized d.
Proof. intros H. unfold handleCustomerUpdate, try_catch. rewrite H. reflexivity. Qed.

Lemma cart_abandoned_unauthorized req d :
  verifyWebhook env secret (rawBody req) (hmac_header req) = false ->
  handleCartAbandoned env secret req d = Done unauthorized d.
Proof. intros H. unfold handleCartAbandoned, try_catch. rewrite H. reflexivity. Qed.

Lemma checkout_started_unauthorized req d :
  verifyWebhook env secret (rawBody req) (hmac_header req) = false ->
  handleCheckoutStarted env secret req d = Done unauthorized d.
Proof. intros H. unfold handleCheckoutStarted, try_catch. rewrite H. reflexivity. Qed.
End WebhookSignature.

(** C9. The digest is the keyed hash of the raw body bytes and is compared
    with the signature header; when they differ (or the header is missing)
    each of the three handlers answers 401 Unauthorized and leaves the whole
    store as it was: no receipt, entity row or custom event is written. *)
Theorem C9_bad_signature_writes_nothing
    (env : Env) (secret : string) (domain sig : option string) (raw : list ascii)
    (Hbad : sig <> Some (hmac_sha256_base64 env secret raw)) :
  Webhook.verifyWebhook env secret raw sig = false /\
  (forall b d,
      Webhook.handleCustomerUpdate env secret (Webhook.mkRequest domain sig raw b) d
      = Done (Webhook.mkResponse 401 (Webhook.ErrorBody "Unauthorized")) d) /\
  (forall b d,
      Webhook.handleCartAbandoned env secret (Webhook.mkRequest domain sig raw b) d
      = Done (Webhook.mkResponse 401 (Webhook.ErrorBody "Unauthorized")) d) /\
  (forall b d,
      Webhook.handleCheckoutStarted env secret (Webhook.mkRequest domain sig raw b) d
      = Done (Webhook.mkResponse 401 (Webhook.ErrorBody "Unauthorized")) d).
Proof.
  assert (Hv : Webhook.verifyWebhook env secret raw sig = false).
  { destruct (Webhook.verifyWebhook env secret raw sig) eqn:Hv; [|reflexivity].
    apply verifyWebhook_spec in Hv. contradiction. }
  repeat split; intros.
  - exact Hv.
  - apply customer_update_unauthorized. exact Hv.
  - apply cart_abandoned_unauthorized. exact Hv.
  - apply checkout_started_unauthorized. exact Hv.
Qed.

Lemma C9_bad_signature_writes_nothing_witness :
  Some "forged" <> Some (hmac_sha256_base64 Scenario.env0 "whsec" (list_ascii_of_string "{}")) /\
  Webhook.handleCartAbandoned Scenario.env0 "whsec"
    (Webhook.mkRequest (Some "shop.myshopify.com") (Some "forged")
       (list_ascii_of_string "{}") (Webhook.mkCartBody (Some "abc") None "{}"))
    Scenario.db1
  = Done (Webhook.mkResponse 401 (Webhook.ErrorBody "Unauthorized")) Scenario.db1.
Proof.
  split.
  - discriminate.
  - apply (@C9_bad_signature_writes_nothing Scenario.env0 "whsec"
             (Some "shop.myshopify.com") (Some "forged") (list_ascii_of_string "{}")).
    discriminate.
Defined.

(* ================================================================== *)
(** ** The footprint of the upsert writer *)
(* ================================================================== *)

Section Footprint.
Import Pg Database Shopify Ingestion.
Variable env : Env.

(** Everything of the store that is not an entity table or the identifier
    counter. *)
Definition books (d : DB) :=
  (tenants d, custom_events d, sync_logs d, webhook_receipts d, sync_checkpoints d, now d).

(** A statement sequence that returns or throws, and leaves [books] alone. *)
Definition tame {A} (m : M DB A) : Prop :=
  forall d,
    match m d with
    | Done _ d' => books d' = books d
    | Throw _ d' => books d' = books d
    | Diverge => False
    end.

Lemma tame_ret {A} (a : A) : tame (ret a).
Proof. intros d. reflexivity. Qed.

Lemma tame_bind {A B} (m : M DB A) (k : A -> M DB B) :
  tame m -> (forall a, tame (k a)) -> tame (bind m k).
Proof.
  intros Hm Hk d. unfold bind. specialize (Hm d).
  destruct (m d) as [a d'| |]; auto.
  specialize (Hk a d'). destruct (k a d'); congruence.
Qed.

Lemma tame_for_of {A} (l : list A) (body : A -> M DB unit) :
  (forall x, tame (body x)) -> tame (for_of l body).
Proof.
  intros Hb. induction l as [|x l IH]; simpl.
  - apply tame_ret.
  - apply tame_bind; [apply Hb | intros _; exact IH].
Qed.

Lemma tame_checked {A} st (run : M DB A) : tame run -> tame (checked env st run).
Proof.
  intros Hr d. unfold checked. destruct (pg_check env st); [reflexivity | apply Hr].
Qed.

Lemma tame_transaction {A} (m : M DB A) : tame m -> tame (transaction m).
Proof.
  intros Hm d. unfold transaction. specialize (Hm d).
  destruct (m d); auto.
Qed.

Lemma tame_upsert_customer v : tame (upsert_customer env v).
Proof. apply tame_checked. intros d. reflexivity. Qed.

Lemma tame_upsert_product v : tame (upsert_product env v).
Proof. apply tame_checked. intros d. reflexivity. Qed.

Lemma tame_upsert_variant v : tame (upsert_variant env v).
Proof. apply tame_checked. intros d. reflexivity. Qed.

Lemma tame_upsert_order v : tame (upsert_order env v).
Proof. apply tame_checked. intros d. reflexivity. Qed.

Lemma tame_upsert_line_item v : tame (upsert_line_item env v).
Proof. apply tame_checked. intros d. reflexivity. Qed.

Lemma tame_write_customer t c : tame (write_customer env t c).
Proof. apply tame_upsert_customer. Qed.

Lemma tame_write_product t p : tame (write_product env t p).
Proof.
  unfold write_product. apply tame_bind; [apply tame_upsert_product|].
  intros pid. apply tame_for_of. intros v. apply tame_upsert_variant.
Qed.

Lemma tame_resolve_customer t c : tame (resolve_customer t c).
Proof.
  destruct c as [c|]; simpl; [|apply tame_ret].
  apply tame_bind; [intros d; reflexivity | intros rows; apply tame_ret].
Qed.

Lemma tame_write_order t o : tame (write_order env t o).
Proof.
  unfold write_order. apply tame_bind; [apply tame_resolve_customer|].
  intros cid. apply tame_bind; [apply tame_upsert_order|].
  intros oid. apply tame_for_of. intros li. apply tame_upsert_line_item.
Qed.
End Footprint.

(* ================================================================== *)
(** ** The trace of a run: requests, answers, pages *)
(* ================================================================== *)

Section Trace.
Import Pg Database Shopify Ingestion.
Variable env : Env.
Variable src : Source.

(** The answers of the source to requests sent after [i] earlier ones. *)
Fixpoint answers (i : nat) (reqs : list Request) : list (JS.Error + Payload) :=
  match reqs with
  | [] => []
  | rq :: reqs' => src i rq :: answers (Datatypes.S i) reqs'
  end.

(** The only query-string parameters the client knows. *)
Definition params_ok (rq : Request) : Prop :=
  forall k v, In (k, v) (params rq) -> k = "limit" \/ k = "status" \/ k = "since_id".

Variable R : Type.
Variable E : Entity R.

(** The records of an answer: none for an error or a body without the
    entity's array. *)
Definition page_of (a : JS.Error + Payload) : list R :=
  match a with
  | inr p => match unwrap E p with Some l => l | None => [] end
  | inl _ => []
  end.

Definition records (ans : list (JS.Error + Payload)) : list R :=
  flat_map page_of ans.

(** An answer with at least the 250 records asked for. *)
Definition full (a : JS.Error + Payload) : Prop :=
  (250 <= List.length (page_of a))%nat.

(** The run's maximum of the source timestamps, as the loop tracks it. *)
Definition max_updated (recs : list R) : option JS.Date :=
  fold_left (track env E) recs None.

(** What a well-formed entity provides: its getter sends exactly one request
    with known parameters, which do not depend on the third argument, and
    its writer is tame. *)
Record entity_ok : Type := mkEntityOk {
  ok_write : forall t r, tame (write E t r);
  ok_request : ShopifyAPIService -> option Z -> Request;
  ok_params : forall svc since, params_ok (ok_request svc since);
  ok_getPage : forall svc since last w,
      getPage E svc 250 since last w
      = let rq := ok_request svc since in
        let w' := mkWorld (db w) (sent w ++ [rq]) in
        match src (List.length (sent w)) rq with
        | inl e => Throw e w'
        | inr data => Done data w'
        end
}.
End Trace.

Section Entities.
Import Pg Database Shopify Ingestion.
Variable env : Env.
Variable src : Source.

Lemma since_param_ok since k v :
  In (k, v) (since_param since) -> k = "since_id".
Proof.
  unfold since_param. destruct since as [z|]; [destruct (Z.eqb z 0)|]; simpl;
    intros H; try contradiction.
  destruct H as [H|[]]. inversion H. reflexivity.
Qed.

Definition customers_ok : entity_ok src (customers_entity env src).
Proof.
  refine (@mkEntityOk src _ (customers_entity env src) _
            (fun svc since => mkRequest (baseUrl svc ++ "/customers.json") (accessToken svc)
                                        (("limit", PNum 250) :: since_param since)) _ _).
  - intros t r. apply tame_write_customer.
  - intros svc since k v [H|H]; [inversion H; auto | apply since_param_ok in H; auto].
  - reflexivity.
Defined.

Definition products_ok : entity_ok src (products_entity env src).
Proof.
  refine (@mkEntityOk src _ (products_entity env src) _
            (fun svc since => mkRequest (baseUrl svc ++ "/products.json") (accessToken svc)
                                        (("limit", PNum 250) :: since_param since)) _ _).
  - intros t r. apply tame_write_product.
  - intros svc since k v [H|H]; [inversion H; auto | apply since_param_ok in H; auto].
  - reflexivity.
Defined.

Definition orders_ok : entity_ok src (orders_entity env src).
Proof.
  refine (@mkEntityOk src _ (orders_entity env src) _
            (fun svc since => mkRequest (baseUrl svc ++ "/orders.json") (accessToken svc)
                                        (("limit", PNum 250) :: ("status", PStr "any")
                                           :: since_param since)) _ _).
  - intros t r. apply tame_write_order.
  - intros svc since k v [H|[H|H]];
      [inversion H; auto | inversion H; auto | apply since_param_ok in H; auto].
  - reflexivity.
Defined.
End Entities.

(* ================================================================== *)
(** ** The page loop *)
(* ================================================================== *)

Section Loop.
Import Pg Database Shopify Ingestion.
Variable env : Env.
Variable src : Source.
Variable R : Type.
Variable E : Entity R.
Variable HE : entity_ok src E.
Variable tenantId : string.
Variable shopify : ShopifyAPIService.
Variable lastUpdatedAt : option Z.
(** The world in which the loop starts. *)
Variable w0 : World.

(** What the locals and the world record once [reqs] have been sent and the
    pages of [counted] committed. *)
Definition progress (reqs : list Request) (counted : list (JS.Error + Payload))
    (f : Frame) : Prop :=
  sent (world f) = sent w0 ++ reqs /\
  Forall params_ok reqs /\
  books (db (world f)) = books (db w0) /\
  totalProcessed (locals f) = Z.of_nat (List.length (records E counted)) /\
  maxUpdatedInRun (locals f) = max_updated env E (records E counted).

(** An answer that carries the entity's array. *)
Definition is_page (a : JS.Error + Payload) : Prop :=
  match a with
  | inr p => unwrap E p <> None
  | inl _ => False
  end.

(** Between two turns: every answer is a committed page, all but the last
    were full pages, and so was the last one if the loop is to go on. *)
Definition looping (f : Frame) : Prop :=
  exists reqs,
    progress reqs (answers src (List.length (sent w0)) reqs) f /\
    Forall is_page (answers src (List.length (sent w0)) reqs) /\
    Forall (full E) (removelast (answers src (List.length (sent w0)) reqs)) /\
    (hasMore (locals f) = true ->
     Forall (full E) (answers src (List.length (sent w0)) reqs)).

(** After a turn that threw [e]: the last request is not counted, and [e]
    is the error of the source if that is how it answered. *)
Definition broken (e : JS.Error) (f : Frame) : Prop :=
  exists reqs rq,
    progress (reqs ++ [rq]) (answers src (List.length (sent w0)) reqs) f /\
    Forall (full E) (answers src (List.length (sent w0)) reqs) /\
    (forall e0, src (List.length (sent w0) + List.length reqs)%nat rq = inl e0 -> e0 = e).

Lemma answers_app i a b :
  answers src i (a ++ b) = answers src i a ++ answers src (i + List.length a) b.
Proof.
  revert i. induction a as [|x a IH]; intros i; simpl.
  - rewrite Nat.add_0_r. reflexivity.
  - rewrite IH. f_equal. f_equal. f_equal. lia.
Qed.

Lemma answers_length i reqs : List.length (answers src i reqs) = List.length reqs.
Proof. revert i. induction reqs as [|x a IH]; intros i; simpl; [|rewrite IH]; reflexivity. Qed.

Lemma records_app (a b : list (JS.Error + Payload)) :
  records E (a ++ b) = records E a ++ records E b.
Proof. unfold records. apply flat_map_app. Qed.

Lemma records_one (a : JS.Error + Payload) : records E [a] = page_of E a.
Proof. unfold records. simpl. apply app_nil_r. Qed.

Lemma looping_start : looping (mkFrame w0 (mkLocals true None 0 None)).
Proof.
  exists []. simpl. repeat split; simpl; auto.
  rewrite app_nil_r. reflexivity.
Qed.

Lemma page_step_looping f :
  looping f -> hasMore (locals f) = true ->
  wp (page_step env E tenantId shopify lastUpdatedAt)
     (fun _ f' => looping f') (fun e f' => broken e f') f.
Proof.
  intros (reqs & (Hsent & Hok & Hbooks & Htot & Hmax) & Hpages & Hprefix & Hfull) Hmore.
  specialize (Hfull Hmore).
  set (rq := ok_request HE shopify (sinceId (locals f))).
  assert (Hidx : List.length (sent (world f)) = (List.length (sent w0) + List.length reqs)%nat).
  { rewrite Hsent, length_app. reflexivity. }
  assert (Hans : answers src (List.length (sent w0)) (reqs ++ [rq])
                 = answers src (List.length (sent w0)) reqs
                   ++ [src (List.length (sent (world f))) rq]).
  { rewrite answers_app. simpl. rewrite Hidx. reflexivity. }
  assert (Hreqs : Forall (@params_ok) (reqs ++ [rq])).
  { apply Forall_app. split; [exact Hok|]. constructor; [apply (ok_params HE) | constructor]. }
  assert (Hprog : progress (reqs ++ [rq]) (answers src (List.length (sent w0)) reqs)
                    (mkFrame (mkWorld (db (world f)) (sent (world f) ++ [rq])) (locals f))).
  { repeat split; simpl; auto. rewrite Hsent, app_assoc. reflexivity. }
  unfold wp, page_step, bind, get, in_world, zoom.
  rewrite (ok_getPage HE). fold rq. cbv zeta.
  destruct (src (List.length (sent (world f))) rq) as [e|data] eqn:Hsrc.
  - exists reqs, rq. split; [exact Hprog|]. split; [exact Hfull|].
    intros e0 He0. rewrite <- Hidx, Hsrc in He0. congruence.
  - assert (Hnot : forall e e0,
               src (List.length (sent w0) + List.length reqs)%nat rq = inl e0 -> e0 = e).
    { intros e e0 He0. rewrite <- Hidx, Hsrc in He0. discriminate. }
    simpl. destruct (unwrap E data) as [page|] eqn:Hun.
    + assert (Hpage : is_page (inr data)) by (simpl; rewrite Hun; discriminate).
      destruct page as [|c page'].
      * simpl. exists (reqs ++ [rq]). rewrite Hans.
        assert (Hp : page_of E (inr data) = []) by (simpl; rewrite Hun; reflexivity).
        split; [|split; [|split]].
        -- repeat split; simpl; auto.
           ++ rewrite Hsent, app_assoc. reflexivity.
           ++ rewrite records_app, records_one, Hp, app_nil_r. exact Htot.
           ++ rewrite records_app, records_one, Hp, app_nil_r. exact Hmax.
        -- apply Forall_app. split; [exact Hpages | constructor; [exact Hpage | constructor]].
        -- rewrite removelast_last. exact Hfull.
        -- simpl. discriminate.
      * remember (c :: page') as page eqn:Heqpage.
        assert (Hne : Nat.eqb (List.length page) 0 = false)
          by (rewrite Heqpage; reflexivity).
        rewrite Hne.
        unfold in_db, zoom, modify. simpl.
        assert (Htame : tame (transaction (for_of page (write E tenantId)))).
        { apply tame_transaction, tame_for_of. intros x. apply (ok_write HE). }
        specialize (Htame (db (world f))).
        assert (Hp : page_of E (inr data) = page) by (simpl; rewrite Hun; reflexivity).
        destruct (transaction (for_of page (write E tenantId)) (db (world f)))
          as [[] d'|e d'|] eqn:Htx.
        -- simpl. exists (reqs ++ [rq]). rewrite Hans.
           split; [|split; [|split]].
           ++ repeat split; simpl; auto.
              ** rewrite Hsent, app_assoc. reflexivity.
              ** congruence.
              ** rewrite records_app, records_one, Hp, length_app, Htot. lia.
              ** rewrite records_app, records_one, Hp. unfold max_updated.
                 rewrite fold_left_app.
                 fold (max_updated env E (records E (answers src (List.length (sent w0)) reqs))).
                 rewrite <- Hmax. reflexivity.
           ++ apply Forall_app. split; [exact Hpages | constructor; [exact Hpage | constructor]].
           ++ rewrite removelast_last. exact Hfull.
           ++ simpl. intros Hm. apply Forall_app. split; [exact Hfull|].
              constructor; [|constructor]. unfold full. rewrite Hp.
              destruct (Z.of_nat (List.length page) <? 250) eqn:Hlt; [discriminate|].
              apply Z.ltb_ge in Hlt. lia.
        -- simpl.
           assert (d' = db (world f)).
           { unfold transaction in Htx.
             destruct (for_of page (write E tenantId) (db (world f))); congruence. }
           subst d'. exists reqs, rq. auto.
        -- contradiction.
    + simpl. exists reqs, rq. auto.
Qed.

(** A turn always ends, and sends exactly one request; the loop goes on
    only after a full page. *)
Lemma page_step_total f :
  match page_step env E tenantId shopify lastUpdatedAt f with
  | Done _ f' =>
      List.length (sent (world f')) = Datatypes.S (List.length (sent (world f))) /\
      (hasMore (locals f') = true ->
       exists rq, full E (src (List.length (sent (world f))) rq))
  | Throw _ f' =>
      List.length (sent (world f')) = Datatypes.S (List.length (sent (world f)))
  | Diverge => False
  end.
Proof.
  unfold page_step, bind, get, in_world, zoom.
  rewrite (ok_getPage HE). cbv zeta.
  set (rq := ok_request HE shopify (sinceId (locals f))).
  destruct (src (List.length (sent (world f))) rq) as [e|data] eqn:Hsrc; simpl.
  - rewrite length_app. simpl. lia.
  - destruct (unwrap E data) as [page|] eqn:Hun; simpl.
    + destruct page as [|c page'].
      * simpl. split; [rewrite length_app; simpl; lia | discriminate].
      * remember (c :: page') as page eqn:Heqpage.
        assert (Hne : Nat.eqb (List.length page) 0 = false)
          by (rewrite Heqpage; reflexivity).
        rewrite Hne. unfold in_db, zoom, modify. simpl.
        assert (Htame : tame (transaction (for_of page (write E tenantId)))).
        { apply tame_transaction, tame_for_of. intros x. apply (ok_write HE). }
        specialize (Htame (db (world f))).
        destruct (transaction (for_of page (write E tenantId)) (db (world f)))
          as [[] d'|e d'|] eqn:Htx; simpl.
        -- split; [rewrite length_app; simpl; lia|].
           intros Hm. exists rq. unfold full. rewrite Hsrc. simpl. rewrite Hun.
           destruct (Z.of_nat (List.length page) <? 250) eqn:Hlt; [discriminate|].
           apply Z.ltb_ge in Hlt. lia.
        -- rewrite length_app. simpl. lia.
        -- contradiction.
    + rewrite length_app. simpl. lia.
Qed.

(** The loop ends within [n + 1] turns when the answer to the request after
    [n] further ones cannot be a full page. *)
Lemma while_total n :
  forall fuel f,
    (n < fuel)%nat ->
    (forall rq, ~ full E (src (List.length (sent (world f)) + n)%nat rq)) ->
    match while fuel (fun f => hasMore (locals f))
                (page_step env E tenantId shopify lastUpdatedAt) f with
    | Done _ f' =>
        (List.length (sent (world f')) <= List.length (sent (world f)) + n + 1)%nat
    | Throw _ f' =>
        (List.length (sent (world f')) <= List.length (sent (world f)) + n + 1)%nat
    | Diverge => False
    end.
Proof.
  induction n as [|n IH]; intros fuel f Hfuel Hshort.
  - destruct fuel as [|fuel]; [lia|]. simpl.
    destruct (hasMore (locals f)) eqn:Hm; [|lia].
    unfold bind. pose proof (page_step_total f) as Hstep.
    destruct (page_step env E tenantId shopify lastUpdatedAt f) as [[] f1|e f1|];
      [|lia|contradiction].
    destruct Hstep as [Hlen Hfull].
    destruct fuel as [|fuel]; simpl.
    + destruct (hasMore (locals f1)) eqn:Hm1; [|lia].
      destruct (Hfull eq_refl) as [rq Hrq]. exfalso. apply (Hshort rq).
      rewrite Nat.add_0_r. exact Hrq.
    + destruct (hasMore (locals f1)) eqn:Hm1; [|lia].
      destruct (Hfull eq_refl) as [rq Hrq]. exfalso. apply (Hshort rq).
      rewrite Nat.add_0_r. exact Hrq.
  - destruct fuel as [|fuel]; [lia|]. simpl.
    destruct (hasMore (locals f)) eqn:Hm; [|lia].
    unfold bind. pose proof (page_step_total f) as Hstep.
    destruct (page_step env E tenantId shopify lastUpdatedAt f) as [[] f1|e f1|];
      [|lia|contradiction].
    destruct Hstep as [Hlen _].
    assert (Hfuel' : (n < fuel)%nat) by lia.
    assert (Hshort' : forall rq, ~ full E (src (List.length (sent (world f1)) + n)%nat rq)).
    { intros rq. rewrite Hlen.
      replace (Datatypes.S (List.length (sent (world f))) + n)%nat
        with (List.length (sent (world f)) + Datatypes.S n)%nat by lia.
      apply Hshort. }
    specialize (IH fuel f1 Hfuel' Hshort').
    destruct (while fuel (fun f0 => hasMore (locals f0))
                (page_step env E tenantId shopify lastUpdatedAt) f1);
      try lia; try contradiction.
Qed.
End Loop.

(* ================================================================== *)
(** ** One sweep: the loop, the log and the checkpoint *)
(* ================================================================== *)

Section Sweep.
Import Pg Database Shopify Ingestion.
Variable env : Env.
Variable src : Source.
Variable R : Type.
Variable E : Entity R.
Variable HE : entity_ok src E.
Variable tenantId : string.
Variable shopify : ShopifyAPIService.
Variable lastUpdatedAt : option Z.
Variable w0 : World.
Variable logId : nat.

(** The tables a sweep never writes. *)
Definition untouched (d d' : DB) : Prop :=
  tenants d' = tenants d /\ custom_events d' = custom_events d /\
  webhook_receipts d' = webhook_receipts d /\ now d' = now d.

(** A sweep that returned [r] in world [w']. *)
Definition completed (r : IngestResult) (w' : World) : Prop :=
  exists reqs,
    sent w' = sent w0 ++ reqs /\
    Forall params_ok reqs /\
    Forall (full E) (removelast (answers src (List.length (sent w0)) reqs)) /\
    success r = true /\
    processed r = Z.of_nat (List.length (records E (answers src (List.length (sent w0)) reqs))) /\
    untouched (db w0) (db w') /\
    sync_logs (db w')
    = set_log (now (db w0)) logId "completed" (processed r) None (sync_logs (db w0)) /\
    ((records E (answers src (List.length (sent w0)) reqs) = [] /\
      sync_checkpoints (db w') = sync_checkpoints (db w0))
     \/
     (exists m,
         records E (answers src (List.length (sent w0)) reqs) <> [] /\
         max_updated env E (records E (answers src (List.length (sent w0)) reqs))
         = Some (JS.Valid m) /\
         sync_checkpoints (db w')
         = raise_checkpoint (now (db w0)) tenantId (entity E) m (sync_checkpoints (db w0)))).

(** A sweep that threw [e] in world [w']: [N] is the count left in the log. *)
Definition failed (e : JS.Error) (w' : World) : Prop :=
  exists reqs N,
    sent w' = sent w0 ++ reqs /\
    Forall params_ok reqs /\
    Forall (full E) (removelast (answers src (List.length (sent w0)) reqs)) /\
    untouched (db w0) (db w') /\
    sync_checkpoints (db w') = sync_checkpoints (db w0) /\
    sync_logs (db w')
    = set_log (now (db w0)) logId "failed" N (Some (JS.message e)) (sync_logs (db w0)) /\
    (N = Z.of_nat (List.length
                     (records E (removelast (answers src (List.length (sent w0)) reqs))))
     \/ N = Z.of_nat (List.length (records E (answers src (List.length (sent w0)) reqs)))) /\
    (forall e0,
        last_of (answers src (List.length (sent w0)) reqs) = Some (inl e0) -> e0 = e).

Lemma set_log_again now id st1 n1 e1 st2 n2 e2 logs :
  set_log now id st2 n2 e2 (set_log now id st1 n1 e1 logs) = set_log now id st2 n2 e2 logs.
Proof.
  unfold set_log. rewrite map_map. apply map_ext. intros l.
  destruct (Nat.eqb (log_id l) id) eqn:Hid; simpl; rewrite Hid; reflexivity.
Qed.

Lemma max_updated_nil_inv (recs : list R) :
  max_updated env E recs = None -> recs = [].
Proof.
  destruct recs as [|c recs]; [reflexivity|]. unfold max_updated. simpl.
  assert (H : forall l d, fold_left (track env E) l (Some d) <> None).
  { induction l as [|x l IH]; intros d; simpl; [discriminate|].
    destruct (JS.date_gt (updatedAt_of env E x) d); apply IH. }
  intros Hn. exfalso. exact (H _ _ Hn).
Qed.

Lemma last_of_app {A} (l : list A) (x : A) : last_of (l ++ [x]) = Some x.
Proof.
  induction l as [|y l IH]; [reflexivity|]. simpl.
  destruct (l ++ [x]) eqn:Hl; [destruct l; discriminate | exact IH].
Qed.

Lemma last_of_Forall {A} (P : A -> Prop) (l : list A) (x : A) :
  Forall P l -> last_of l = Some x -> P x.
Proof.
  induction l as [|y l IH]; [discriminate|]. intros Hf Hl. inversion Hf; subst.
  destruct l as [|z l]; [inversion Hl; subst; assumption | apply IH; assumption].
Qed.

Lemma sweep_spec fuel :
  wp (sweep env E tenantId shopify lastUpdatedAt fuel logId)
     (fun r f' => completed r (world f'))
     (fun e f' => failed e (world f'))
     (mkFrame w0 (mkLocals true None 0 None)).
Proof.
  unfold sweep. apply wp_try_catch. apply wp_bind.
  eapply wp_mono.
  - apply (wp_while (looping env src E w0)).
    + apply looping_start.
    + intros f Hl Hm. apply (page_step_looping HE); assumption.
  - (* the loop is over *)
    intros [] f [(reqs & (Hsent & Hok & Hbooks & Htot & Hmax) & Hpages & Hprefix & _) Hstop].
    pose proof Hbooks as Hb. unfold books in Hb. inversion Hb as [[Hten Hev Hlogs Hrec Hck Hnow]].
    assert (Hcause : forall e e0,
               last_of (answers src (List.length (sent w0)) reqs) = Some (inl e0) -> e0 = e).
    { intros e e0 Hl. exfalso. exact (last_of_Forall Hpages Hl). }
    unfold wp, bind, get, in_world, in_db, zoom, update_sync_log, modify, try_catch. simpl.
    destruct (maxUpdatedInRun (locals f)) as [latest|] eqn:Hlatest.
    + destruct (0 <? totalProcessed (locals f)) eqn:Hpos.
      * (* the checkpoint is written *)
        assert (Hne : records E (answers src (List.length (sent w0)) reqs) <> []).
        { intros Hnil. rewrite Hnil in Htot. simpl in Htot. rewrite Htot in Hpos. discriminate. }
        unfold upsert_checkpoint. destruct latest as [ms|].
        -- unfold checked. destruct (pg_check env (UpsertCheckpoint tenantId (entity E) ms)) as [e|].
           ++ simpl. exists reqs, (totalProcessed (locals f)).
              repeat split; simpl; auto.
              rewrite set_log_again, Hlogs, Hnow. reflexivity.
           ++ simpl. exists reqs. repeat split; simpl; auto.
              ** rewrite Hlogs, Hnow. reflexivity.
              ** right. exists ms. split; [exact Hne|]. split; [congruence|].
                 rewrite Hck, Hnow. reflexivity.
        -- simpl. exists reqs, (totalProcessed (locals f)).
           repeat split; simpl; auto.
           rewrite set_log_again, Hlogs, Hnow. reflexivity.
      * simpl. exists reqs. repeat split; simpl; auto.
        -- rewrite Hlogs, Hnow. reflexivity.
        -- left. split; [|exact Hck].
           apply Z.ltb_ge in Hpos. apply length_zero_iff_nil. lia.
    + simpl. exists reqs. repeat split; simpl; auto.
      * rewrite Hlogs, Hnow. reflexivity.
      * left. split; [|exact Hck]. apply max_updated_nil_inv. congruence.
  - (* a turn of the loop threw *)
    intros e f (reqs & rq & (Hsent & Hok & Hbooks & Htot & Hmax) & Hfull & Hcause).
    pose proof Hbooks as Hb. unfold books in Hb. inversion Hb as [[Hten Hev Hlogs Hrec Hck Hnow]].
    unfold wp, bind, get, in_world, in_db, zoom, update_sync_log, modify, throw. simpl.
    exists (reqs ++ [rq]), (totalProcessed (locals f)).
    rewrite answers_app. simpl. rewrite removelast_last.
    repeat split; simpl; auto.
    + rewrite Hlogs, Hnow. reflexivity.
    + intros e0. rewrite last_of_app. intros He0. apply Hcause. congruence.
Qed.

(** A sweep ends, within [n + 1] requests, when the answer to the request
    after [n] further ones cannot be a full page. *)
Lemma sweep_total n fuel :
  (n < fuel)%nat ->
  (forall rq, ~ full E (src (List.length (sent w0) + n)%nat rq)) ->
  match sweep env E tenantId shopify lastUpdatedAt fuel logId
              (mkFrame w0 (mkLocals true None 0 None)) with
  | Done _ f' => (List.length (sent (world f')) <= List.length (sent w0) + n + 1)%nat
  | Throw _ f' => (List.length (sent (world f')) <= List.length (sent w0) + n + 1)%nat
  | Diverge => False
  end.
Proof.
  intros Hfuel Hshort.
  pose proof (@while_total env src R E HE tenantId shopify lastUpdatedAt n fuel
                (mkFrame w0 (mkLocals true None 0 None)) Hfuel Hshort) as Hw.
  unfold sweep, try_catch. unfold bind at 1.
  destruct (while fuel (fun f => hasMore (locals f))
              (page_step env E tenantId shopify lastUpdatedAt)
              (mkFrame w0 (mkLocals true None 0 None))) as [[] f|e f|];
    [| |contradiction].
  - unfold bind, get, in_world, in_db, zoom, update_sync_log, modify. simpl.
    destruct (maxUpdatedInRun (locals f)) as [latest|]; simpl; [|exact Hw].
    destruct (0 <? totalProcessed (locals f)); simpl; [|exact Hw].
    unfold upsert_checkpoint. destruct latest as [ms|]; simpl; [|exact Hw].
    unfold checked. destruct (pg_check env (UpsertCheckpoint tenantId (entity E) ms));
      simpl; exact Hw.
  - unfold bind, get, in_world, in_db, zoom, update_sync_log, modify, throw. simpl.
    exact Hw.
Qed.
End Sweep.

(* ================================================================== *)
(** ** One run of each of the three [ingest...] methods *)
(* ================================================================== *)

Section Runs.
Import Pg Database Shopify Ingestion.
Variable env : Env.
Variable src : Source.

(** The three entity types. *)
Inductive Kind := KCustomers | KProducts | KOrders.

Definition kind_record (k : Kind) : Type :=
  match k with
  | KCustomers => ShopifyCustomer
  | KProducts => ShopifyProduct
  | KOrders => ShopifyOrder
  end.

Definition kind_entity (k : Kind) : Entity (kind_record k) :=
  match k with
  | KCustomers => customers_entity env src
  | KProducts => products_entity env src
  | KOrders => orders_entity env src
  end.

Definition kind_ok (k : Kind) : entity_ok src (kind_entity k) :=
  match k with
  | KCustomers => customers_ok env src
  | KProducts => products_ok env src
  | KOrders => orders_ok env src
  end.

(** The run of the method for [k]. *)
Definition ingest (k : Kind) (fuel : nat) (tenantId shopDomain : string)
    (accessToken : option string) : M World IngestResult :=
  match k with
  | KCustomers => ingestCustomers env src fuel tenantId shopDomain accessToken
  | KProducts => ingestProducts env src fuel tenantId shopDomain accessToken
  | KOrders => ingestOrders env src fuel tenantId shopDomain accessToken
  end.

(** The SyncLog row a run opens, and the world once it is opened. *)
Definition opened_log (syncType tenantId : string) (d : DB) : SyncLog :=
  mkSyncLog (next_id d) tenantId syncType "running" 0 None (now d) None.

Definition opened (syncType tenantId : string) (w : World) : World :=
  mkWorld (bump (with_sync_logs
                   (sync_logs (db w) ++ [opened_log syncType tenantId (db w)]) (db w)))
          (sent w).

(** What [createSyncLog] raises for [tenantId] on the store of [w], if
    anything. *)
Definition refusal (tenantId : string) (w : World) : option JS.Error :=
  referenced env "sync_logs" tenantId (db w).

Lemma uuid_param_tenants tenantId d d' :
  tenants d' = tenants d -> uuid_param env tenantId d' = uuid_param env tenantId d.
Proof. intros H. unfold uuid_param. rewrite H. reflexivity. Qed.

Lemma referenced_tenants table tenantId d d' :
  tenants d' = tenants d ->
  referenced env table tenantId d' = referenced env table tenantId d.
Proof.
  intros H. unfold referenced. rewrite (@uuid_param_tenants tenantId d d' H), H. reflexivity.
Qed.

(** The id of a stored tenant stands for itself and is referenced. *)
Lemma uuid_param_stored tenantId d tenant :
  In tenant (tenants d) -> t_id tenant = tenantId -> uuid_param env tenantId d = inr tenantId.
Proof.
  intros Hin Hid. unfold uuid_param.
  assert (H : existsb (fun t => String.eqb (t_id t) tenantId) (tenants d) = true).
  { apply existsb_exists. exists tenant. split; [exact Hin|]. apply String.eqb_eq. exact Hid. }
  rewrite H. reflexivity.
Qed.

Lemma referenced_stored table tenantId d tenant :
  In tenant (tenants d) -> t_id tenant = tenantId -> referenced env table tenantId d = None.
Proof.
  intros Hin Hid. unfold referenced. rewrite (@uuid_param_stored tenantId d tenant Hin Hid).
  assert (H : existsb (fun t => String.eqb (t_id t) tenantId) (tenants d) = true).
  { apply existsb_exists. exists tenant. split; [exact Hin|]. apply String.eqb_eq. exact Hid. }
  rewrite H. reflexivity.
Qed.

(** A referenced tenant is stored under the uuid the text stands for. *)
Lemma referenced_none table tenantId d :
  referenced env table tenantId d = None ->
  exists u tenant,
    uuid_param env tenantId d = inr u /\ In tenant (tenants d) /\ t_id tenant = u.
Proof.
  unfold referenced. destruct (uuid_param env tenantId d) as [e|u]; [discriminate|].
  destruct (existsb (fun t => String.eqb (t_id t) u) (tenants d)) eqn:Hex; [|discriminate].
  intros _. apply existsb_exists in Hex. destruct Hex as (tenant & Hin & Heq).
  apply String.eqb_eq in Heq. exists u, tenant. auto.
Qed.

(** What the server raises does not depend on the table. *)
Lemma referenced_some table tenantId d e :
  referenced env table tenantId d = Some e ->
  uuid_param env tenantId d = inl e \/
  (exists u, uuid_param env tenantId d = inr u /\ e = foreign_key_violation table).
Proof.
  unfold referenced. destruct (uuid_param env tenantId d) as [e0|u].
  - intros H. inversion H. left. reflexivity.
  - destruct (existsb (fun t => String.eqb (t_id t) u) (tenants d)); [discriminate|].
    intros H. inversion H. right. exists u. auto.
Qed.

Lemma ingest_unfold k fuel tenantId shopDomain accessToken w :
  refusal tenantId w = None ->
  ingest k fuel tenantId shopDomain accessToken w
  = call (sweep env (kind_entity k) tenantId
                (new_ShopifyAPIService shopDomain accessToken)
                (match filter (is_checkpoint tenantId (entity (kind_entity k)))
                              (sync_checkpoints (db w)) with
                 | c :: _ => last_updated_at c
                 | [] => None
                 end)
                fuel (next_id (db w)))
         (opened (entity (kind_entity k)) tenantId w).
Proof.
  unfold refusal. intros Href.
  destruct (@referenced_none _ _ _ Href) as (u & tenant & Hu & _).
  destruct k; unfold ingest, ingestCustomers, ingestProducts, ingestOrders, createSyncLog,
    read_checkpoint, in_db, zoom, bind, select_checkpoint, insert_sync_log, ret;
    cbn [db sent]; rewrite ?Hu; cbn [db sent]; rewrite Href; cbn [db sent];
    try (match goal with
         | |- context [uuid_param env tenantId (bump ?d)] =>
             rewrite (@uuid_param_tenants tenantId (db w) (bump d) eq_refl), Hu
         end);
    reflexivity.
Qed.

(** A run for a text that references no tenant throws what [createSyncLog]
    raises, before anything is written or sent. *)
Lemma ingest_refused k fuel tenantId shopDomain accessToken w e :
  refusal tenantId w = Some e ->
  ingest k fuel tenantId shopDomain accessToken w = Throw e w.
Proof.
  unfold refusal. intros Href.
  assert (Hw : mkWorld (db w) (sent w) = w) by (destruct w; reflexivity).
  destruct k; unfold ingest, ingestCustomers, ingestProducts, ingestOrders, createSyncLog,
    read_checkpoint, in_db, zoom, bind, select_checkpoint, insert_sync_log, ret;
    cbn [db sent]; rewrite ?Href, ?Hw; try reflexivity.
  destruct (@referenced_some _ _ _ _ Href) as [Hu|(u & Hu & _)]; rewrite Hu; cbn [db sent];
    rewrite ?Href, ?Hw; reflexivity.
Qed.

Lemma ingest_spec k fuel tenantId shopDomain accessToken w :
  refusal tenantId w = None ->
  wp (ingest k fuel tenantId shopDomain accessToken)
     (completed env src (kind_entity k) tenantId
                (opened (entity (kind_entity k)) tenantId w) (next_id (db w)))
     (failed src (kind_entity k)
             (opened (entity (kind_entity k)) tenantId w) (next_id (db w)))
     w.
Proof.
  intros Href. unfold wp. rewrite (@ingest_unfold k fuel _ shopDomain accessToken _ Href).
  apply wp_call. apply (@sweep_spec env src _ _ (kind_ok k)).
Qed.

(** Every run: refused before it opens a log, or a sweep on the opened log. *)
Lemma ingest_cases k fuel tenantId shopDomain accessToken w :
  wp (ingest k fuel tenantId shopDomain accessToken)
     (fun r w' =>
        refusal tenantId w = None /\
        completed env src (kind_entity k) tenantId
                  (opened (entity (kind_entity k)) tenantId w) (next_id (db w)) r w')
     (fun e w' =>
        (refusal tenantId w = Some e /\ w' = w) \/
        (refusal tenantId w = None /\
         failed src (kind_entity k)
                (opened (entity (kind_entity k)) tenantId w) (next_id (db w)) e w'))
     w.
Proof.
  destruct (refusal tenantId w) as [e0|] eqn:Href.
  - unfold wp. rewrite (@ingest_refused k fuel _ shopDomain accessToken _ _ Href). left. auto.
  - eapply wp_mono; [apply (@ingest_spec k fuel _ shopDomain accessToken _ Href) | |].
    + intros r w' H. auto.
    + intros e w' H. right. auto.
Qed.

Lemma ingest_total k n fuel tenantId shopDomain accessToken w :
  (n < fuel)%nat ->
  (forall rq, ~ full (kind_entity k) (src (List.length (sent w) + n)%nat rq)) ->
  match ingest k fuel tenantId shopDomain accessToken w with
  | Done _ w' => (List.length (sent w') <= List.length (sent w) + n + 1)%nat
  | Throw _ w' => (List.length (sent w') <= List.length (sent w) + n + 1)%nat
  | Diverge => False
  end.
Proof.
  intros Hfuel Hshort.
  destruct (refusal tenantId w) as [e0|] eqn:Href.
  { rewrite (@ingest_refused k fuel _ shopDomain accessToken _ _ Href). lia. }
  rewrite (@ingest_unfold k fuel _ shopDomain accessToken _ Href). unfold call.
  pose proof (@sweep_total env src _ _ (kind_ok k) tenantId
                (new_ShopifyAPIService shopDomain accessToken)
                (match filter (is_checkpoint tenantId (entity (kind_entity k)))
                              (sync_checkpoints (db w)) with
                 | c :: _ => last_updated_at c
                 | [] => None
                 end)
                (opened (entity (kind_entity k)) tenantId w) (next_id (db w)) n fuel
                Hfuel Hshort) as H.
  destruct (sweep env (kind_entity k) tenantId _ _ fuel (next_id (db w)) _); exact H.
Qed.
End Runs.

(* ================================================================== *)
(** ** Pagination *)
(* ================================================================== *)

Section Pagination.
Import Pg Database Shopify Ingestion.
Variable env : Env.
Variable src : Source.

(** No answer short of a full page is followed by another answer. *)
Definition stops_at_short_page {R} (E : Entity R) (ans : list (JS.Error + Payload)) : Prop :=
  forall pre a post,
    ans = pre ++ a :: post ->
    (List.length (page_of E a) < 250)%nat ->
    post = [].

Lemma full_prefix_stops {R} (E : Entity R) ans :
  Forall (full E) (removelast ans) -> stops_at_short_page E ans.
Proof.
  intros Hf pre a post Hans Hshort.
  destruct post as [|b post]; [reflexivity|]. exfalso.
  subst ans.
  assert (Hin : In a (removelast (pre ++ a :: b :: post))).
  { rewrite removelast_app by discriminate. apply in_or_app. right.
    simpl. left. reflexivity. }
  rewrite Forall_forall in Hf. specialize (Hf a Hin). unfold full in Hf. lia.
Qed.

Lemma ingest_trace k fuel tenantId shopDomain accessToken w w' :
  final (ingest env src k fuel tenantId shopDomain accessToken w) = Some w' ->
  exists reqs,
    sent w' = sent w ++ reqs /\
    Forall params_ok reqs /\
    Forall (full (kind_entity env src k))
           (removelast (answers src (List.length (sent w)) reqs)).
Proof.
  intros Hfin. pose proof (ingest_cases env src k fuel tenantId shopDomain accessToken w) as H.
  unfold wp in H.
  destruct (ingest env src k fuel tenantId shopDomain accessToken w) as [r w1|e w1|];
    simpl in Hfin; [| |discriminate]; inversion Hfin; subst w1.
  - destruct H as (_ & reqs & Hs & Hok & Hfull & _). exists reqs. auto.
  - destruct H as [[_ Hw]|(_ & reqs & N & Hs & Hok & Hfull & _)].
    + exists []. subst w'. rewrite app_nil_r. simpl. auto.
    + exists reqs. auto.
Qed.
End Pagination.

(** C7. Pagination terminates. If the source answers the request that
    comes after [n] further ones with an empty page, a page shorter than 250
    records or no page at all, then a run of any of the three methods ends
    (whatever the fuel beyond [n]) after at most [n + 1] page fetches; and in
    the run no answer that is empty or shorter than 250 records is followed
    by a further request. *)
Theorem C7_pagination_terminates
    (env : Env) (src : Shopify.Source) (k : Kind) (n fuel : nat)
    (tenantId shopDomain : string) (accessToken : option string) (w : Shopify.World)
    (Hfuel : (n < fuel)%nat)
    (Hshort : forall rq,
        (List.length (page_of (kind_entity env src k)
                              (src (List.length (Shopify.sent w) + n)%nat rq)) < 250)%nat) :
  exists w' reqs,
    final (ingest env src k fuel tenantId shopDomain accessToken w) = Some w' /\
    Shopify.sent w' = Shopify.sent w ++ reqs /\
    (List.length reqs <= n + 1)%nat /\
    stops_at_short_page (kind_entity env src k)
                        (answers src (List.length (Shopify.sent w)) reqs).
Proof.
  assert (Hnot : forall rq,
             ~ full (kind_entity env src k) (src (List.length (Shopify.sent w) + n)%nat rq)).
  { intros rq Hf. unfold full in Hf. specialize (Hshort rq). lia. }
  pose proof (@ingest_total env src k n fuel tenantId shopDomain accessToken w Hfuel Hnot) as Ht.
  assert (Hfin : exists w', final (ingest env src k fuel tenantId shopDomain accessToken w)
                            = Some w').
  { destruct (ingest env src k fuel tenantId shopDomain accessToken w) as [r w1|e w1|];
      [exists w1; reflexivity | exists w1; reflexivity | contradiction]. }
  destruct Hfin as [w' Hfin]. exists w'.
  destruct (ingest_trace env src k fuel tenantId shopDomain accessToken w Hfin)
    as (reqs & Hs & _ & Hfull).
  exists reqs. split; [exact Hfin|]. split; [exact Hs|]. split.
  - assert (Hlen : (List.length (Shopify.sent w') <= List.length (Shopify.sent w) + n + 1)%nat).
    { destruct (ingest env src k fuel tenantId shopDomain accessToken w) as [r w1|e w1|];
        simpl in Hfin; inversion Hfin; subst; exact Ht. }
    rewrite Hs, length_app in Hlen. lia.
  - apply full_prefix_stops. exact Hfull.
Qed.

Lemma C7_pagination_terminates_witness :
  (0 < 1)%nat /\
  (forall rq,
      (List.length (page_of (kind_entity Scenario.env0 Scenario.one_customer KCustomers)
                            (Scenario.one_customer
                               (List.length (Shopify.sent (Scenario.world_of Scenario.db1)) + 0)%nat
                               rq)) < 250)%nat) /\
  exists w' reqs,
    final (ingest Scenario.env0 Scenario.one_customer KCustomers 1 "t1"
                  "shop.myshopify.com" (Some "tok") (Scenario.world_of Scenario.db1))
    = Some w' /\
    Shopify.sent w' = Shopify.sent (Scenario.world_of Scenario.db1) ++ reqs /\
    (List.length reqs <= 0 + 1)%nat /\
    stops_at_short_page (kind_entity Scenario.env0 Scenario.one_customer KCustomers)
      (answers Scenario.one_customer
               (List.length (Shopify.sent (Scenario.world_of Scenario.db1))) reqs).
Proof.
  split; [lia|]. split; [intros rq; simpl; lia|].
  apply (@C7_pagination_terminates Scenario.env0 Scenario.one_customer KCustomers 0 1
           "t1" "shop.myshopify.com" (Some "tok") (Scenario.world_of Scenario.db1)).
  - lia.
  - intros rq. simpl. lia.
Defined.

(* ================================================================== *)
(** ** One turn of the page loop, case by case *)
(* ================================================================== *)

Unset Implicit Arguments.

Section Turn.
Import Pg Database Shopify Ingestion.
Variable env : Env.
Variable src : Source.
Variable R : Type.
Variable E : Entity R.
Variable HE : entity_ok src E.
Variable tenantId : string.
Variable shopify : ShopifyAPIService.
Variable lastUpdatedAt : option Z.

(** The request of a turn and the world once it is sent. *)
Definition turn_request (f : Frame) : Request :=
  ok_request HE shopify (sinceId (locals f)).

Definition turn_sent (f : Frame) (d : DB) : World :=
  mkWorld d (sent (world f) ++ [turn_request f]).

(** The locals after a page was committed. *)
Definition turn_locals (f : Frame) (page : list R) : Locals :=
  mkLocals (if Z.of_nat (List.length page) <? 250 then false else hasMore (locals f))
           (option_map (rec_id E) (last_of page))
           (totalProcessed (locals f) + Z.of_nat (List.length page))
           (fold_left (track env E) page (maxUpdatedInRun (locals f))).

Lemma page_step_unfold f :
  page_step env E tenantId shopify lastUpdatedAt f
  = match src (List.length (sent (world f))) (turn_request f) with
    | inl e => Throw e (mkFrame (turn_sent f (db (world f))) (locals f))
    | inr data =>
        match unwrap E data with
        | None => Throw type_error (mkFrame (turn_sent f (db (world f))) (locals f))
        | Some page =>
            if Nat.eqb (List.length page) 0
            then Done tt (mkFrame (turn_sent f (db (world f)))
                            (mkLocals false (sinceId (locals f)) (totalProcessed (locals f))
                                      (maxUpdatedInRun (locals f))))
            else
              match for_of page (write E tenantId) (db (world f)) with
              | Done _ d' => Done tt (mkFrame (turn_sent f d') (turn_locals f page))
              | Throw e _ => Throw e (mkFrame (turn_sent f (db (world f))) (locals f))
              | Diverge => Diverge
              end
        end
    end.
Proof.
  unfold page_step, bind, get, in_world, zoom.
  rewrite (ok_getPage HE). cbv zeta. unfold turn_sent, turn_request.
  destruct (src (List.length (sent (world f))) (ok_request HE shopify (sinceId (locals f))))
    as [e|data]; [reflexivity|].
  cbv beta iota. cbn [world locals].
  destruct (unwrap E data) as [page|]; [|reflexivity].
  destruct (Nat.eqb (List.length page) 0); [reflexivity|].
  unfold in_db, zoom, modify, transaction. cbn [world locals db sent].
  destruct (for_of page (write E tenantId) (db (world f))) as [[] d'|e d'|]; reflexivity.
Qed.
End Turn.

(* ================================================================== *)
(** ** A rule for the sweep: what the loop keeps, the epilogue keeps *)
(* ================================================================== *)

Section SweepRule.
Import Pg Database Shopify Ingestion.
Variable env : Env.
Variable src : Source.
Variable R : Type.
Variable E : Entity R.
Variable tenantId : string.
Variable shopify : ShopifyAPIService.
Variable lastUpdatedAt : option Z.
Variable logId : nat.


(** [f'] is [f] after the epilogue of a sweep: only the SyncLog row and the
    checkpoint may differ. *)
Definition closed_as (st : string) (err : option string) (f f' : Frame) : Prop :=
  locals f' = locals f /\
  sent (world f') = sent (world f) /\
  tenants (db (world f')) = tenants (db (world f)) /\
  customers (db (world f')) = customers (db (world f)) /\
  products (db (world f')) = products (db (world f)) /\
  product_variants (db (world f')) = product_variants (db (world f)) /\
  orders (db (world f')) = orders (db (world f)) /\
  order_line_items (db (world f')) = order_line_items (db (world f)) /\
  custom_events (db (world f')) = custom_events (db (world f)) /\
  webhook_receipts (db (world f')) = webhook_receipts (db (world f)) /\
  next_id (db (world f')) = next_id (db (world f)) /\
  now (db (world f')) = now (db (world f)) /\
  sync_logs (db (world f'))
  = set_log (now (db (world f))) logId st (totalProcessed (locals f)) err
            (sync_logs (db (world f))).

(** The checkpoint after the epilogue: as it was, or raised for the run's
    tenant and entity. *)
Definition checkpoint_step (f f' : Frame) : Prop :=
  sync_checkpoints (db (world f')) = sync_checkpoints (db (world f)) \/
  exists ms,
    sync_checkpoints (db (world f'))
    = raise_checkpoint (now (db (world f))) tenantId (entity E) ms
                       (sync_checkpoints (db (world f))).

(** The checkpoint write after the loop raises [e]: the run has processed
    records, and its maximum is Invalid Date or a timestamp the server
    refuses. *)
Definition checkpoint_raises (e : JS.Error) (f : Frame) : Prop :=
  0 < totalProcessed (locals f) /\
  match maxUpdatedInRun (locals f) with
  | Some (JS.Valid ms) => pg_check env (UpsertCheckpoint tenantId (entity E) ms) = Some e
  | Some JS.InvalidDate => e = invalid_datetime
  | None => False
  end.


Variable I : Frame -> Prop.
Variable J : JS.Error -> Frame -> Prop.
Hypothesis turn :
  forall f, I f -> hasMore (locals f) = true ->
            wp (page_step env E tenantId shopify lastUpdatedAt)
               (fun _ f' => I f') (fun e f' => J e f') f.

Lemma sweep_rule fuel f0 :
  I f0 ->
  wp (sweep env E tenantId shopify lastUpdatedAt fuel logId)
     (fun r f' =>
        exists f,
          I f /\ hasMore (locals f) = false /\
          r = mkResult true (totalProcessed (locals f)) /\
          closed_as "completed" None f f' /\ checkpoint_step f f')
     (fun e f' =>
        exists f,
          (J e f \/ (I f /\ hasMore (locals f) = false /\ checkpoint_raises e f)) /\
          closed_as "failed" (Some (JS.message e)) f f' /\
          sync_checkpoints (db (world f')) = sync_checkpoints (db (world f)))
     f0.
Proof.
  intros H0. unfold sweep. apply wp_try_catch. apply wp_bind.
  eapply wp_mono.
  - apply (wp_while I); [exact H0 | exact turn].
  - intros [] f [HI Hstop].
    assert (Hm : hasMore (locals f) = false).
    { destruct (hasMore (locals f)); [discriminate Hstop | reflexivity]. }
    unfold wp, bind, get, in_world, in_db, zoom, update_sync_log, modify, try_catch. simpl.
    destruct (maxUpdatedInRun (locals f)) as [latest|] eqn:Hlatest.
    + destruct (0 <? totalProcessed (locals f)) eqn:Hpos.
      * apply Z.ltb_lt in Hpos.
        unfold upsert_checkpoint. destruct latest as [ms|].
        -- unfold checked.
           destruct (pg_check env (UpsertCheckpoint tenantId (entity E) ms)) as [e|] eqn:Hpg.
           ++ simpl. exists f.
              split; [right; split; [exact HI|]; split; [exact Hm|];
                      unfold checkpoint_raises; rewrite Hlatest; split;
                      [exact Hpos | exact Hpg]|].
              split.
              ** unfold closed_as. simpl. rewrite set_log_again. repeat split.
              ** reflexivity.
           ++ simpl. exists f. split; [exact HI|]. split; [exact Hm|]. split; [reflexivity|].
              split; [unfold closed_as; simpl; repeat split|].
              right. exists ms. reflexivity.
        -- simpl. exists f.
           split; [right; split; [exact HI|]; split; [exact Hm|];
                   unfold checkpoint_raises; rewrite Hlatest; split;
                   [exact Hpos | reflexivity]|].
           split.
           ++ unfold closed_as. simpl. rewrite set_log_again. repeat split.
           ++ reflexivity.
      * simpl. exists f. split; [exact HI|]. split; [exact Hm|]. split; [reflexivity|].
        split; [unfold closed_as; simpl; repeat split | left; reflexivity].
    + simpl. exists f. split; [exact HI|]. split; [exact Hm|]. split; [reflexivity|].
      split; [unfold closed_as; simpl; repeat split | left; reflexivity].
  - intros e f HJ.
    unfold wp, bind, get, in_world, in_db, zoom, update_sync_log, modify, throw. simpl.
    exists f. split; [left; exact HJ|]. split; [|reflexivity].
    unfold closed_as. simpl. repeat split.
Qed.
End SweepRule.

Lemma wp_both {S A} (m : M S A) (Q1 Q2 : A -> S -> Prop) (E1 E2 : JS.Error -> S -> Prop) s :
  wp m Q1 E1 s -> wp m Q2 E2 s ->
  wp m (fun a s' => Q1 a s' /\ Q2 a s') (fun e s' => E1 e s' /\ E2 e s') s.
Proof. unfold wp. destruct (m s); auto. Qed.


Set Implicit Arguments.

(* ================================================================== *)
(** ** The pages a run has committed *)
(* ================================================================== *)

Section Committed.
Import Pg Database Shopify Ingestion.
Variable env : Env.
Variable src : Source.
Variable R : Type.
Variable E : Entity R.
Variable HE : entity_ok src E.
Variable tenantId : string.
Variable shopify : ShopifyAPIService.
Variable lastUpdatedAt : option Z.
Variable w0 : World.







End Committed.

(* ================================================================== *)
(** ** Failed runs *)
(* ================================================================== *)

Section FailedRuns.
Import Pg Database Shopify Ingestion.
Variable env : Env.
Variable src : Source.




End FailedRuns.





(* ================================================================== *)
(** ** The checkpoint over sequences of runs *)
(* ================================================================== *)

Section Checkpoints.
Import Pg Database Shopify Ingestion.
Variable env : Env.

(** The checkpoint timestamp stored for (tenant, entity): NULL without a
    row, as [read_checkpoint] sees it. *)
Definition stored (d : DB) (tenantId entityName : string) : option Z :=
  match filter (is_checkpoint tenantId entityName) (sync_checkpoints d) with
  | c :: _ => last_updated_at c
  | [] => None
  end.


(** One run of a sequence: its source, entity type, loop bound and
    arguments, and the time at which it starts. *)
Record RunArgs := mkRunArgs {
  ra_src : Source;
  ra_kind : Kind;
  ra_fuel : nat;
  ra_tenantId : string;
  ra_shopDomain : string;
  ra_accessToken : option string;
  ra_now : Z
}.

Definition start_at (t : Z) (w : World) : World := mkWorld (at_time t (db w)) (sent w).

Definition run (a : RunArgs) (w : World) : Outcome World IngestResult :=
  ingest env (ra_src a) (ra_kind a) (ra_fuel a) (ra_tenantId a) (ra_shopDomain a)
         (ra_accessToken a) (start_at (ra_now a) w).








Lemma stored_at_time t d : stored (at_time t d) = stored d.
Proof. reflexivity. Qed.


End Checkpoints.

Section RunMaximum.
Import Ingestion.
Variable env : Env.
Variable R : Type.
Variable E : Entity R.



End RunMaximum.








(* ================================================================== *)
(** ** The checkpoint and the page requests *)
(* ================================================================== *)

Section CheckpointFilter.
Import Pg Database Shopify Ingestion.
Variable env : Env.
Variable src : Source.
Variable R : Type.
Variable E : Entity R.
Variable HE : entity_ok src E.

Lemma page_step_ignores_checkpoint tenantId shopify last1 last2 f :
  page_step env E tenantId shopify last1 f = page_step env E tenantId shopify last2 f.
Proof.
  unfold page_step, bind, get, in_world, zoom. rewrite !(ok_getPage HE). reflexivity.
Qed.

Lemma while_ext {S} fuel cond (b1 b2 : M S unit) :
  (forall s, b1 s = b2 s) -> forall s, while fuel cond b1 s = while fuel cond b2 s.
Proof.
  intros Hb. induction fuel as [|fuel IH]; intros s; simpl; [reflexivity|].
  destruct (cond s); [|reflexivity]. unfold bind. rewrite Hb.
  destruct (b2 s); [apply IH | reflexivity | reflexivity].
Qed.

(** The timestamp read from the checkpoint has no part in a sweep. *)
Lemma sweep_ignores_checkpoint tenantId shopify last1 last2 fuel logId f :
  sweep env E tenantId shopify last1 fuel logId f
  = sweep env E tenantId shopify last2 fuel logId f.
Proof.
  unfold sweep, try_catch. unfold bind at 1 5.
  rewrite (while_ext fuel (fun f => hasMore (locals f))
             (page_step env E tenantId shopify last1)
             (page_step env E tenantId shopify last2)
             (page_step_ignores_checkpoint tenantId shopify last1 last2)).
  reflexivity.
Qed.
End CheckpointFilter.

(** C1 (as the code has it). With a checkpoint stored for the run's
    (tenant, entity), a run of any of the three methods still sends page
    requests whose only query parameters are limit, status and since_id: the
    third argument the orchestrator passes to the getters is bound to no
    parameter of theirs, and the sweep is the same whatever that timestamp
    is.  No request carries the checkpoint timestamp. *)
Theorem C1_checkpoint_timestamp_not_sent
    (env : Env) (src : Shopify.Source) (k : Kind) (fuel : nat)
    (tenantId shopDomain : string) (accessToken : option string)
    (w w' : Shopify.World) (ts : Z)
    (Hcheckpoint : stored (Shopify.db w) tenantId
                          (Ingestion.entity (kind_entity env src k)) = Some ts)
    (Hend : final (ingest env src k fuel tenantId shopDomain accessToken w) = Some w') :
  (exists reqs,
      Shopify.sent w' = Shopify.sent w ++ reqs /\
      forall rq key v,
        In rq reqs -> In (key, v) (Shopify.params rq) ->
        key = "limit" \/ key = "status" \/ key = "since_id") /\
  (forall shopify logId f,
      Ingestion.sweep env (kind_entity env src k) tenantId shopify (Some ts) fuel logId f
      = Ingestion.sweep env (kind_entity env src k) tenantId shopify None fuel logId f).
Proof.
  split.
  - destruct (ingest_trace env src k fuel tenantId shopDomain accessToken w Hend)
      as (reqs & Hs & Hok & _).
    exists reqs. split; [exact Hs|].
    intros rq key v Hin Hp. rewrite Forall_forall in Hok. exact (Hok rq Hin key v Hp).
  - intros shopify logId f. apply (@sweep_ignores_checkpoint env src _ _ (kind_ok env src k)).
Qed.

Definition world_c1 : Shopify.World :=
  match final (ingest Scenario.env0 Scenario.one_customer KCustomers 5 "t1"
                      "shop.myshopify.com" (Some "tok")
                      (Scenario.world_of Scenario.db_checkpointed)) with
  | Some w' => w'
  | None => Scenario.world_of Scenario.db_checkpointed
  end.

(** The run on a store with the checkpoint 5000 sends one request, with the
    limit alone. *)
Lemma world_c1_requests :
  Shopify.sent world_c1
  = [Shopify.mkRequest "https://shop.myshopify.com/admin/api/2023-10/customers.json"
       (Some "tok") [("limit", Shopify.PNum 250)]].
Proof. vm_compute. reflexivity. Qed.

Lemma C1_checkpoint_timestamp_not_sent_witness :
  stored (Shopify.db (Scenario.world_of Scenario.db_checkpointed)) "t1"
         (Ingestion.entity (kind_entity Scenario.env0 Scenario.one_customer KCustomers))
  = Some 5000 /\
  final (ingest Scenario.env0 Scenario.one_customer KCustomers 5 "t1"
                "shop.myshopify.com" (Some "tok")
                (Scenario.world_of Scenario.db_checkpointed)) = Some world_c1 /\
  (exists reqs,
      Shopify.sent world_c1
      = Shopify.sent (Scenario.world_of Scenario.db_checkpointed) ++ reqs /\
      forall rq key v,
        In rq reqs -> In (key, v) (Shopify.params rq) ->
        key = "limit" \/ key = "status" \/ key = "since_id").
Proof.
  assert (H1 : stored (Shopify.db (Scenario.world_of Scenario.db_checkpointed)) "t1"
                 (Ingestion.entity (kind_entity Scenario.env0 Scenario.one_customer KCustomers))
               = Some 5000) by reflexivity.
  assert (H2 : final (ingest Scenario.env0 Scenario.one_customer KCustomers 5 "t1"
                             "shop.myshopify.com" (Some "tok")
                             (Scenario.world_of Scenario.db_checkpointed)) = Some world_c1)
    by (vm_compute; reflexivity).
  split; [exact H1|]. split; [exact H2|].
  exact (proj1 (@C1_checkpoint_timestamp_not_sent Scenario.env0 Scenario.one_customer
                  KCustomers 5 "t1" "shop.myshopify.com" (Some "tok")
                  (Scenario.world_of Scenario.db_checkpointed) world_c1 5000 H1 H2)).
Defined.

(* ================================================================== *)
(** ** The manual trigger and the credential *)
(* ================================================================== *)

Section Trigger.
Import Pg Database Shopify Ingestion Routes.
Variable env : Env.
Variable src : Source.
Variable fuel : nat.

(** What the later revision answers for a tenant without a credential. *)
Definition rejection (reqTenantId : option string) (tenantId : string) : Response :=
  if tenant_mismatch reqTenantId tenantId
  then mkResponse 403 (ErrorBody "Forbidden: tenant mismatch")
  else mkResponse 400 (ErrorBody "Tenant not connected to Shopify yet (missing access token)").

(** The later revision of the route answers before anything is attempted
    when the tenant has no credential. *)
Lemma guarded_trigger_rejects reqTenantId tenantId data_types w tenant rest :
  select_tenant_by_id env tenantId (db w) = Done (tenant :: rest) (db w) ->
  has_token tenant = false ->
  post_ingest_guarded env src fuel reqTenantId tenantId data_types w
  = Done (rejection reqTenantId tenantId) w.
Proof.
  intros Ht Hno. unfold post_ingest_guarded, rejection, try_catch.
  destruct (tenant_mismatch reqTenantId tenantId); [reflexivity|].
  unfold bind, in_db, zoom. rewrite Ht, Hno. simpl. destruct w; reflexivity.
Qed.

(** The scheduler skips such a tenant as well. *)
Lemma scheduler_skips tenant w :
  has_token tenant = false -> scheduled_tenant env src fuel tenant w = Done tt w.
Proof. intros Hno. unfold scheduled_tenant. rewrite Hno. reflexivity. Qed.

(** The rows a SELECT by id returns are rows of the table. *)
Lemma select_tenant_by_id_in tenantId d rows d' tenant :
  select_tenant_by_id env tenantId d = Done rows d' -> In tenant rows ->
  d' = d /\ In tenant (tenants d).
Proof.
  unfold select_tenant_by_id. destruct (uuid_param env tenantId d) as [e|u]; [discriminate|].
  intros H Hin. inversion H; subst. split; [reflexivity|].
  apply filter_In in Hin. tauto.
Qed.
End Trigger.

(** The stores of the first revision: every tenant has a credential, since
    its tenants table has [access_token TEXT NOT NULL]
    ([database/migrations.sql]) and its POST /tenants, the one statement
    that creates a tenant there, answers 400 without an access token. *)
Definition all_connected (d : Pg.DB) : Prop :=
  Forall (fun t => Routes.has_token t = true) (Pg.tenants d).

(** C2. A manual trigger (the route POST /tenants/:tenantId/ingest in its
    later revision, the one written for tenants that are not connected yet)
    that names a stored tenant without a credential (the access token is NULL
    or empty) is answered at once, with the world as it was: no SyncLog row
    is created, no statement other than the SELECT is run and no request is
    sent.  The answer is the precondition error 400 "Tenant not connected to
    Shopify yet (missing access token)", unless the caller authenticated as
    another tenant, which the route refuses even earlier with 403.  Such a
    trigger does not occur on a store of the first revision, whose route has
    no such check: there every tenant has a credential. *)
Theorem C2_trigger_without_credential_is_rejected
    (env : Env) (src : Shopify.Source) (fuel : nat) (reqTenantId : option string)
    (tenantId : string) (data_types : option (list string)) (w : Shopify.World)
    (tenant : Pg.Tenant) (rest : list Pg.Tenant)
    (Htenant : Database.select_tenant_by_id env tenantId (Shopify.db w)
               = Done (tenant :: rest) (Shopify.db w))
    (Hnotoken : Routes.has_token tenant = false) :
  Routes.post_ingest_guarded env src fuel reqTenantId tenantId data_types w
  = Done (if Routes.tenant_mismatch reqTenantId tenantId
          then Routes.mkResponse 403 (Routes.ErrorBody "Forbidden: tenant mismatch")
          else Routes.mkResponse 400
                 (Routes.ErrorBody
                    "Tenant not connected to Shopify yet (missing access token)"))
         w /\
  ~ all_connected (Shopify.db w).
Proof.
  split.
  - exact (@guarded_trigger_rejects env src fuel reqTenantId tenantId data_types w tenant rest
             Htenant Hnotoken).
  - intros Hall.
    destruct (@select_tenant_by_id_in env tenantId (Shopify.db w) (tenant :: rest)
                (Shopify.db w) tenant Htenant (or_introl eq_refl)) as [_ Hin].
    unfold all_connected in Hall. rewrite Forall_forall in Hall.
    rewrite (Hall tenant Hin) in Hnotoken. discriminate Hnotoken.
Qed.

(** The trigger for the tenant of [Scenario.db1] that is not connected yet,
    by an administrator and by a caller authenticated as another tenant. *)
Lemma C2_trigger_without_credential_is_rejected_witness :
  Database.select_tenant_by_id Scenario.env0 "t2" (Shopify.db (Scenario.world_of Scenario.db1))
  = Done [Scenario.tenant_no_token] (Shopify.db (Scenario.world_of Scenario.db1)) /\
  Routes.has_token Scenario.tenant_no_token = false /\
  Routes.post_ingest_guarded Scenario.env0 Scenario.needs_token 5 None "t2" None
                             (Scenario.world_of Scenario.db1)
  = Done (Routes.mkResponse 400
            (Routes.ErrorBody "Tenant not connected to Shopify yet (missing access token)"))
         (Scenario.world_of Scenario.db1) /\
  Routes.post_ingest_guarded Scenario.env0 Scenario.needs_token 5 (Some "t1") "t2" None
                             (Scenario.world_of Scenario.db1)
  = Done (Routes.mkResponse 403 (Routes.ErrorBody "Forbidden: tenant mismatch"))
         (Scenario.world_of Scenario.db1) /\
  ~ all_connected (Shopify.db (Scenario.world_of Scenario.db1)).
Proof.
  assert (H1 : Database.select_tenant_by_id Scenario.env0 "t2"
                 (Shopify.db (Scenario.world_of Scenario.db1))
               = Done [Scenario.tenant_no_token]
                      (Shopify.db (Scenario.world_of Scenario.db1))) by reflexivity.
  assert (H2 : Routes.has_token Scenario.tenant_no_token = false) by reflexivity.
  destruct (@C2_trigger_without_credential_is_rejected Scenario.env0
              Scenario.needs_token 5 None "t2" None (Scenario.world_of Scenario.db1)
              Scenario.tenant_no_token [] H1 H2) as [Hadmin Hstore].
  destruct (@C2_trigger_without_credential_is_rejected Scenario.env0
              Scenario.needs_token 5 (Some "t1") "t2" None (Scenario.world_of Scenario.db1)
              Scenario.tenant_no_token [] H1 H2) as [Hother _].
  split; [exact H1|]. split; [exact H2|]. split; [exact Hadmin|].
  split; [exact Hother | exact Hstore].
Defined.

(* ================================================================== *)
(** ** Upserts on a table *)
(* ================================================================== *)

Section TableFacts.
Import Pg.
Variable V : Type.
Variable key : V -> Key.
Variable merge : V -> V -> V.
Variable touch : bool.

(** The SET list never writes the key columns. *)
Hypothesis merge_key : forall old new, key (merge old new) = key old.
(** A second update with the same values changes nothing more. *)
Hypothesis merge_merge : forall old a b, merge (merge old a) b = merge old b.
(** Updating a freshly inserted row with its own values changes nothing. *)
Hypothesis merge_self : forall v, merge v v = v.

Lemma key_eqb_eq (a b : Key) : key_eqb a b = true <-> a = b.
Proof.
  destruct a as [s x], b as [t y]; unfold key_eqb; simpl.
  rewrite andb_true_iff, String.eqb_eq, Z.eqb_eq.
  split; [intros [-> ->]; reflexivity | intros H; inversion H; auto].
Qed.

Lemma key_eqb_refl (a : Key) : key_eqb a a = true.
Proof. apply key_eqb_eq. reflexivity. Qed.

Lemma has_key_on_conflict k now v r :
  has_key key k (on_conflict merge touch now v r) = has_key key k r.
Proof. unfold has_key, on_conflict. simpl. rewrite merge_key. reflexivity. Qed.

(** The number of rows under a key after an upsert. *)
Lemma count_key_upsert k now fresh v t :
  count_key key k (upsert key merge touch now fresh v t)
  = if key_eqb k (key v)
    then Nat.max 1 (count_key key k t)
    else count_key key k t.
Proof.
  unfold count_key, select_key.
  induction t as [|r t IH]; simpl.
  - unfold has_key at 1. simpl. destruct (key_eqb k (key v)); reflexivity.
  - destruct (has_key key (key v) r) eqn:Hr; simpl.
    + rewrite has_key_on_conflict.
      destruct (key_eqb k (key v)) eqn:Hk.
      * apply key_eqb_eq in Hk. subst k. rewrite Hr. simpl. lia.
      * destruct (has_key key k r); reflexivity.
    + destruct (key_eqb k (key v)) eqn:Hk.
      * apply key_eqb_eq in Hk. subst k. rewrite Hr. exact IH.
      * destruct (has_key key k r); simpl; rewrite IH; reflexivity.
Qed.

(** The uniqueness constraint is kept by every upsert. *)
Lemma unique_upsert now fresh v t :
  unique key t -> unique key (upsert key merge touch now fresh v t).
Proof.
  intros Hu k. rewrite count_key_upsert. specialize (Hu k).
  destruct (key_eqb k (key v)); lia.
Qed.

(** After an upsert there is exactly one row under the key, on a table that
    satisfies the constraint. *)
Lemma upsert_exactly_one now fresh v t :
  unique key t -> count_key key (key v) (upsert key merge touch now fresh v t) = 1%nat.
Proof.
  intros Hu. rewrite count_key_upsert, key_eqb_refl. specialize (Hu (key v)). lia.
Qed.

(** An upsert of the values just written changes no row but for
    [updated_at]: no row is added, identifiers and columns stay. *)
Lemma upsert_again now1 fresh1 now2 fresh2 v t :
  map (@content V)
      (upsert key merge touch now2 fresh2 v (upsert key merge touch now1 fresh1 v t))
  = map (@content V) (upsert key merge touch now1 fresh1 v t).
Proof.
  induction t as [|r t IH]; simpl.
  - unfold has_key. simpl. rewrite key_eqb_refl. simpl.
    unfold content. simpl. rewrite merge_self. reflexivity.
  - destruct (has_key key (key v) r) eqn:Hr; simpl.
    + rewrite has_key_on_conflict, Hr. simpl.
      unfold content. simpl. rewrite merge_merge. reflexivity.
    + rewrite Hr. simpl. rewrite IH. reflexivity.
Qed.

(** The row an upsert leaves under the key. *)
Lemma upsert_row now fresh v t :
  exists r,
    In r (upsert key merge touch now fresh v t) /\
    key (vals r) = key v /\
    (vals r = v \/ exists old, In old t /\ vals r = merge (vals old) v).
Proof.
  induction t as [|r0 t IH]; simpl.
  - exists (mkRow fresh now now v). simpl. auto.
  - destruct (has_key key (key v) r0) eqn:Hr.
    + exists (on_conflict merge touch now v r0). split; [left; reflexivity|].
      unfold on_conflict. simpl. split.
      * rewrite merge_key. unfold has_key in Hr. apply key_eqb_eq in Hr. congruence.
      * right. exists r0. auto.
    + destruct IH as (r & Hin & Hk & Hv). exists r. split; [right; exact Hin|].
      split; [exact Hk|]. destruct Hv as [Hv|(old & Hold & Hv)]; [left; exact Hv|].
      right. exists old. auto.
Qed.

Lemma upsert_length now fresh v t :
  (List.length t <= List.length (upsert key merge touch now fresh v t))%nat.
Proof.
  induction t as [|r t IH]; simpl; [lia|].
  destruct (has_key key (key v) r); simpl; lia.
Qed.
End TableFacts.

Section Merges.
Import Pg.

Lemma customer_merge_key old new : customer_key (customer_merge old new) = customer_key old.
Proof. reflexivity. Qed.

Lemma customer_merge_merge old a b :
  customer_merge (customer_merge old a) b = customer_merge old b.
Proof. reflexivity. Qed.

Lemma customer_merge_self v : customer_merge v v = v.
Proof. destruct v. reflexivity. Qed.

Lemma product_merge_key old new : product_key (product_merge old new) = product_key old.
Proof. reflexivity. Qed.

Lemma product_merge_merge old a b :
  product_merge (product_merge old a) b = product_merge old b.
Proof. reflexivity. Qed.

Lemma product_merge_self v : product_merge v v = v.
Proof. destruct v. reflexivity. Qed.

Lemma variant_merge_key old new : variant_key (variant_merge old new) = variant_key old.
Proof. reflexivity. Qed.

Lemma variant_merge_merge old a b :
  variant_merge (variant_merge old a) b = variant_merge old b.
Proof. reflexivity. Qed.

Lemma variant_merge_self v : variant_merge v v = v.
Proof. destruct v. reflexivity. Qed.

Lemma order_merge_key old new : order_key (order_merge old new) = order_key old.
Proof. reflexivity. Qed.

Lemma order_merge_merge old a b :
  order_merge (order_merge old a) b = order_merge old b.
Proof. reflexivity. Qed.

Lemma order_merge_self v : order_merge v v = v.
Proof. destruct v. reflexivity. Qed.

Lemma line_item_merge_key old new :
  line_item_key (line_item_merge old new) = line_item_key old.
Proof. reflexivity. Qed.

Lemma line_item_merge_merge old a b :
  line_item_merge (line_item_merge old a) b = line_item_merge old b.
Proof. reflexivity. Qed.

Lemma line_item_merge_self v : line_item_merge v v = v.
Proof. destruct v. reflexivity. Qed.
End Merges.

(* ================================================================== *)
(** ** Numeric fields *)
(* ================================================================== *)

(** A signed customers/update delivery for the platform [Scenario.env0] and
    the secret "whsec", with the given total_spent. *)
Definition customer_hook (spent : option string) : Webhook.Request Webhook.CustomerBody :=
  Webhook.mkRequest (Some "shop.myshopify.com") (Some "whsec{}")
    (list_ascii_of_string "{}")
    (Webhook.mkCustomerBody (Some 101) "alice@example.com" "Alice" "A" "555" spent 3
                            "1000" "7000").

(** The sentence of the spec on the webhook path: a total_spent that does
    not parse as a decimal makes the write of the record fail. *)
Definition parse_failure_fails_write (env : Env) (secret : string) : Prop :=
  forall (req : Webhook.Request Webhook.CustomerBody) d resp d' s,
    Webhook.cb_total_spent (Webhook.body req) = Some s ->
    JS.parseFloat s = JS.NaN ->
    Webhook.handleCustomerUpdate env secret req d = Done resp d' ->
    Webhook.is_success resp = false /\ Pg.customers d' = Pg.customers d.

Lemma customer_hook_empty_total :
  JS.parseFloat "" = JS.NaN /\
  exists d',
    Webhook.handleCustomerUpdate Scenario.env0 "whsec" (customer_hook (Some "")) Scenario.db1
    = Done (Webhook.mkResponse 200 (Webhook.SuccessBody false)) d' /\
    map (fun r => Pg.c_total_spent (Pg.vals r)) (Pg.customers d') = [JS.Dec false 0 0].
Proof. split; [reflexivity|]. eexists. split; vm_compute; reflexivity. Qed.

(** The empty string does not parse, yet the delivery is answered 200 and
    the customer is written with total_spent 0. *)
Lemma C3_counterexample : ~ parse_failure_fails_write Scenario.env0 "whsec".
Proof.
  intros H.
  destruct customer_hook_empty_total as [Hnan (d' & Hrun & _)].
  destruct (H (customer_hook (Some "")) Scenario.db1 _ d' "" eq_refl Hnan Hrun) as [Hs _].
  discriminate Hs.
Qed.

(* ================================================================== *)
(** ** Receipts and duplicate deliveries *)
(* ================================================================== *)

Section Receipts.
Import Pg Database Webhook.
Variable env : Env.
Variable secret : string.

Lemma getTenantByDomain_frame dom d d' tenant :
  getTenantByDomain dom d = Done (Some tenant) d ->
  tenants d' = tenants d ->
  getTenantByDomain dom d' = Done (Some tenant) d'.
Proof.
  unfold getTenantByDomain, bind, select_tenant_by_domain, ret.
  intros H Ht. rewrite Ht. inversion H as [H1]. rewrite H1. reflexivity.
Qed.

Lemma receipt_conflict_self v n a b i :
  r_external_id v = Some i -> receipt_conflict v (mkRow n a b v) = true.
Proof.
  intros Hi. unfold receipt_conflict. simpl. rewrite Hi, !String.eqb_refl, Z.eqb_refl.
  reflexivity.
Qed.

(** A receipt without an external id collides with nothing. *)
Lemma receipt_conflict_null v rows :
  r_external_id v = None -> existsb (receipt_conflict v) rows = false.
Proof.
  intros Hn. induction rows as [|r rows IH]; simpl; [reflexivity|].
  rewrite IH. unfold receipt_conflict. rewrite Hn.
  destruct (r_external_id (vals r)); rewrite andb_false_r; reflexivity.
Qed.

(** The three outcomes of the receipt insert. *)
Lemma insert_receipt_cases v d :
  (exists e, pg_check env (InsertReceipt v) = Some e /\ insert_receipt env v d = Throw e d)
  \/ (pg_check env (InsertReceipt v) = None /\
      existsb (receipt_conflict v) (webhook_receipts d) = true /\
      insert_receipt env v d = Throw unique_violation d)
  \/ (pg_check env (InsertReceipt v) = None /\
      existsb (receipt_conflict v) (webhook_receipts d) = false /\
      insert_receipt env v d
      = Done tt (bump (with_webhook_receipts
                         (webhook_receipts d ++ [mkRow (next_id d) (now d) (now d) v]) d))).
Proof.
  unfold insert_receipt, checked.
  destruct (pg_check env (InsertReceipt v)) as [e|].
  - left. exists e. auto.
  - right. destruct (existsb (receipt_conflict v) (webhook_receipts d)); auto.
Qed.

Lemma claim_receipt_duplicate (ins : M DB unit) d e d' :
  ins d = Throw e d' -> JS.code e = Some "23505" -> claim_receipt ins d = Done true d'.
Proof.
  intros Hi Hc. unfold claim_receipt, try_catch, bind. rewrite Hi, Hc. reflexivity.
Qed.

Lemma claim_receipt_claimed (ins : M DB unit) d d' :
  ins d = Done tt d' -> claim_receipt ins d = Done false d'.
Proof. intros Hi. unfold claim_receipt, try_catch, bind. rewrite Hi. reflexivity. Qed.

(** The values the customers/update handler binds. *)
Definition hook_customer_vals (tenant : Tenant) (cid : Z) (customer : CustomerBody)
  : CustomerVals :=
  mkCustomerVals (t_id tenant) cid (cb_email customer) (cb_first_name customer)
    (cb_last_name customer) (cb_phone customer)
    (JS.parseFloat (or_zero (cb_total_spent customer))) (cb_orders_count customer)
    (cb_created_at customer) (cb_updated_at customer).

Definition customer_receipt (tenant : Tenant) (customer : CustomerBody) : ReceiptVals :=
  mkReceiptVals (t_id tenant) "customers/update" (cb_id customer).

(** The handler once the signature is verified and the tenant found. *)
Lemma handleCustomerUpdate_unfold req d tenant :
  verifyWebhook env secret (rawBody req) (hmac_header req) = true ->
  getTenantByDomain (shop_domain_header req) d = Done (Some tenant) d ->
  handleCustomerUpdate env secret req d
  = match claim_receipt (insert_receipt env (customer_receipt tenant (body req))) d with
    | Done true d1 => Done (mkResponse 200 (SuccessBody true)) d1
    | Done false d1 =>
        match cb_id (body req) with
        | None => Done (mkResponse 500 (ErrorBody "Internal server error")) d1
        | Some cid =>
            match upsert_customer env (hook_customer_vals tenant cid (body req)) d1 with
            | Done _ d2 => Done (mkResponse 200 (SuccessBody false)) d2
            | Throw _ d2 => Done (mkResponse 500 (ErrorBody "Internal server error")) d2
            | Diverge => Diverge
            end
        end
    | Throw _ d1 => Done (mkResponse 500 (ErrorBody "Internal server error")) d1
    | Diverge => Diverge
    end.
Proof.
  intros Hsig Hten. unfold handleCustomerUpdate, try_catch. rewrite Hsig. simpl.
  unfold bind at 1. rewrite Hten. unfold bind at 1.
  fold (customer_receipt tenant (body req)).
  destruct (claim_receipt (insert_receipt env (customer_receipt tenant (body req))) d)
    as [[|] d1|e d1|]; try reflexivity.
  destruct (cb_id (body req)) as [cid|]; [|reflexivity].
  unfold bind. fold (hook_customer_vals tenant cid (body req)).
  destruct (upsert_customer env (hook_customer_vals tenant cid (body req)) d1)
    as [[] d2|e d2|]; reflexivity.
Qed.
End Receipts.

Section ReceiptGate.
Import Pg Database Webhook.
Variable env : Env.

Lemma claim_receipt_thrown (ins : M DB unit) d e d' :
  ins d = Throw e d' ->
  claim_receipt ins d = Done true d' \/ claim_receipt ins d = Throw e d'.
Proof.
  intros Hi. unfold claim_receipt, try_catch, bind. rewrite Hi.
  destruct (JS.code e) as [c|]; [|right; reflexivity].
  destruct (String.eqb c "23505"); [left | right]; reflexivity.
Qed.

End ReceiptGate.


(** An address of 256 bytes, one more than VARCHAR(255) takes. *)
Definition long_email : string := string_of_list_ascii (repeat "a"%char 256).

(** A signed customers/update delivery whose email the store of
    [Scenario.env_varchar] refuses. *)
Definition long_email_hook : Webhook.Request Webhook.CustomerBody :=
  Webhook.mkRequest (Some "shop.myshopify.com") (Some "whsec{}")
    (list_ascii_of_string "{}")
    (Webhook.mkCustomerBody (Some 202) long_email "Bob" "B" "556" (Some "3.00") 1
                            "1000" "7000").







(* ================================================================== *)
(** ** The deduplication key of carts/abandoned *)
(* ================================================================== *)

Section CartKey.

(** The number written by a byte sequence, most significant byte first. *)
Definition be_value (bytes : list ascii) : N :=
  fold_left (fun acc c => (acc * 256 + JS.cc c)%N) bytes 0%N.

(** The hexadecimal digits of a byte sequence, as values. *)
Definition nibbles (bytes : list ascii) : list N :=
  flat_map (fun c => [(JS.cc c / 16)%N; (JS.cc c mod 16)%N]) bytes.

Lemma below_16 (P : N -> Prop) :
  (forall k, (k < 16)%nat -> P (N.of_nat k)) -> forall n, (n < 16)%N -> P n.
Proof.
  intros H n Hn. rewrite <- (N2Nat.id n). apply H. lia.
Qed.

Lemma hex_val_hex_digit n :
  (n < 16)%N -> JS.hex_val (JS.hex_digit n) = Some n.
Proof.
  revert n. apply below_16. intros k Hk.
  do 16 (destruct k as [|k]; [reflexivity|]). lia.
Qed.

Lemma hex_digit_not_x n :
  (n < 16)%N ->
  N.eqb (JS.cc (JS.hex_digit n)) 120 = false /\ N.eqb (JS.cc (JS.hex_digit n)) 88 = false.
Proof.
  revert n. apply below_16. intros k Hk.
  do 16 (destruct k as [|k]; [split; reflexivity|]). lia.
Qed.

Lemma trim_start_hex n rest :
  (n < 16)%N -> JS.trim_start (JS.hex_digit n :: rest) = JS.hex_digit n :: rest.
Proof.
  revert n. apply below_16. intros k Hk.
  do 16 (destruct k as [|k]; [destruct rest as [|c1 [|c2 r2]]; reflexivity|]). lia.
Qed.

Lemma take_sign_hex n rest :
  (n < 16)%N -> JS.take_sign (JS.hex_digit n :: rest) = (false, JS.hex_digit n :: rest).
Proof.
  revert n. apply below_16. intros k Hk.
  do 16 (destruct k as [|k]; [reflexivity|]). lia.
Qed.

Lemma cc_nibbles c : (JS.cc c / 16 < 16)%N /\ (JS.cc c mod 16 < 16)%N.
Proof.
  pose proof (N_ascii_bounded c) as Hb. unfold JS.cc. split.
  - apply N.Div0.div_lt_upper_bound. lia.
  - apply N.mod_lt. lia.
Qed.

Lemma span_hex_toString_hex bytes :
  JS.span_hex (list_ascii_of_string (JS.toString_hex bytes)) = nibbles bytes.
Proof.
  induction bytes as [|c r IH]; [reflexivity|].
  destruct (cc_nibbles c) as [Hhi Hlo]. simpl.
  rewrite (hex_val_hex_digit Hhi), (hex_val_hex_digit Hlo), IH. reflexivity.
Qed.

Lemma fold_nibbles bytes : forall acc,
  fold_left (fun a d => (a * 16 + d)%N) (nibbles bytes) acc
  = fold_left (fun a c => (a * 256 + JS.cc c)%N) bytes acc.
Proof.
  induction bytes as [|c r IH]; intros acc; [reflexivity|].
  simpl. rewrite IH. f_equal.
  pose proof (N.div_mod (JS.cc c) 16) as Hdm. lia.
Qed.

Lemma slice0_toString_hex n : forall bytes,
  JS.slice0 (2 * n) (JS.toString_hex bytes) = JS.toString_hex (firstn n bytes).
Proof.
  unfold JS.slice0. induction n as [|n IH]; intros bytes.
  - destruct bytes; reflexivity.
  - replace (2 * Datatypes.S n)%nat with (Datatypes.S (Datatypes.S (2 * n))) by lia.
    destruct bytes as [|c r]; [reflexivity|].
    simpl firstn. cbn [JS.toString_hex substring]. rewrite IH. reflexivity.
Qed.

(** [parseInt(hex, 16)] of the hexadecimal text of a non-empty byte
    sequence is the number it writes. *)
Lemma parseInt16_toString_hex c r :
  JS.parseInt16 (JS.toString_hex (c :: r)) = JS.Dec false (be_value (c :: r)) 0.
Proof.
  destruct (cc_nibbles c) as [Hhi Hlo].
  unfold JS.parseInt16.
  assert (Hl : list_ascii_of_string (JS.toString_hex (c :: r))
               = JS.hex_digit (JS.cc c / 16) :: JS.hex_digit (JS.cc c mod 16)
                   :: list_ascii_of_string (JS.toString_hex r)) by reflexivity.
  rewrite Hl, (trim_start_hex _ Hhi), (take_sign_hex _ Hhi).
  assert (Hs : JS.strip_0x (JS.hex_digit (JS.cc c / 16) :: JS.hex_digit (JS.cc c mod 16)
                              :: list_ascii_of_string (JS.toString_hex r))
               = JS.hex_digit (JS.cc c / 16) :: JS.hex_digit (JS.cc c mod 16)
                   :: list_ascii_of_string (JS.toString_hex r)).
  { unfold JS.strip_0x. destruct (hex_digit_not_x Hlo) as [-> ->].
    rewrite andb_false_r. reflexivity. }
  rewrite Hs, <- Hl, span_hex_toString_hex.
  unfold be_value. rewrite <- fold_nibbles.
  destruct (nibbles (c :: r)) eqn:Hn; [discriminate Hn | reflexivity].
Qed.

Lemma be_value_bound bytes : (be_value bytes < 256 ^ N.of_nat (List.length bytes))%N.
Proof.
  unfold be_value.
  assert (H : forall l acc,
             (fold_left (fun a c => (a * 256 + JS.cc c)%N) l acc
              < (acc + 1) * 256 ^ N.of_nat (List.length l))%N).
  { induction l as [|c l IH]; intros acc.
    - simpl. lia.
    - cbn [fold_left List.length]. specialize (IH (acc * 256 + JS.cc c)%N).
      rewrite Nat2N.inj_succ, N.pow_succ_r'.
      pose proof (N_ascii_bounded c) as Hb. unfold JS.cc in *.
      nia. }
  specialize (H bytes 0%N). lia.
Qed.

Lemma be_value_first6 bytes : (be_value (firstn 6 bytes) < 2 ^ 48)%N.
Proof.
  pose proof (be_value_bound (firstn 6 bytes)) as Hb.
  pose proof (firstn_le_length 6 bytes) as Hl.
  assert (Hp : (256 ^ N.of_nat (List.length (firstn 6 bytes)) <= 256 ^ 6)%N).
  { apply N.pow_le_mono_r; lia. }
  change (2 ^ 48)%N with (256 ^ 6)%N. lia.
Qed.
End CartKey.

Section CartReceipts.
Import Pg Database Webhook.
Variable env : Env.
Variable secret : string.

(** The deduplication key of a carts/abandoned payload: the first six bytes
    of the token read as a 48-bit number, NULL without a token. *)
Definition cart_key (cartData : CartBody) : option Z :=
  match token cartData with
  | Some t =>
      if JS.truthy t
      then Some (Z.of_N (be_value (firstn 6 (list_ascii_of_string t))))
      else None
  | None => None
  end.

Definition cart_receipt (tenant : Tenant) (cartData : CartBody) : ReceiptVals :=
  mkReceiptVals (t_id tenant) "carts/abandoned" (cart_key cartData).

(** The local customer an event is linked to. *)
Definition resolved (d : DB) (tenantId : string) (ref : option Z) : option nat :=
  match ref with
  | Some i =>
      match select_key customer_key (tenantId, i) (customers d) with
      | r :: _ => Some (row_id r)
      | [] => None
      end
  | None => None
  end.

Definition cart_event (d : DB) (tenant : Tenant) (cartData : CartBody) : EventVals :=
  mkEventVals (t_id tenant) (resolved d (t_id tenant) (cart_customer_ref cartData))
              "cart_abandoned" (cart_json cartData) (token cartData).

Lemma cart_external_id_key cartData :
  cart_external_id cartData
  = match token cartData with
    | Some t =>
        if JS.truthy t
        then Some (JS.Dec false (be_value (firstn 6 (list_ascii_of_string t))) 0)
        else None
    | None => None
    end.
Proof.
  unfold cart_external_id. destruct (token cartData) as [t|]; [|reflexivity].
  destruct t as [|c s]; [reflexivity|]. simpl JS.truthy. cbv iota.
  unfold JS.Buffer_from. change 12%nat with (2 * 6)%nat.
  rewrite slice0_toString_hex.
  change (firstn 6 (list_ascii_of_string (String c s)))
    with (c :: firstn 5 (list_ascii_of_string s)).
  rewrite parseInt16_toString_hex. reflexivity.
Qed.

Lemma insert_cart_receipt_key tenant cartData d :
  insert_cart_receipt env (t_id tenant) cartData d
  = insert_receipt env (cart_receipt tenant cartData) d.
Proof.
  unfold insert_cart_receipt, cart_receipt, cart_key. rewrite cart_external_id_key.
  destruct (token cartData) as [t|]; [|reflexivity].
  destruct (JS.truthy t); reflexivity.
Qed.

Lemma lookup_customer_resolved tenantId ref d :
  lookup_customer tenantId ref d = Done (resolved d tenantId ref) d.
Proof. destruct ref as [i|]; reflexivity. Qed.

Lemma handleCartAbandoned_unfold req d tenant :
  verifyWebhook env secret (rawBody req) (hmac_header req) = true ->
  getTenantByDomain (shop_domain_header req) d = Done (Some tenant) d ->
  handleCartAbandoned env secret req d
  = match claim_receipt (insert_receipt env (cart_receipt tenant (body req))) d with
    | Done true d1 => Done (mkResponse 200 (SuccessBody true)) d1
    | Done false d1 =>
        match insert_event env (cart_event d1 tenant (body req)) d1 with
        | Done _ d2 => Done (mkResponse 200 (SuccessBody false)) d2
        | Throw _ d2 => Done (mkResponse 500 (ErrorBody "Internal server error")) d2
        | Diverge => Diverge
        end
    | Throw _ d1 => Done (mkResponse 500 (ErrorBody "Internal server error")) d1
    | Diverge => Diverge
    end.
Proof.
  intros Hsig Hten. unfold handleCartAbandoned, try_catch. rewrite Hsig. simpl.
  unfold bind at 1. rewrite Hten. unfold bind at 1.
  assert (Hc : claim_receipt (insert_cart_receipt env (t_id tenant) (body req)) d
               = claim_receipt (insert_receipt env (cart_receipt tenant (body req))) d).
  { unfold claim_receipt, try_catch, bind. rewrite insert_cart_receipt_key. reflexivity. }
  rewrite Hc.
  destruct (claim_receipt (insert_receipt env (cart_receipt tenant (body req))) d)
    as [[|] d1|e d1|]; try reflexivity.
  unfold bind at 1. rewrite lookup_customer_resolved. unfold bind.
  fold (cart_event d1 tenant (body req)).
  destruct (insert_event env (cart_event d1 tenant (body req)) d1) as [[] d2|e d2|];
    reflexivity.
Qed.

(** What a first, successful delivery leaves behind. *)
Lemma cart_claimed req d tenant d1 :
  verifyWebhook env secret (rawBody req) (hmac_header req) = true ->
  getTenantByDomain (shop_domain_header req) d = Done (Some tenant) d ->
  handleCartAbandoned env secret req d = Done (mkResponse 200 (SuccessBody false)) d1 ->
  pg_check env (InsertReceipt (cart_receipt tenant (body req))) = None /\
  tenants d1 = tenants d /\
  webhook_receipts d1
  = webhook_receipts d ++ [mkRow (next_id d) (now d) (now d) (cart_receipt tenant (body req))] /\
  List.length (custom_events d1) = Datatypes.S (List.length (custom_events d)).
Proof.
  intros Hsig Hten Hrun. rewrite (@handleCartAbandoned_unfold req d tenant Hsig Hten) in Hrun.
  destruct (insert_receipt_cases env (cart_receipt tenant (body req)) d)
    as [(e & _ & Hins)|[(_ & _ & Hins)|(Hacc & _ & Hins)]].
  - destruct (@claim_receipt_thrown _ _ _ _ Hins) as [Hc|Hc]; rewrite Hc in Hrun;
      discriminate Hrun.
  - rewrite (@claim_receipt_duplicate _ _ _ _ Hins eq_refl) in Hrun. discriminate Hrun.
  - rewrite (@claim_receipt_claimed _ _ _ Hins) in Hrun.
    unfold insert_event, checked in Hrun.
    destruct (pg_check env (InsertEvent _)); [discriminate Hrun|].
    simpl in Hrun. inversion Hrun. simpl.
    split; [exact Hacc|]. split; [reflexivity|]. split; [reflexivity|].
    rewrite length_app. simpl. lia.
Qed.
End CartReceipts.

(** C10. For a carts/abandoned delivery with a valid signature and a known
    tenant: (1) the receipt is inserted under [cart_key]: for a non-empty
    token it is the integer that [parseInt(..., 16)] reads from the first 12
    hexadecimal digits of the token's bytes, i.e. its first six bytes as a
    number below 2^48, and it is NULL when the token is absent or empty;
    (2) without a token the delivery is never a duplicate, whatever receipts
    are stored: when the store accepts the two statements it answers 200 and
    appends one custom-event row; (3) after a first delivery was processed,
    a delivery with a different token that has the same first six bytes is
    answered as a duplicate and writes nothing. *)
Theorem C10_cart_dedup_key
    (env : Env) (secret : string) (req req2 : Webhook.Request Webhook.CartBody)
    (d : Pg.DB) (tenant : Pg.Tenant)
    (Hsig : Webhook.verifyWebhook env secret (Webhook.rawBody req) (Webhook.hmac_header req)
            = true)
    (Htenant : Webhook.getTenantByDomain (Webhook.shop_domain_header req) d
               = Done (Some tenant) d) :
  ((forall d0,
       Webhook.insert_cart_receipt env (Pg.t_id tenant) (Webhook.body req) d0
       = Database.insert_receipt env (cart_receipt tenant (Webhook.body req)) d0) /\
   (forall t,
       Webhook.token (Webhook.body req) = Some t -> t <> "" ->
       JS.parseInt16 (JS.slice0 12 (JS.toString_hex (JS.Buffer_from t)))
       = JS.Dec false (be_value (firstn 6 (list_ascii_of_string t))) 0 /\
       cart_key (Webhook.body req)
       = Some (Z.of_N (be_value (firstn 6 (list_ascii_of_string t)))) /\
       0 <= Z.of_N (be_value (firstn 6 (list_ascii_of_string t))) < 2 ^ 48) /\
   (Webhook.present (Webhook.token (Webhook.body req)) = false ->
    cart_key (Webhook.body req) = None)) /\
  (Webhook.present (Webhook.token (Webhook.body req)) = false ->
   pg_check env (Pg.InsertReceipt (cart_receipt tenant (Webhook.body req))) = None ->
   pg_check env (Pg.InsertEvent (cart_event d tenant (Webhook.body req))) = None ->
   exists d1,
     Webhook.handleCartAbandoned env secret req d
     = Done (Webhook.mkResponse 200 (Webhook.SuccessBody false)) d1 /\
     Pg.custom_events d1
     = Pg.custom_events d
       ++ [Pg.mkRow (Datatypes.S (Pg.next_id d)) (Pg.now d) (Pg.now d)
             (cart_event d tenant (Webhook.body req))] /\
     Pg.webhook_receipts d1
     = Pg.webhook_receipts d
       ++ [Pg.mkRow (Pg.next_id d) (Pg.now d) (Pg.now d)
             (Pg.mkReceiptVals (Pg.t_id tenant) "carts/abandoned" None)]) /\
  (forall t1 t2 d1 time,
      Webhook.token (Webhook.body req) = Some t1 ->
      Webhook.token (Webhook.body req2) = Some t2 ->
      t1 <> "" -> t1 <> t2 ->
      firstn 6 (list_ascii_of_string t1) = firstn 6 (list_ascii_of_string t2) ->
      Webhook.verifyWebhook env secret (Webhook.rawBody req2) (Webhook.hmac_header req2)
      = true ->
      Webhook.shop_domain_header req2 = Webhook.shop_domain_header req ->
      Webhook.handleCartAbandoned env secret req d
      = Done (Webhook.mkResponse 200 (Webhook.SuccessBody false)) d1 ->
      Webhook.handleCartAbandoned env secret req2 (Database.at_time time d1)
      = Done (Webhook.mkResponse 200 (Webhook.SuccessBody true)) (Database.at_time time d1)).
Proof.
  split; [split; [|split]|split].
  - intros d0. apply insert_cart_receipt_key.
  - intros t Ht Hne.
    assert (Htruthy : JS.truthy t = true) by (destruct t; [contradiction | reflexivity]).
    split; [|split].
    + pose proof (cart_external_id_key (Webhook.body req)) as Hk.
      unfold Webhook.cart_external_id in Hk. rewrite Ht, Htruthy in Hk.
      congruence.
    + unfold cart_key. rewrite Ht, Htruthy. reflexivity.
    + pose proof (be_value_first6 (list_ascii_of_string t)) as Hb.
      change (2 ^ 48) with (Z.of_N (2 ^ 48)). lia.
  - intros Hno. unfold cart_key. unfold Webhook.present in Hno.
    destruct (Webhook.token (Webhook.body req)) as [t|]; [rewrite Hno|]; reflexivity.
  - intros Hno Hacc1 Hacc2.
    assert (Hkey : cart_key (Webhook.body req) = None).
    { unfold cart_key. unfold Webhook.present in Hno.
      destruct (Webhook.token (Webhook.body req)) as [t|]; [rewrite Hno|]; reflexivity. }
    assert (Hfree : existsb (Database.receipt_conflict (cart_receipt tenant (Webhook.body req)))
                            (Pg.webhook_receipts d) = false).
    { apply receipt_conflict_null. exact Hkey. }
    assert (Hins : Database.insert_receipt env (cart_receipt tenant (Webhook.body req)) d
                   = Done tt (Database.bump
                                (Database.with_webhook_receipts
                                   (Pg.webhook_receipts d
                                    ++ [Pg.mkRow (Pg.next_id d) (Pg.now d) (Pg.now d)
                                          (cart_receipt tenant (Webhook.body req))])
                                   d))).
    { unfold Database.insert_receipt, Database.checked. rewrite Hacc1, Hfree. reflexivity. }
    eexists. split; [|split].
    + rewrite (@handleCartAbandoned_unfold env secret req d tenant Hsig Htenant).
      rewrite (@claim_receipt_claimed _ _ _ Hins).
      unfold Database.insert_event, Database.checked.
      change (cart_event (Database.bump
                            (Database.with_webhook_receipts
                               (Pg.webhook_receipts d
                                ++ [Pg.mkRow (Pg.next_id d) (Pg.now d) (Pg.now d)
                                      (cart_receipt tenant (Webhook.body req))])
                               d))
                         tenant (Webhook.body req))
        with (cart_event d tenant (Webhook.body req)).
      rewrite Hacc2. reflexivity.
    + reflexivity.
    + simpl. unfold cart_receipt. rewrite Hkey. reflexivity.
  - intros t1 t2 d1 time Ht1 Ht2 Hne Hdiff Hprefix Hsig2 Hdom Hfirst.
    destruct (@cart_claimed env secret req d tenant d1 Hsig Htenant Hfirst)
      as (Hacc & Hten1 & Hrec & _).
    assert (Htruthy1 : JS.truthy t1 = true) by (destruct t1; [contradiction | reflexivity]).
    assert (Htruthy2 : JS.truthy t2 = true).
    { destruct t2 as [|c2 s2]; [|reflexivity]. destruct t1; [contradiction | discriminate]. }
    assert (Hsame : cart_receipt tenant (Webhook.body req2) = cart_receipt tenant (Webhook.body req)).
    { unfold cart_receipt, cart_key. rewrite Ht1, Ht2, Htruthy1, Htruthy2, Hprefix. reflexivity. }
    assert (Hten2 : Webhook.getTenantByDomain (Webhook.shop_domain_header req2)
                      (Database.at_time time d1)
                    = Done (Some tenant) (Database.at_time time d1)).
    { rewrite Hdom. apply (@getTenantByDomain_frame _ d _ _ Htenant). exact Hten1. }
    rewrite (@handleCartAbandoned_unfold env secret req2 (Database.at_time time d1) tenant
               Hsig2 Hten2).
    rewrite Hsame.
    assert (Hdup : Database.insert_receipt env (cart_receipt tenant (Webhook.body req))
                     (Database.at_time time d1)
                   = Throw Pg.unique_violation (Database.at_time time d1)).
    { unfold Database.insert_receipt, Database.checked. rewrite Hacc.
      replace (existsb (Database.receipt_conflict (cart_receipt tenant (Webhook.body req)))
                       (Pg.webhook_receipts (Database.at_time time d1))) with true;
        [reflexivity|].
      symmetry. change (Pg.webhook_receipts (Database.at_time time d1))
                  with (Pg.webhook_receipts d1).
      rewrite Hrec, existsb_app. simpl.
      rewrite (@receipt_conflict_self (cart_receipt tenant (Webhook.body req))
                 (Pg.next_id d) (Pg.now d) (Pg.now d)
                 (Z.of_N (be_value (firstn 6 (list_ascii_of_string t1))))).
      - rewrite orb_true_r. reflexivity.
      - unfold cart_receipt, cart_key. simpl. rewrite Ht1, Htruthy1. reflexivity. }
    rewrite (@claim_receipt_duplicate _ _ _ _ Hdup eq_refl). reflexivity.
Qed.

Definition cart_hook (tok : option string) : Webhook.Request Webhook.CartBody :=
  Webhook.mkRequest (Some "shop.myshopify.com") (Some "whsec{}")
    (list_ascii_of_string "{}") (Webhook.mkCartBody tok None "{}").

Definition db_after_cart : Pg.DB :=
  match Webhook.handleCartAbandoned Scenario.env0 "whsec" (cart_hook (Some "abcdef-1"))
                                    Scenario.db1 with
  | Done _ d' => d'
  | Throw _ d' => d'
  | Diverge => Scenario.db1
  end.

Lemma db_after_cart_receipt :
  map (fun r => Pg.r_external_id (Pg.vals r)) (Pg.webhook_receipts db_after_cart)
  = [Some 107075202213222] /\
  List.length (Pg.custom_events db_after_cart) = 1%nat.
Proof. vm_compute. split; reflexivity. Qed.

Lemma C10_cart_dedup_key_witness :
  Webhook.verifyWebhook Scenario.env0 "whsec"
    (Webhook.rawBody (cart_hook (Some "abcdef-1")))
    (Webhook.hmac_header (cart_hook (Some "abcdef-1"))) = true /\
  Webhook.getTenantByDomain (Webhook.shop_domain_header (cart_hook (Some "abcdef-1")))
                            Scenario.db1
  = Done (Some Scenario.tenant1) Scenario.db1 /\
  Webhook.handleCartAbandoned Scenario.env0 "whsec" (cart_hook (Some "abcdef-2"))
                              (Database.at_time 500 db_after_cart)
  = Done (Webhook.mkResponse 200 (Webhook.SuccessBody true))
         (Database.at_time 500 db_after_cart).
Proof.
  assert (H1 : Webhook.verifyWebhook Scenario.env0 "whsec"
                 (Webhook.rawBody (cart_hook (Some "abcdef-1")))
                 (Webhook.hmac_header (cart_hook (Some "abcdef-1"))) = true)
    by (vm_compute; reflexivity).
  assert (H2 : Webhook.getTenantByDomain
                 (Webhook.shop_domain_header (cart_hook (Some "abcdef-1"))) Scenario.db1
               = Done (Some Scenario.tenant1) Scenario.db1) by (vm_compute; reflexivity).
  split; [exact H1|]. split; [exact H2|].
  apply (proj2 (proj2 (@C10_cart_dedup_key Scenario.env0 "whsec"
                         (cart_hook (Some "abcdef-1")) (cart_hook (Some "abcdef-2"))
                         Scenario.db1 Scenario.tenant1 H1 H2))
               "abcdef-1" "abcdef-2" db_after_cart 500);
    try discriminate; vm_compute; reflexivity.
Defined.

(* ================================================================== *)
(** ** Writing the same values twice *)
(* ================================================================== *)

Unset Implicit Arguments.

Section Idempotence.
Import Pg.
Variable V : Type.
Variable key : V -> Key.
Variable merge : V -> V -> V.
Variable touch : bool.
Hypothesis merge_key : forall old new, key (merge old new) = key old.
Hypothesis merge_merge : forall old a b, merge (merge old a) b = merge old b.
Hypothesis merge_self : forall v, merge v v = v.

(** One upsert of a sequence: the time, the identifier on offer, the values. *)
Definition Step := (Z * nat * V)%type.

Definition apply_steps (steps : list Step) (t : Table V) : Table V :=
  fold_left (fun t s => upsert key merge touch (fst (fst s)) (snd (fst s)) (snd s) t)
            steps t.

(** What DO UPDATE does to the content of a row. *)
Definition cupdate (x : V) (c : nat * Z * V) : nat * Z * V :=
  if key_eqb (key x) (key (snd c)) then (fst c, merge (snd c) x) else c.

(** The last values of a sequence that fall under a key. *)
Fixpoint last_with (k : Key) (xs : list V) : option V :=
  match xs with
  | [] => None
  | x :: xs' =>
      match last_with k xs' with
      | Some z => Some z
      | None => if key_eqb (key x) k then Some x else None
      end
  end.

Lemma count_key_cons k r t :
  count_key key k (r :: t)
  = ((if has_key key k r then 1 else 0) + count_key key k t)%nat.
Proof. unfold count_key, select_key. simpl. destruct (has_key key k r); reflexivity. Qed.

Lemma unique_tail r t : unique key (r :: t) -> unique key t.
Proof. intros Hu k. specialize (Hu k). rewrite count_key_cons in Hu. lia. Qed.

Lemma count_zero_no_match k t :
  count_key key k t = 0%nat -> forall r, In r t -> has_key key k r = false.
Proof.
  induction t as [|r0 t IH]; intros Hc r Hin; [contradiction|].
  rewrite count_key_cons in Hc.
  destruct (has_key key k r0) eqn:H0; [lia|].
  destruct Hin as [<-|Hin]; [exact H0 | apply IH; [lia | exact Hin]].
Qed.

Lemma cupdate_other x (r : Row V) :
  has_key key (key x) r = false -> cupdate x (content r) = content r.
Proof. intros H. unfold cupdate, content. simpl. unfold has_key in H. rewrite H. reflexivity. Qed.

(** On a table that satisfies the constraint and has the key, the upsert is
    the update of the rows under the key. *)
Lemma upsert_present now fresh x t :
  unique key t -> (1 <= count_key key (key x) t)%nat ->
  map (@content V) (upsert key merge touch now fresh x t)
  = map (cupdate x) (map (@content V) t).
Proof.
  induction t as [|r t IH]; intros Hu Hc.
  - unfold count_key in Hc. simpl in Hc. lia.
  - simpl. destruct (has_key key (key x) r) eqn:Hr.
    + simpl. f_equal.
      * unfold cupdate, content, on_conflict. simpl. unfold has_key in Hr. rewrite Hr.
        reflexivity.
      * pose proof (Hu (key x)) as Hk. rewrite count_key_cons, Hr in Hk.
        assert (Hz : count_key key (key x) t = 0%nat) by lia.
        rewrite map_map. apply map_ext_in. intros r' Hin.
        symmetry. apply cupdate_other. apply (count_zero_no_match (key x) t Hz r' Hin).
    + simpl. f_equal.
      * symmetry. apply cupdate_other. exact Hr.
      * apply IH; [apply (unique_tail r t Hu)|]. rewrite count_key_cons, Hr in Hc. exact Hc.
Qed.

Lemma unique_apply steps : forall t, unique key t -> unique key (apply_steps steps t).
Proof.
  induction steps as [|s steps IH]; intros t Hu; simpl; [exact Hu|].
  apply IH. apply unique_upsert; assumption.
Qed.

Lemma count_apply_mono steps : forall t k,
  (count_key key k t <= count_key key k (apply_steps steps t))%nat.
Proof.
  induction steps as [|s steps IH]; intros t k; simpl; [lia|].
  eapply Nat.le_trans; [|apply IH].
  rewrite (count_key_upsert key merge touch merge_key).
  destruct (key_eqb k (key (snd s))); lia.
Qed.

(** Every key of a sequence is in the table once the sequence is applied. *)
Lemma present_apply steps : forall t s,
  In s steps -> (1 <= count_key key (key (snd s)) (apply_steps steps t))%nat.
Proof.
  induction steps as [|s0 steps IH]; intros t s Hin; [contradiction|]. simpl.
  destruct Hin as [<-|Hin]; [|apply IH; exact Hin].
  eapply Nat.le_trans; [|apply count_apply_mono].
  rewrite (count_key_upsert key merge touch merge_key), key_eqb_refl. lia.
Qed.

Lemma apply_present steps : forall t,
  unique key t ->
  (forall s, In s steps -> (1 <= count_key key (key (snd s)) t)%nat) ->
  map (@content V) (apply_steps steps t)
  = fold_left (fun L x => map (cupdate x) L) (map snd steps) (map (@content V) t).
Proof.
  induction steps as [|s steps IH]; intros t Hu Hp; simpl; [reflexivity|].
  rewrite IH.
  - rewrite upsert_present; [reflexivity | exact Hu | apply Hp; left; reflexivity].
  - apply unique_upsert; assumption.
  - intros s' Hin. eapply Nat.le_trans; [apply Hp; right; exact Hin|].
    rewrite (count_key_upsert key merge touch merge_key).
    destruct (key_eqb (key (snd s')) (key (snd s))); lia.
Qed.

Lemma fold_map_cupdate xs : forall L,
  fold_left (fun L x => map (cupdate x) L) xs L
  = map (fun c => fold_left (fun c x => cupdate x c) xs c) L.
Proof.
  induction xs as [|x xs IH]; intros L; simpl.
  - symmetry. apply map_id.
  - rewrite IH, map_map. reflexivity.
Qed.

Lemma cupdate_key x c : key (snd (cupdate x c)) = key (snd c).
Proof.
  unfold cupdate. destruct (key_eqb (key x) (key (snd c))); [simpl; apply merge_key | reflexivity].
Qed.

(** A row that went through a sequence of updates only shows the last one
    under its key. *)
Lemma fold_cupdate xs : forall c,
  fold_left (fun c x => cupdate x c) xs c
  = match last_with (key (snd c)) xs with
    | Some z => (fst c, merge (snd c) z)
    | None => c
    end.
Proof.
  induction xs as [|x xs IH]; intros c; simpl; [reflexivity|].
  rewrite IH, cupdate_key.
  destruct (last_with (key (snd c)) xs) as [z|].
  - unfold cupdate. destruct (key_eqb (key x) (key (snd c))); [|reflexivity].
    simpl. rewrite merge_merge. reflexivity.
  - unfold cupdate. destruct (key_eqb (key x) (key (snd c))); reflexivity.
Qed.

Lemma last_with_app k ys x :
  last_with k (ys ++ [x]) = if key_eqb (key x) k then Some x else last_with k ys.
Proof.
  induction ys as [|y ys IH]; simpl.
  - reflexivity.
  - rewrite IH. destruct (key_eqb (key x) k); [reflexivity|].
    destruct (last_with k ys); reflexivity.
Qed.

(** The rows of a table after an upsert. *)
Lemma upsert_rows now fresh x t r :
  unique key t ->
  In r (upsert key merge touch now fresh x t) ->
  (exists r0, In r0 t /\ has_key key (key x) r0 = true
              /\ r = on_conflict merge touch now x r0)
  \/ r = mkRow fresh now now x
  \/ (In r t /\ has_key key (key x) r = false).
Proof.
  induction t as [|r1 t IH]; intros Hu Hin; simpl in Hin.
  - destruct Hin as [<-|[]]. right. left. reflexivity.
  - destruct (has_key key (key x) r1) eqn:H1.
    + destruct Hin as [<-|Hin].
      * left. exists r1. split; [left; reflexivity | auto].
      * right. right. split; [right; exact Hin|].
        pose proof (Hu (key x)) as Hk. rewrite count_key_cons, H1 in Hk.
        apply (count_zero_no_match (key x) t); [lia | exact Hin].
    + destruct Hin as [<-|Hin].
      * right. right. split; [left; reflexivity | exact H1].
      * destruct (IH (unique_tail r1 t Hu) Hin) as [(r0 & Hr0 & Hk & Hr)|[Hr|[Hr Hk]]].
        -- left. exists r0. split; [right; exact Hr0 | auto].
        -- right. left. exact Hr.
        -- right. right. split; [right; exact Hr | exact Hk].
Qed.

Lemma apply_steps_app a b t :
  apply_steps (a ++ b) t = apply_steps b (apply_steps a t).
Proof. unfold apply_steps. apply fold_left_app. Qed.

(** After a sequence, every row already holds the last values written under
    its key. *)
Lemma settled steps : forall t,
  unique key t ->
  forall r z,
    In r (apply_steps steps t) ->
    last_with (key (vals r)) (map snd steps) = Some z ->
    merge (vals r) z = vals r.
Proof.
  induction steps as [|s steps IH] using rev_ind; intros t Hu r z Hin Hl.
  - discriminate Hl.
  - rewrite apply_steps_app in Hin. simpl in Hin.
    rewrite map_app in Hl. simpl in Hl. rewrite last_with_app in Hl.
    destruct (upsert_rows _ _ _ _ _ (unique_apply steps t Hu) Hin)
      as [(r0 & Hr0 & Hk & Hr)|[Hr|[Hr Hk]]].
    + subst r. unfold on_conflict in *. simpl in *.
      rewrite merge_key in Hl. unfold has_key in Hk. rewrite Hk in Hl.
      inversion Hl; subst z. apply merge_merge.
    + subst r. simpl in *. rewrite key_eqb_refl in Hl. inversion Hl; subst z.
      apply merge_self.
    + unfold has_key in Hk. rewrite Hk in Hl. apply (IH t Hu r z Hr Hl).
Qed.

(** Writing a sequence of values and then the same values again leaves the
    table as it was after the first time, but for [updated_at]. *)
Theorem apply_steps_again steps1 steps2 t :
  unique key t ->
  map snd steps2 = map snd steps1 ->
  map (@content V) (apply_steps steps2 (apply_steps steps1 t))
  = map (@content V) (apply_steps steps1 t).
Proof.
  intros Hu Hsame.
  rewrite apply_present.
  - rewrite fold_map_cupdate, map_map. apply map_ext_in. intros r Hin.
    rewrite fold_cupdate. simpl.
    destruct (last_with (key (vals r)) (map snd steps2)) as [z|] eqn:Hl; [|reflexivity].
    rewrite Hsame in Hl. rewrite (settled steps1 t Hu r z Hin Hl). reflexivity.
  - apply unique_apply. exact Hu.
  - intros s Hin.
    assert (Hv : In (snd s) (map snd steps1)) by (rewrite <- Hsame; apply in_map; exact Hin).
    apply in_map_iff in Hv. destruct Hv as (s1 & Hs1 & Hin1).
    rewrite <- Hs1. apply present_apply. exact Hin1.
Qed.

(** Each key of the sequence then has exactly one row. *)
Lemma apply_steps_exactly_one steps t s :
  unique key t -> In s steps ->
  count_key key (key (snd s)) (apply_steps steps t) = 1%nat.
Proof.
  intros Hu Hin.
  pose proof (unique_apply steps t Hu (key (snd s))) as Hle.
  pose proof (present_apply steps t s Hin) as Hge. lia.
Qed.
End Idempotence.

Set Implicit Arguments.

(* ================================================================== *)
(** ** The upsert writer on the same record twice *)
(* ================================================================== *)

Section WriterTwice.
Import Pg Database Shopify Ingestion.
Variable env : Env.

(** The values the writer binds for each kind of row. *)
Definition customer_vals (tenantId : string) (c : ShopifyCustomer) : CustomerVals :=
  mkCustomerVals tenantId (id c) (email c) (first_name c) (last_name c) (phone c)
    (JS.parseFloat (total_spent c)) (orders_count c) (created_at c) (updated_at c).

Definition product_vals (tenantId : string) (p : ShopifyProduct) : ProductVals :=
  mkProductVals tenantId (product_id p) (title p) (body_html p) (vendor p)
    (product_type p) (handle p) (tags p) (product_status p) (product_created_at p)
    (product_updated_at p) (published_at p).

Definition variant_vals (tenantId : string) (productId : nat) (v : ShopifyVariant)
  : VariantVals :=
  mkVariantVals tenantId productId (variant_id v) (variant_title v)
    (JS.parseFloat (variant_price v)) (variant_sku v) (inventory_quantity v) (weight v)
    (variant_created_at v) (variant_updated_at v).

Definition order_vals (tenantId : string) (customerId : option nat) (o : ShopifyOrder)
  : OrderVals :=
  mkOrderVals tenantId customerId (order_id o) (order_number o)
    (JS.parseFloat (total_price o)) (JS.parseFloat (subtotal_price o))
    (JS.parseFloat (total_tax o)) (currency o) (financial_status o)
    (fulfillment_status o) (shipping_address o) (billing_address o)
    (order_created_at o) (order_updated_at o).

Definition line_item_vals (tenantId : string) (orderId : nat) (li : ShopifyLineItem)
  : LineItemVals :=
  mkLineItemVals tenantId orderId (line_item_id li) (quantity li)
    (JS.parseFloat (line_price li)) (line_title li) (line_variant_title li) (line_sku li).

(** The uniqueness constraints of the five entity tables. *)
Definition constrained (d : DB) : Prop :=
  unique customer_key (customers d) /\
  unique product_key (products d) /\
  unique variant_key (product_variants d) /\
  unique order_key (orders d) /\
  unique line_item_key (order_line_items d).

(** The entity tables hold the same rows, but for [updated_at]. *)
Definition same_rows (d1 d2 : DB) : Prop :=
  map (@content _) (customers d2) = map (@content _) (customers d1) /\
  map (@content _) (products d2) = map (@content _) (products d1) /\
  map (@content _) (product_variants d2) = map (@content _) (product_variants d1) /\
  map (@content _) (orders d2) = map (@content _) (orders d1) /\
  map (@content _) (order_line_items d2) = map (@content _) (order_line_items d1).

(** The loop over the variants of a product. *)
Lemma write_variants_spec tenantId productId vs : forall d,
  match for_of vs (write_variant env tenantId productId) d with
  | Done _ d' =>
      Forall (fun v => pg_check env (UpsertVariant (variant_vals tenantId productId v)) = None)
             vs /\
      exists steps,
        map snd steps = map (variant_vals tenantId productId) vs /\
        product_variants d'
        = apply_steps VariantVals variant_key variant_merge true steps (product_variants d) /\
        customers d' = customers d /\ products d' = products d /\
        orders d' = orders d /\ order_line_items d' = order_line_items d /\
        now d' = now d
  | Throw _ _ =>
      Exists (fun v => pg_check env (UpsertVariant (variant_vals tenantId productId v)) <> None)
             vs
  | Diverge => False
  end.
Proof.
  induction vs as [|v vs IH]; intros d; simpl.
  - split; [constructor|]. exists []. repeat split; reflexivity.
  - unfold bind, write_variant, upsert_variant, checked.
    fold (variant_vals tenantId productId v).
    destruct (pg_check env (UpsertVariant (variant_vals tenantId productId v))) as [e|] eqn:Hc.
    + constructor. rewrite Hc. discriminate.
    + unfold modify.
      match goal with
      | |- match for_of vs _ ?D with _ => _ end => specialize (IH D); destruct (for_of vs _ D)
      end.
      * destruct IH as (Hall & steps & Hs & Hv & H1 & H2 & H3 & H4 & H5).
        split; [constructor; assumption|].
        exists ((now d, next_id d, variant_vals tenantId productId v) :: steps).
        simpl. rewrite Hs, Hv. repeat split; assumption.
      * apply Exists_cons_tl. exact IH.
      * exact IH.
Qed.

(** The loop over the line items of an order. *)
Lemma write_line_items_spec tenantId orderId lis : forall d,
  match for_of lis (write_line_item env tenantId orderId) d with
  | Done _ d' =>
      Forall (fun li => pg_check env (UpsertLineItem (line_item_vals tenantId orderId li)) = None)
             lis /\
      exists steps,
        map snd steps = map (line_item_vals tenantId orderId) lis /\
        order_line_items d'
        = apply_steps LineItemVals line_item_key line_item_merge false steps (order_line_items d) /\
        customers d' = customers d /\ products d' = products d /\
        product_variants d' = product_variants d /\ orders d' = orders d /\
        now d' = now d
  | Throw _ _ =>
      Exists (fun li => pg_check env (UpsertLineItem (line_item_vals tenantId orderId li)) <> None)
             lis
  | Diverge => False
  end.
Proof.
  induction lis as [|li lis IH]; intros d; simpl.
  - split; [constructor|]. exists []. repeat split; reflexivity.
  - unfold bind, write_line_item, upsert_line_item, checked.
    fold (line_item_vals tenantId orderId li).
    destruct (pg_check env (UpsertLineItem (line_item_vals tenantId orderId li))) as [e|] eqn:Hc.
    + constructor. rewrite Hc. discriminate.
    + unfold modify.
      match goal with
      | |- match for_of lis _ ?D with _ => _ end => specialize (IH D); destruct (for_of lis _ D)
      end.
      * destruct IH as (Hall & steps & Hs & Hv & H1 & H2 & H3 & H4 & H5).
        split; [constructor; assumption|].
        exists ((now d, next_id d, line_item_vals tenantId orderId li) :: steps).
        simpl. rewrite Hs, Hv. repeat split; assumption.
      * apply Exists_cons_tl. exact IH.
      * exact IH.
Qed.

(** RETURNING id gives the same identifier the second time. *)
Lemma returning_id_upsert {V} (key : V -> Key) merge touch
    (merge_key : forall old new, key (merge old new) = key old)
    now fresh fresh2 (v : V) t :
  returning_id key fresh2 v (upsert key merge touch now fresh v t)
  = returning_id key fresh v t.
Proof.
  unfold returning_id, select_key. induction t as [|r t IH]; simpl.
  - unfold has_key at 1. simpl. rewrite key_eqb_refl. reflexivity.
  - destruct (has_key key (key v) r) eqn:Hr; simpl.
    + rewrite has_key_on_conflict by exact merge_key. rewrite Hr. reflexivity.
    + rewrite Hr. exact IH.
Qed.
End WriterTwice.

Unset Implicit Arguments.

Section WrittenTwice.
Import Pg Database Shopify Ingestion.
Variable env : Env.

Lemma unique_at_time t d : constrained d -> constrained (at_time t d).
Proof. exact (fun H => H). Qed.

(** *** Customers *)

Lemma write_customer_twice tenantId c d d1 time :
  constrained d ->
  write_customer env tenantId c d = Done tt d1 ->
  exists d2,
    write_customer env tenantId c (at_time time d1) = Done tt d2 /\
    same_rows d1 d2 /\
    count_key customer_key (tenantId, id c) (customers d2) = 1%nat.
Proof.
  intros (Hc & _) Hrun. unfold write_customer, upsert_customer, checked in *.
  fold (customer_vals tenantId c) in *.
  destruct (pg_check env (UpsertCustomer (customer_vals tenantId c))); [discriminate Hrun|].
  unfold modify in *. inversion Hrun as [Hd1]. clear Hrun.
  eexists. split; [reflexivity|]. split.
  - unfold same_rows. simpl. repeat split; try reflexivity.
    apply (upsert_again customer_key customer_merge true customer_merge_key
             customer_merge_merge customer_merge_self).
  - simpl.
    apply (upsert_exactly_one customer_merge true customer_merge_key time
             (Datatypes.S (next_id d)) (customer_vals tenantId c)).
    apply (unique_upsert customer_merge true customer_merge_key). exact Hc.
Qed.

(** *** Products and their variants *)

Lemma write_product_done tenantId p d d1 :
  write_product env tenantId p d = Done tt d1 ->
  pg_check env (UpsertProduct (product_vals tenantId p)) = None /\
  Forall (fun v =>
            pg_check env
              (UpsertVariant
                 (variant_vals tenantId
                    (returning_id product_key (next_id d) (product_vals tenantId p)
                                  (products d)) v)) = None)
         (variants p) /\
  exists steps,
    map snd steps
    = map (variant_vals tenantId
             (returning_id product_key (next_id d) (product_vals tenantId p) (products d)))
          (variants p) /\
    products d1
    = upsert product_key product_merge true (now d) (next_id d) (product_vals tenantId p)
             (products d) /\
    product_variants d1
    = apply_steps VariantVals variant_key variant_merge true steps (product_variants d) /\
    customers d1 = customers d /\ orders d1 = orders d /\
    order_line_items d1 = order_line_items d /\ now d1 = now d.
Proof.
  unfold write_product, bind, upsert_product, checked.
  fold (product_vals tenantId p).
  destruct (pg_check env (UpsertProduct (product_vals tenantId p))); [discriminate|].
  intros Hrun. split; [reflexivity|].
  match type of Hrun with
  | for_of _ _ ?D = _ =>
      pose proof (write_variants_spec env tenantId
                    (returning_id product_key (next_id d) (product_vals tenantId p)
                                  (products d))
                    (variants p) D) as Hv
  end.
  rewrite Hrun in Hv. destruct Hv as (Hall & steps & Hs & Hvar & H1 & H2 & H3 & H4 & H5).
  split; [exact Hall|]. exists steps. simpl in *. repeat split; assumption.
Qed.

Lemma write_product_accepted tenantId p d :
  pg_check env (UpsertProduct (product_vals tenantId p)) = None ->
  Forall (fun v =>
            pg_check env
              (UpsertVariant
                 (variant_vals tenantId
                    (returning_id product_key (next_id d) (product_vals tenantId p)
                                  (products d)) v)) = None)
         (variants p) ->
  exists d1, write_product env tenantId p d = Done tt d1.
Proof.
  intros Hp Hall. unfold write_product, bind, upsert_product, checked.
  fold (product_vals tenantId p). rewrite Hp.
  match goal with
  | |- exists d1, for_of _ _ ?D = _ =>
      pose proof (write_variants_spec env tenantId
                    (returning_id product_key (next_id d) (product_vals tenantId p)
                                  (products d))
                    (variants p) D) as Hv;
      destruct (for_of (variants p)
                  (write_variant env tenantId
                     (returning_id product_key (next_id d) (product_vals tenantId p)
                                   (products d))) D) as [[] d1|e d1|]
  end.
  - exists d1. reflexivity.
  - exfalso. apply Exists_exists in Hv. destruct Hv as (v & Hin & Hrej).
    rewrite Forall_forall in Hall. exact (Hrej (Hall v Hin)).
  - contradiction.
Qed.

Lemma write_product_twice tenantId p d d1 time :
  constrained d ->
  write_product env tenantId p d = Done tt d1 ->
  exists d2,
    write_product env tenantId p (at_time time d1) = Done tt d2 /\
    same_rows d1 d2 /\
    count_key product_key (tenantId, product_id p) (products d2) = 1%nat /\
    forall v, In v (variants p) ->
              count_key variant_key (tenantId, variant_id v) (product_variants d2) = 1%nat.
Proof.
  intros (_ & Hup & Huv & _) Hrun.
  destruct (write_product_done tenantId p d d1 Hrun)
    as (Hp & Hall & steps1 & Hs1 & Hprod & Hvar & Hc & Ho & Hl & Hn).
  assert (Hpid : returning_id product_key (next_id (at_time time d1))
                              (product_vals tenantId p) (products (at_time time d1))
                 = returning_id product_key (next_id d) (product_vals tenantId p) (products d)).
  { change (products (at_time time d1)) with (products d1). rewrite Hprod.
    apply (returning_id_upsert product_key product_merge true product_merge_key). }
  destruct (write_product_accepted tenantId p (at_time time d1)) as [d2 Hrun2].
  { exact Hp. }
  { rewrite Hpid. exact Hall. }
  exists d2. split; [exact Hrun2|].
  destruct (write_product_done tenantId p (at_time time d1) d2 Hrun2)
    as (_ & _ & steps2 & Hs2 & Hprod2 & Hvar2 & Hc2 & Ho2 & Hl2 & Hn2).
  rewrite Hpid in Hs2. simpl in *.
  assert (Hu1 : unique product_key (products d1)).
  { rewrite Hprod. apply (unique_upsert product_merge true product_merge_key). exact Hup. }
  split; [|split].
  - unfold same_rows. rewrite Hc2, Ho2, Hl2, Hprod2, Hvar2, Hvar, Hprod.
    repeat split; try reflexivity.
    + apply (upsert_again product_key product_merge true product_merge_key
               product_merge_merge product_merge_self).
    + apply (apply_steps_again VariantVals variant_key variant_merge true variant_merge_key
               variant_merge_merge variant_merge_self steps1 steps2 (product_variants d) Huv).
      rewrite Hs1, Hs2. reflexivity.
  - rewrite Hprod2.
    apply (upsert_exactly_one product_merge true product_merge_key time (next_id d1)
             (product_vals tenantId p) Hu1).
  - intros v Hin. rewrite Hvar2.
    assert (Hs : In (variant_vals tenantId
                       (returning_id product_key (next_id d) (product_vals tenantId p)
                                     (products d)) v)
                    (map snd steps2)).
    { rewrite Hs2. apply in_map. exact Hin. }
    apply in_map_iff in Hs. destruct Hs as (s & Hsv & Hsin).
    pose proof (apply_steps_exactly_one VariantVals variant_key variant_merge true
                  variant_merge_key steps2 (product_variants d1) s) as Hone.
    rewrite Hsv in Hone. apply Hone; [|exact Hsin].
    rewrite Hvar. apply (unique_apply VariantVals variant_key variant_merge true
                           variant_merge_key steps1 (product_variants d) Huv).
Qed.
End WrittenTwice.

Section OrdersTwice.
Import Pg Database Shopify Ingestion.
Variable env : Env.

(** The local customer an order is linked to. *)
Definition order_customer (d : DB) (tenantId : string) (o : ShopifyOrder) : option nat :=
  match customer o with
  | Some cust =>
      match select_key customer_key (tenantId, id cust) (customers d) with
      | r :: _ => Some (row_id r)
      | [] => None
      end
  | None => None
  end.

Lemma resolve_customer_order tenantId o d :
  resolve_customer tenantId (customer o) d = Done (order_customer d tenantId o) d.
Proof. unfold resolve_customer, order_customer. destruct (customer o); reflexivity. Qed.

Lemma write_order_done tenantId o d d1 :
  write_order env tenantId o d = Done tt d1 ->
  pg_check env (UpsertOrder (order_vals tenantId (order_customer d tenantId o) o)) = None /\
  Forall (fun li =>
            pg_check env
              (UpsertLineItem
                 (line_item_vals tenantId
                    (returning_id order_key (next_id d)
                       (order_vals tenantId (order_customer d tenantId o) o) (orders d))
                    li)) = None)
         (line_items o) /\
  exists steps,
    map snd steps
    = map (line_item_vals tenantId
             (returning_id order_key (next_id d)
                (order_vals tenantId (order_customer d tenantId o) o) (orders d)))
          (line_items o) /\
    orders d1
    = upsert order_key order_merge true (now d) (next_id d)
             (order_vals tenantId (order_customer d tenantId o) o) (orders d) /\
    order_line_items d1
    = apply_steps LineItemVals line_item_key line_item_merge false steps
                  (order_line_items d) /\
    customers d1 = customers d /\ products d1 = products d /\
    product_variants d1 = product_variants d /\ now d1 = now d.
Proof.
  unfold write_order. unfold bind at 1. rewrite resolve_customer_order.
  unfold bind, upsert_order, checked.
  fold (order_vals tenantId (order_customer d tenantId o) o).
  destruct (pg_check env (UpsertOrder (order_vals tenantId (order_customer d tenantId o) o)));
    [discriminate|].
  intros Hrun. split; [reflexivity|].
  match type of Hrun with
  | for_of _ _ ?D = _ =>
      pose proof (write_line_items_spec env tenantId
                    (returning_id order_key (next_id d)
                       (order_vals tenantId (order_customer d tenantId o) o) (orders d))
                    (line_items o) D) as Hv
  end.
  rewrite Hrun in Hv. destruct Hv as (Hall & steps & Hs & Hli & H1 & H2 & H3 & H4 & H5).
  split; [exact Hall|]. exists steps. simpl in *. repeat split; assumption.
Qed.

Lemma write_order_accepted tenantId o d :
  pg_check env (UpsertOrder (order_vals tenantId (order_customer d tenantId o) o)) = None ->
  Forall (fun li =>
            pg_check env
              (UpsertLineItem
                 (line_item_vals tenantId
                    (returning_id order_key (next_id d)
                       (order_vals tenantId (order_customer d tenantId o) o) (orders d))
                    li)) = None)
         (line_items o) ->
  exists d1, write_order env tenantId o d = Done tt d1.
Proof.
  intros Hp Hall. unfold write_order. unfold bind at 1. rewrite resolve_customer_order.
  unfold bind, upsert_order, checked.
  fold (order_vals tenantId (order_customer d tenantId o) o). rewrite Hp.
  match goal with
  | |- exists d1, for_of _ _ ?D = _ =>
      pose proof (write_line_items_spec env tenantId
                    (returning_id order_key (next_id d)
                       (order_vals tenantId (order_customer d tenantId o) o) (orders d))
                    (line_items o) D) as Hv;
      destruct (for_of (line_items o)
                  (write_line_item env tenantId
                     (returning_id order_key (next_id d)
                        (order_vals tenantId (order_customer d tenantId o) o) (orders d)))
                  D) as [[] d1|e d1|]
  end.
  - exists d1. reflexivity.
  - exfalso. apply Exists_exists in Hv. destruct Hv as (v & Hin & Hrej).
    rewrite Forall_forall in Hall. exact (Hrej (Hall v Hin)).
  - contradiction.
Qed.

Lemma write_order_twice tenantId o d d1 time :
  constrained d ->
  write_order env tenantId o d = Done tt d1 ->
  exists d2,
    write_order env tenantId o (at_time time d1) = Done tt d2 /\
    same_rows d1 d2 /\
    count_key order_key (tenantId, order_id o) (orders d2) = 1%nat /\
    forall li, In li (line_items o) ->
               count_key line_item_key (tenantId, line_item_id li) (order_line_items d2)
               = 1%nat.
Proof.
  intros (_ & _ & _ & Huo & Hul) Hrun.
  destruct (write_order_done tenantId o d d1 Hrun)
    as (Hp & Hall & steps1 & Hs1 & Hord & Hli & Hc & Hpr & Hpv & Hn).
  assert (Hcust : order_customer (at_time time d1) tenantId o = order_customer d tenantId o).
  { unfold order_customer. change (customers (at_time time d1)) with (customers d1).
    rewrite Hc. reflexivity. }
  assert (Hoid : returning_id order_key (next_id (at_time time d1))
                   (order_vals tenantId (order_customer (at_time time d1) tenantId o) o)
                   (orders (at_time time d1))
                 = returning_id order_key (next_id d)
                     (order_vals tenantId (order_customer d tenantId o) o) (orders d)).
  { rewrite Hcust. change (orders (at_time time d1)) with (orders d1). rewrite Hord.
    apply (returning_id_upsert order_key order_merge true order_merge_key). }
  destruct (write_order_accepted tenantId o (at_time time d1)) as [d2 Hrun2].
  { rewrite Hcust. exact Hp. }
  { rewrite Hoid. exact Hall. }
  exists d2. split; [exact Hrun2|].
  destruct (write_order_done tenantId o (at_time time d1) d2 Hrun2)
    as (_ & _ & steps2 & Hs2 & Hord2 & Hli2 & Hc2 & Hpr2 & Hpv2 & Hn2).
  rewrite Hoid in Hs2. rewrite Hcust in Hord2. simpl in *.
  assert (Hu1 : unique order_key (orders d1)).
  { rewrite Hord. apply (unique_upsert order_merge true order_merge_key). exact Huo. }
  split; [|split].
  - unfold same_rows. rewrite Hc2, Hpr2, Hpv2, Hord2, Hli2, Hli, Hord.
    repeat split; try reflexivity.
    + apply (upsert_again order_key order_merge true order_merge_key
               order_merge_merge order_merge_self).
    + apply (apply_steps_again LineItemVals line_item_key line_item_merge false
               line_item_merge_key line_item_merge_merge line_item_merge_self
               steps1 steps2 (order_line_items d) Hul).
      rewrite Hs1, Hs2. reflexivity.
  - rewrite Hord2.
    apply (upsert_exactly_one order_merge true order_merge_key time (next_id d1)
             (order_vals tenantId (order_customer d tenantId o) o) Hu1).
  - intros li Hin. rewrite Hli2.
    assert (Hs : In (line_item_vals tenantId
                       (returning_id order_key (next_id d)
                          (order_vals tenantId (order_customer d tenantId o) o) (orders d))
                       li)
                    (map snd steps2)).
    { rewrite Hs2. apply in_map. exact Hin. }
    apply in_map_iff in Hs. destruct Hs as (s & Hsv & Hsin).
    pose proof (apply_steps_exactly_one LineItemVals line_item_key line_item_merge false
                  line_item_merge_key steps2 (order_line_items d1) s) as Hone.
    rewrite Hsv in Hone. apply Hone; [|exact Hsin].
    rewrite Hli. apply (unique_apply LineItemVals line_item_key line_item_merge false
                          line_item_merge_key steps1 (order_line_items d) Hul).
Qed.
End OrdersTwice.

(* ================================================================== *)
(** ** Numeric fields that do not parse *)
(* ================================================================== *)

Section NumericFields.
Import Pg Database Shopify Ingestion.
Variable env : Env.

Lemma or_zero_absent x : Webhook.present x = false -> Webhook.or_zero x = "0".
Proof.
  destruct x as [s|]; simpl; [|reflexivity].
  unfold JS.or_else. intros ->. reflexivity.
Qed.

Lemma or_zero_present s : JS.truthy s = true -> Webhook.or_zero (Some s) = s.
Proof. intros H. simpl. unfold JS.or_else. rewrite H. reflexivity. Qed.

Lemma write_customer_accepted tenantId c d :
  pg_check env (UpsertCustomer (customer_vals tenantId c)) = None ->
  write_customer env tenantId c d
  = Done tt
      (bump (with_customers
               (upsert customer_key customer_merge true (now d) (next_id d)
                       (customer_vals tenantId c) (customers d))
               d)).
Proof.
  intros Hacc. unfold write_customer, upsert_customer, checked.
  fold (customer_vals tenantId c). rewrite Hacc. reflexivity.
Qed.

Lemma write_variant_accepted tenantId productId v d :
  pg_check env (UpsertVariant (variant_vals tenantId productId v)) = None ->
  write_variant env tenantId productId v d
  = Done tt
      (bump (with_product_variants
               (upsert variant_key variant_merge true (now d) (next_id d)
                       (variant_vals tenantId productId v) (product_variants d))
               d)).
Proof.
  intros Hacc. unfold write_variant, upsert_variant, checked.
  fold (variant_vals tenantId productId v). rewrite Hacc. reflexivity.
Qed.

Lemma write_line_item_accepted tenantId orderId li d :
  pg_check env (UpsertLineItem (line_item_vals tenantId orderId li)) = None ->
  write_line_item env tenantId orderId li d
  = Done tt
      (bump (with_order_line_items
               (upsert line_item_key line_item_merge false (now d) (next_id d)
                       (line_item_vals tenantId orderId li) (order_line_items d))
               d)).
Proof.
  intros Hacc. unfold write_line_item, upsert_line_item, checked.
  fold (line_item_vals tenantId orderId li). rewrite Hacc. reflexivity.
Qed.

(** The row under the key of [v] after its upsert holds the columns of the
    SET list as [v] has them. *)
Lemma upserted_customer now fresh v t :
  exists r,
    In r (upsert customer_key customer_merge true now fresh v t) /\
    customer_key (vals r) = customer_key v /\
    c_total_spent (vals r) = c_total_spent v.
Proof.
  destruct (upsert_row customer_key customer_merge true customer_merge_key now fresh v t)
    as (r & Hin & Hk & Hv).
  exists r. split; [exact Hin|]. split; [exact Hk|].
  destruct Hv as [Hv|(old & _ & Hv)]; rewrite Hv; reflexivity.
Qed.

Lemma upserted_variant now fresh v t :
  exists r,
    In r (upsert variant_key variant_merge true now fresh v t) /\
    variant_key (vals r) = variant_key v /\
    v_price (vals r) = v_price v.
Proof.
  destruct (upsert_row variant_key variant_merge true variant_merge_key now fresh v t)
    as (r & Hin & Hk & Hv).
  exists r. split; [exact Hin|]. split; [exact Hk|].
  destruct Hv as [Hv|(old & _ & Hv)]; rewrite Hv; reflexivity.
Qed.

Lemma upserted_line_item now fresh v t :
  exists r,
    In r (upsert line_item_key line_item_merge false now fresh v t) /\
    line_item_key (vals r) = line_item_key v /\
    l_price (vals r) = l_price v.
Proof.
  destruct (upsert_row line_item_key line_item_merge false line_item_merge_key now fresh v t)
    as (r & Hin & Hk & Hv).
  exists r. split; [exact Hin|]. split; [exact Hk|].
  destruct Hv as [Hv|(old & _ & Hv)]; rewrite Hv; reflexivity.
Qed.

Lemma upserted_order now fresh v t :
  exists r,
    In r (upsert order_key order_merge true now fresh v t) /\
    order_key (vals r) = order_key v /\
    o_total_price (vals r) = o_total_price v /\
    o_subtotal_price (vals r) = o_subtotal_price v /\
    o_total_tax (vals r) = o_total_tax v.
Proof.
  destruct (upsert_row order_key order_merge true order_merge_key now fresh v t)
    as (r & Hin & Hk & Hv).
  exists r. split; [exact Hin|]. split; [exact Hk|].
  destruct Hv as [Hv|(old & _ & Hv)]; rewrite Hv; repeat split.
Qed.

(** A first delivery of customers/update that the store accepts. *)
Lemma customer_update_accepted secret req d tenant cid :
  Webhook.verifyWebhook env secret (Webhook.rawBody req) (Webhook.hmac_header req) = true ->
  Webhook.getTenantByDomain (Webhook.shop_domain_header req) d = Done (Some tenant) d ->
  Webhook.cb_id (Webhook.body req) = Some cid ->
  existsb (receipt_conflict (customer_receipt tenant (Webhook.body req)))
          (webhook_receipts d) = false ->
  pg_check env (InsertReceipt (customer_receipt tenant (Webhook.body req))) = None ->
  pg_check env (UpsertCustomer (hook_customer_vals tenant cid (Webhook.body req))) = None ->
  Webhook.handleCustomerUpdate env secret req d
  = Done (Webhook.mkResponse 200 (Webhook.SuccessBody false))
         (bump
            (with_customers
               (upsert customer_key customer_merge true (now d) (Datatypes.S (next_id d))
                       (hook_customer_vals tenant cid (Webhook.body req)) (customers d))
               (bump
                  (with_webhook_receipts
                     (webhook_receipts d
                      ++ [mkRow (next_id d) (now d) (now d)
                                (customer_receipt tenant (Webhook.body req))])
                     d)))).
Proof.
  intros Hsig Hten Hid Hnew Hacc1 Hacc2.
  rewrite (@handleCustomerUpdate_unfold env secret req d tenant Hsig Hten).
  assert (Hins : insert_receipt env (customer_receipt tenant (Webhook.body req)) d
                 = Done tt (bump
                              (with_webhook_receipts
                                 (webhook_receipts d
                                  ++ [mkRow (next_id d) (now d) (now d)
                                            (customer_receipt tenant (Webhook.body req))])
                                 d))).
  { unfold insert_receipt, checked. rewrite Hacc1, Hnew. reflexivity. }
  rewrite (@claim_receipt_claimed _ _ _ Hins), Hid.
  unfold upsert_customer, checked. rewrite Hacc2. reflexivity.
Qed.
End NumericFields.

(** C3 (as the code has it). Every numeric field (the total_spent of a
    customer, the price of a variant and of a line item, the three totals of
    an order) is converted with parseFloat, which raises no error: for a
    source string without a decimal prefix it returns NaN, and the Upsert
    Writer binds that NaN to the statement as it is.  So the write of the
    record goes through whenever the store accepts the bound values, and the
    row of the record then holds NaN in that column (not zero, and no error
    is raised); a product or an order as a whole is written as well.  On the
    webhook path (customers/update) a total_spent that is absent or empty is
    replaced by '0' before parsing: the delivery is answered 200 and the row
    holds zero; one that is not empty and does not parse is stored as NaN,
    with the same 200. *)
Theorem C3_parse_failure_raises_no_error (env : Env) (tenantId : string) (d : Pg.DB) :
  (forall c,
      JS.parseFloat (Shopify.total_spent c) = JS.NaN ->
      pg_check env (Pg.UpsertCustomer (customer_vals tenantId c)) = None ->
      exists d' r,
        Ingestion.write_customer env tenantId c d = Done tt d' /\
        In r (Pg.customers d') /\
        Pg.customer_key (Pg.vals r) = (tenantId, Shopify.id c) /\
        Pg.c_total_spent (Pg.vals r) = JS.NaN) /\
  (forall productId v,
      JS.parseFloat (Shopify.variant_price v) = JS.NaN ->
      pg_check env (Pg.UpsertVariant (variant_vals tenantId productId v)) = None ->
      exists d' r,
        Ingestion.write_variant env tenantId productId v d = Done tt d' /\
        In r (Pg.product_variants d') /\
        Pg.variant_key (Pg.vals r) = (tenantId, Shopify.variant_id v) /\
        Pg.v_price (Pg.vals r) = JS.NaN) /\
  (forall p,
      pg_check env (Pg.UpsertProduct (product_vals tenantId p)) = None ->
      Forall (fun v =>
                pg_check env
                  (Pg.UpsertVariant
                     (variant_vals tenantId
                        (Pg.returning_id Pg.product_key (Pg.next_id d)
                           (product_vals tenantId p) (Pg.products d)) v)) = None)
             (Shopify.variants p) ->
      exists d', Ingestion.write_product env tenantId p d = Done tt d') /\
  (forall orderId li,
      JS.parseFloat (Shopify.line_price li) = JS.NaN ->
      pg_check env (Pg.UpsertLineItem (line_item_vals tenantId orderId li)) = None ->
      exists d' r,
        Ingestion.write_line_item env tenantId orderId li d = Done tt d' /\
        In r (Pg.order_line_items d') /\
        Pg.line_item_key (Pg.vals r) = (tenantId, Shopify.line_item_id li) /\
        Pg.l_price (Pg.vals r) = JS.NaN) /\
  (forall o,
      pg_check env (Pg.UpsertOrder (order_vals tenantId (order_customer d tenantId o) o))
      = None ->
      Forall (fun li =>
                pg_check env
                  (Pg.UpsertLineItem
                     (line_item_vals tenantId
                        (Pg.returning_id Pg.order_key (Pg.next_id d)
                           (order_vals tenantId (order_customer d tenantId o) o)
                           (Pg.orders d))
                        li)) = None)
             (Shopify.line_items o) ->
      exists d' r,
        Ingestion.write_order env tenantId o d = Done tt d' /\
        In r (Pg.orders d') /\
        Pg.order_key (Pg.vals r) = (tenantId, Shopify.order_id o) /\
        (JS.parseFloat (Shopify.total_price o) = JS.NaN ->
         Pg.o_total_price (Pg.vals r) = JS.NaN) /\
        (JS.parseFloat (Shopify.subtotal_price o) = JS.NaN ->
         Pg.o_subtotal_price (Pg.vals r) = JS.NaN) /\
        (JS.parseFloat (Shopify.total_tax o) = JS.NaN ->
         Pg.o_total_tax (Pg.vals r) = JS.NaN)) /\
  (forall secret req tenant cid,
      Webhook.verifyWebhook env secret (Webhook.rawBody req) (Webhook.hmac_header req) = true ->
      Webhook.getTenantByDomain (Webhook.shop_domain_header req) d = Done (Some tenant) d ->
      Webhook.cb_id (Webhook.body req) = Some cid ->
      existsb (Database.receipt_conflict (customer_receipt tenant (Webhook.body req)))
              (Pg.webhook_receipts d) = false ->
      pg_check env (Pg.InsertReceipt (customer_receipt tenant (Webhook.body req))) = None ->
      pg_check env (Pg.UpsertCustomer (hook_customer_vals tenant cid (Webhook.body req)))
      = None ->
      exists d' r,
        Webhook.handleCustomerUpdate env secret req d
        = Done (Webhook.mkResponse 200 (Webhook.SuccessBody false)) d' /\
        In r (Pg.customers d') /\
        Pg.customer_key (Pg.vals r) = (Pg.t_id tenant, cid) /\
        (Webhook.present (Webhook.cb_total_spent (Webhook.body req)) = false ->
         Pg.c_total_spent (Pg.vals r) = JS.Dec false 0 0) /\
        (forall s,
            Webhook.cb_total_spent (Webhook.body req) = Some s ->
            JS.truthy s = true ->
            JS.parseFloat s = JS.NaN ->
            Pg.c_total_spent (Pg.vals r) = JS.NaN)).
Proof.
  split; [|split; [|split; [|split; [|split]]]].
  - intros c Hnan Hacc. rewrite (write_customer_accepted env tenantId c d Hacc).
    destruct (upserted_customer (Pg.now d) (Pg.next_id d) (customer_vals tenantId c)
                (Pg.customers d)) as (r & Hin & Hk & Hv).
    eexists. exists r. split; [reflexivity|]. split; [exact Hin|]. split; [exact Hk|].
    rewrite Hv. exact Hnan.
  - intros productId v Hnan Hacc.
    rewrite (write_variant_accepted env tenantId productId v d Hacc).
    destruct (upserted_variant (Pg.now d) (Pg.next_id d) (variant_vals tenantId productId v)
                (Pg.product_variants d)) as (r & Hin & Hk & Hv).
    eexists. exists r. split; [reflexivity|]. split; [exact Hin|]. split; [exact Hk|].
    rewrite Hv. exact Hnan.
  - intros p Hp Hvs. exact (write_product_accepted env tenantId p d Hp Hvs).
  - intros orderId li Hnan Hacc.
    rewrite (write_line_item_accepted env tenantId orderId li d Hacc).
    destruct (upserted_line_item (Pg.now d) (Pg.next_id d)
                (line_item_vals tenantId orderId li) (Pg.order_line_items d))
      as (r & Hin & Hk & Hv).
    eexists. exists r. split; [reflexivity|]. split; [exact Hin|]. split; [exact Hk|].
    rewrite Hv. exact Hnan.
  - intros o Ho Hlis.
    destruct (write_order_accepted env tenantId o d Ho Hlis) as [d1 Hrun].
    destruct (write_order_done env tenantId o d d1 Hrun) as (_ & _ & steps & _ & Hord & _).
    destruct (upserted_order (Pg.now d) (Pg.next_id d)
                (order_vals tenantId (order_customer d tenantId o) o) (Pg.orders d))
      as (r & Hin & Hk & H1 & H2 & H3).
    exists d1, r. split; [exact Hrun|]. split; [rewrite Hord; exact Hin|].
    split; [exact Hk|]. rewrite H1, H2, H3. repeat split; intros H; exact H.
  - intros secret req tenant cid Hsig Hten Hid Hnew Hacc1 Hacc2.
    rewrite (customer_update_accepted env secret req d tenant cid Hsig Hten Hid Hnew Hacc1 Hacc2).
    destruct (upserted_customer (Pg.now d) (Datatypes.S (Pg.next_id d))
                (hook_customer_vals tenant cid (Webhook.body req)) (Pg.customers d))
      as (r & Hin & Hk & Hv).
    eexists. exists r. split; [reflexivity|]. split; [exact Hin|]. split; [exact Hk|].
    rewrite Hv. simpl. split.
    + intros Habs. rewrite (or_zero_absent _ Habs). reflexivity.
    + intros s Hs Ht Hnan. rewrite Hs, (or_zero_present s Ht). exact Hnan.
Qed.

(** A customer, a variant, a line item and an order whose numeric strings do
    not parse, and deliveries of customers/update without and with an
    unparsable total_spent. *)
Definition customer_nan : Shopify.ShopifyCustomer :=
  Shopify.mkCustomer 7 "b@example.com" "B" "B" "" "1000" "2000" "n/a" 0.

Definition variant_nan : Shopify.ShopifyVariant :=
  Shopify.mkVariant 11 "S" "" "SH-S" 3 100 "1000" "2000".

Definition product_nan : Shopify.ShopifyProduct :=
  Shopify.mkProduct 900 "Shirt" "" "Acme" "apparel" "1000" "2000" "1500" "shirt" "" "active"
    [variant_nan].

Definition line_item_nan : Shopify.ShopifyLineItem :=
  Shopify.mkLineItem 1 2 "free" "Widget" "Blue" "W-1".

Definition order_nan : Shopify.ShopifyOrder :=
  Shopify.mkOrder 5001 1001 None [line_item_nan] "n/a" "" "-" "EUR" "paid" "" "1000" "2000"
    "" "".

Lemma C3_parse_failure_raises_no_error_witness :
  (exists d' r,
      Ingestion.write_customer Scenario.env0 "t1" customer_nan Scenario.db1 = Done tt d' /\
      In r (Pg.customers d') /\
      Pg.customer_key (Pg.vals r) = ("t1", 7) /\
      Pg.c_total_spent (Pg.vals r) = JS.NaN) /\
  (exists d' r,
      Ingestion.write_variant Scenario.env0 "t1" 4 variant_nan Scenario.db1 = Done tt d' /\
      In r (Pg.product_variants d') /\
      Pg.variant_key (Pg.vals r) = ("t1", 11) /\
      Pg.v_price (Pg.vals r) = JS.NaN) /\
  (exists d', Ingestion.write_product Scenario.env0 "t1" product_nan Scenario.db1 = Done tt d') /\
  (exists d' r,
      Ingestion.write_line_item Scenario.env0 "t1" 4 line_item_nan Scenario.db1 = Done tt d' /\
      In r (Pg.order_line_items d') /\
      Pg.line_item_key (Pg.vals r) = ("t1", 1) /\
      Pg.l_price (Pg.vals r) = JS.NaN) /\
  (exists d' r,
      Ingestion.write_order Scenario.env0 "t1" order_nan Scenario.db1 = Done tt d' /\
      In r (Pg.orders d') /\
      Pg.order_key (Pg.vals r) = ("t1", 5001) /\
      Pg.o_total_price (Pg.vals r) = JS.NaN /\
      Pg.o_subtotal_price (Pg.vals r) = JS.NaN /\
      Pg.o_total_tax (Pg.vals r) = JS.NaN) /\
  (exists d' r,
      Webhook.handleCustomerUpdate Scenario.env0 "whsec" (customer_hook None) Scenario.db1
      = Done (Webhook.mkResponse 200 (Webhook.SuccessBody false)) d' /\
      In r (Pg.customers d') /\
      Pg.customer_key (Pg.vals r) = ("t1", 101) /\
      Pg.c_total_spent (Pg.vals r) = JS.Dec false 0 0) /\
  (exists d' r,
      Webhook.handleCustomerUpdate Scenario.env0 "whsec" (customer_hook (Some "n/a"))
                                   Scenario.db1
      = Done (Webhook.mkResponse 200 (Webhook.SuccessBody false)) d' /\
      In r (Pg.customers d') /\
      Pg.customer_key (Pg.vals r) = ("t1", 101) /\
      Pg.c_total_spent (Pg.vals r) = JS.NaN).
Proof.
  destruct (C3_parse_failure_raises_no_error Scenario.env0 "t1" Scenario.db1)
    as (Hc & Hv & Hp & Hl & Ho & Hw).
  split; [|split; [|split; [|split; [|split; [|split]]]]].
  - exact (Hc customer_nan eq_refl eq_refl).
  - exact (Hv 4%nat variant_nan eq_refl eq_refl).
  - apply (Hp product_nan eq_refl). repeat constructor.
  - exact (Hl 4%nat line_item_nan eq_refl eq_refl).
  - assert (Hlis : Forall (fun li =>
                     pg_check Scenario.env0
                       (Pg.UpsertLineItem
                          (line_item_vals "t1"
                             (Pg.returning_id Pg.order_key (Pg.next_id Scenario.db1)
                                (order_vals "t1" (order_customer Scenario.db1 "t1" order_nan)
                                            order_nan)
                                (Pg.orders Scenario.db1))
                             li)) = None)
                    (Shopify.line_items order_nan)) by (repeat constructor).
    destruct (Ho order_nan eq_refl Hlis) as (d' & r & Hrun & Hin & Hk & H1 & H2 & H3).
    exists d', r. split; [exact Hrun|]. split; [exact Hin|]. split; [exact Hk|].
    split; [exact (H1 eq_refl)|]. split; [exact (H2 eq_refl) | exact (H3 eq_refl)].
  - destruct (Hw "whsec" (customer_hook None) Scenario.tenant1 101
                eq_refl eq_refl eq_refl eq_refl eq_refl eq_refl)
      as (d' & r & Hrun & Hin & Hk & Hzero & _).
    exists d', r. split; [exact Hrun|]. split; [exact Hin|]. split; [exact Hk|].
    exact (Hzero eq_refl).
  - destruct (Hw "whsec" (customer_hook (Some "n/a")) Scenario.tenant1 101
                eq_refl eq_refl eq_refl eq_refl eq_refl eq_refl)
      as (d' & r & Hrun & Hin & Hk & _ & Hnan).
    exists d', r. split; [exact Hrun|]. split; [exact Hin|]. split; [exact Hk|].
    exact (Hnan "n/a" eq_refl eq_refl eq_refl).
Defined.

(** C8. On a store that satisfies its uniqueness constraints, when the
    upsert writer has written an external record (a customer, a product with
    its variants, an order with its line items) for a tenant, writing the
    same record again at any later time succeeds as well, leaves every
    entity table with the same rows (same identifiers, same column values,
    no row added; only the bookkeeping [updated_at] is refreshed) and leaves
    exactly one row for the (tenant, external-id) pair of the record and of
    each of its children. *)
Theorem C8_same_record_twice_one_row
    (env : Env) (tenantId : string) (d : Pg.DB) (time : Z)
    (Hconstraints : constrained d) :
  (forall c d1,
      Ingestion.write_customer env tenantId c d = Done tt d1 ->
      exists d2,
        Ingestion.write_customer env tenantId c (Database.at_time time d1) = Done tt d2 /\
        same_rows d1 d2 /\
        Pg.count_key Pg.customer_key (tenantId, Shopify.id c) (Pg.customers d2) = 1%nat) /\
  (forall p d1,
      Ingestion.write_product env tenantId p d = Done tt d1 ->
      exists d2,
        Ingestion.write_product env tenantId p (Database.at_time time d1) = Done tt d2 /\
        same_rows d1 d2 /\
        Pg.count_key Pg.product_key (tenantId, Shopify.product_id p) (Pg.products d2) = 1%nat /\
        forall v, In v (Shopify.variants p) ->
                  Pg.count_key Pg.variant_key (tenantId, Shopify.variant_id v)
                               (Pg.product_variants d2) = 1%nat) /\
  (forall o d1,
      Ingestion.write_order env tenantId o d = Done tt d1 ->
      exists d2,
        Ingestion.write_order env tenantId o (Database.at_time time d1) = Done tt d2 /\
        same_rows d1 d2 /\
        Pg.count_key Pg.order_key (tenantId, Shopify.order_id o) (Pg.orders d2) = 1%nat /\
        forall li, In li (Shopify.line_items o) ->
                   Pg.count_key Pg.line_item_key (tenantId, Shopify.line_item_id li)
                                (Pg.order_line_items d2) = 1%nat).
Proof.
  split; [|split].
  - intros c d1 Hrun. exact (write_customer_twice env tenantId c d d1 time Hconstraints Hrun).
  - intros p d1 Hrun. exact (write_product_twice env tenantId p d d1 time Hconstraints Hrun).
  - intros o d1 Hrun. exact (write_order_twice env tenantId o d d1 time Hconstraints Hrun).
Qed.

Lemma C8_same_record_twice_one_row_witness :
  constrained Scenario.db1 /\
  exists d1 d2,
    Ingestion.write_customer Scenario.env0 "t1" (Scenario.alice "7000") Scenario.db1
    = Done tt d1 /\
    Ingestion.write_customer Scenario.env0 "t1" (Scenario.alice "7000")
                             (Database.at_time 500 d1) = Done tt d2 /\
    same_rows d1 d2 /\
    Pg.count_key Pg.customer_key ("t1", 101) (Pg.customers d2) = 1%nat.
Proof.
  assert (H : constrained Scenario.db1).
  { unfold constrained, Pg.unique, Pg.count_key. simpl. repeat split; intros k; lia. }
  split; [exact H|].
  eexists.
  destruct (proj1 (C8_same_record_twice_one_row Scenario.env0 "t1" Scenario.db1 500 H)
                  (Scenario.alice "7000") _ eq_refl) as (d2 & Hrun & Hsame & Hone).
  exists d2. split; [reflexivity|]. split; [exact Hrun|]. split; [exact Hsame | exact Hone].
Defined.

Section ConstraintsKept.
Import Pg Database Shopify Ingestion.
Variable env : Env.

(** The writer keeps the uniqueness constraints. *)
Lemma writer_keeps_constraints tenantId d :
  constrained d ->
  (forall c d1, write_customer env tenantId c d = Done tt d1 -> constrained d1) /\
  (forall p d1, write_product env tenantId p d = Done tt d1 -> constrained d1) /\
  (forall o d1, write_order env tenantId o d = Done tt d1 -> constrained d1).
Proof.
  intros (Hc & Hp & Hv & Ho & Hl). split; [|split].
  - intros c d1 Hrun. unfold write_customer, upsert_customer, checked in Hrun.
    destruct (pg_check env _); [discriminate Hrun|]. inversion Hrun. unfold constrained. simpl.
    repeat split; try assumption.
    apply (unique_upsert customer_merge true customer_merge_key). exact Hc.
  - intros p d1 Hrun.
    destruct (write_product_done env tenantId p d d1 Hrun)
      as (_ & _ & steps & _ & Hprod & Hvar & Hc1 & Ho1 & Hl1 & _).
    unfold constrained. rewrite Hprod, Hvar, Hc1, Ho1, Hl1.
    repeat split; try assumption.
    + apply (unique_upsert product_merge true product_merge_key). exact Hp.
    + apply (unique_apply VariantVals variant_key variant_merge true variant_merge_key
               steps (product_variants d) Hv).
  - intros o d1 Hrun.
    destruct (write_order_done env tenantId o d d1 Hrun)
      as (_ & _ & steps & _ & Hord & Hli & Hc1 & Hp1 & Hv1 & _).
    unfold constrained. rewrite Hord, Hli, Hc1, Hp1, Hv1.
    repeat split; try assumption.
    + apply (unique_upsert order_merge true order_merge_key). exact Ho.
    + apply (unique_apply LineItemVals line_item_key line_item_merge false
               line_item_merge_key steps (order_line_items d) Hl).
Qed.
End ConstraintsKept.

(* ================================================================== *)
(** ** The checkouts/create handler *)
(* ================================================================== *)

Section CheckoutReceipts.
Import Pg Database Webhook.
Variable env : Env.
Variable secret : string.

(** The receipt and the event of a checkouts/create delivery. *)
Definition checkout_receipt (tenant : Tenant) (checkoutData : CheckoutBody) : ReceiptVals :=
  mkReceiptVals (t_id tenant) "checkouts/create" (checkout_id checkoutData).

Definition checkout_event (d : DB) (tenant : Tenant) (checkoutData : CheckoutBody)
  : EventVals :=
  mkEventVals (t_id tenant) (resolved d (t_id tenant) (checkout_customer_ref checkoutData))
              "checkout_started" (checkout_json checkoutData) (cart_token checkoutData).

Lemma handleCheckoutStarted_unfold req d tenant :
  verifyWebhook env secret (rawBody req) (hmac_header req) = true ->
  getTenantByDomain (shop_domain_header req) d = Done (Some tenant) d ->
  handleCheckoutStarted env secret req d
  = match claim_receipt (insert_receipt env (checkout_receipt tenant (body req))) d with
    | Done true d1 => Done (mkResponse 200 (SuccessBody true)) d1
    | Done false d1 =>
        match insert_event env (checkout_event d1 tenant (body req)) d1 with
        | Done _ d2 => Done (mkResponse 200 (SuccessBody false)) d2
        | Throw _ d2 => Done (mkResponse 500 (ErrorBody "Internal server error")) d2
        | Diverge => Diverge
        end
    | Throw _ d1 => Done (mkResponse 500 (ErrorBody "Internal server error")) d1
    | Diverge => Diverge
    end.
Proof.
  intros Hsig Hten. unfold handleCheckoutStarted, try_catch. rewrite Hsig. simpl.
  unfold bind at 1. rewrite Hten. unfold bind at 1.
  fold (checkout_receipt tenant (body req)).
  destruct (claim_receipt (insert_receipt env (checkout_receipt tenant (body req))) d)
    as [[|] d1|e d1|]; try reflexivity.
  unfold bind at 1. rewrite lookup_customer_resolved. unfold bind.
  fold (checkout_event d1 tenant (body req)).
  destruct (insert_event env (checkout_event d1 tenant (body req)) d1) as [[] d2|e d2|];
    reflexivity.
Qed.

(** A receipt of the same tenant, topic and event id is stored. *)
Definition claimed (d : DB) (v : ReceiptVals) : Prop :=
  exists r n,
    In r (webhook_receipts d) /\
    r_tenant_id (vals r) = r_tenant_id v /\
    r_topic (vals r) = r_topic v /\
    r_external_id (vals r) = Some n /\
    r_external_id v = Some n.

Lemma receipt_conflict_claimed v rows :
  existsb (receipt_conflict v) rows = true <->
  exists r n,
    In r rows /\
    r_tenant_id (vals r) = r_tenant_id v /\
    r_topic (vals r) = r_topic v /\
    r_external_id (vals r) = Some n /\
    r_external_id v = Some n.
Proof.
  rewrite existsb_exists. split.
  - intros (r & Hin & Hc). unfold receipt_conflict in Hc.
    apply andb_true_iff in Hc. destruct Hc as [Hc Hid].
    apply andb_true_iff in Hc. destruct Hc as [Ht Hp].
    apply String.eqb_eq in Ht. apply String.eqb_eq in Hp.
    destruct (r_external_id (vals r)) as [a|] eqn:Ha; [|discriminate].
    destruct (r_external_id v) as [b|] eqn:Hb; [|discriminate].
    apply Z.eqb_eq in Hid. subst b.
    exists r, a. auto.
  - intros (r & n & Hin & Ht & Hp & Ha & Hb). exists r. split; [exact Hin|].
    unfold receipt_conflict. rewrite Ht, Hp, Ha, Hb, !String.eqb_refl, Z.eqb_refl.
    reflexivity.
Qed.
End CheckoutReceipts.

(** X1. A checkouts/create delivery with a valid signature and a known
    tenant, on a store that accepts the two statements: (1) it is answered
    200 as a duplicate, and nothing is written, exactly when a receipt with
    the same tenant, the topic checkouts/create and the same event id is
    stored; receipts of other tenants, other topics or other ids do not
    count, and a delivery without an id is never a duplicate; (2) otherwise
    it is answered 200, the receipt is stored and one custom event of type
    checkout_started is appended, linked to the local customer if there is
    one and carrying the cart token; (3) when the delivery has an id, the
    same delivery at any later time is answered as a duplicate and writes
    nothing. *)
Theorem X1_checkout_dedup
    (env : Env) (secret : string) (req : Webhook.Request Webhook.CheckoutBody)
    (d : Pg.DB) (tenant : Pg.Tenant)
    (Hsig : Webhook.verifyWebhook env secret (Webhook.rawBody req) (Webhook.hmac_header req)
            = true)
    (Htenant : Webhook.getTenantByDomain (Webhook.shop_domain_header req) d
               = Done (Some tenant) d)
    (Hacc1 : pg_check env (Pg.InsertReceipt (checkout_receipt tenant (Webhook.body req)))
             = None)
    (Hacc2 : pg_check env (Pg.InsertEvent (checkout_event d tenant (Webhook.body req)))
             = None) :
  (claimed d (checkout_receipt tenant (Webhook.body req)) ->
   Webhook.handleCheckoutStarted env secret req d
   = Done (Webhook.mkResponse 200 (Webhook.SuccessBody true)) d) /\
  (Webhook.checkout_id (Webhook.body req) = None ->
   ~ claimed d (checkout_receipt tenant (Webhook.body req))) /\
  (~ claimed d (checkout_receipt tenant (Webhook.body req)) ->
   exists d1,
     d1 = Database.bump
            (Database.with_custom_events
               (Pg.custom_events d
                ++ [Pg.mkRow (Datatypes.S (Pg.next_id d)) (Pg.now d) (Pg.now d)
                      (checkout_event d tenant (Webhook.body req))])
               (Database.bump
                  (Database.with_webhook_receipts
                     (Pg.webhook_receipts d
                      ++ [Pg.mkRow (Pg.next_id d) (Pg.now d) (Pg.now d)
                            (checkout_receipt tenant (Webhook.body req))])
                     d))) /\
     Webhook.handleCheckoutStarted env secret req d
     = Done (Webhook.mkResponse 200 (Webhook.SuccessBody false)) d1 /\
     forall n time,
       Webhook.checkout_id (Webhook.body req) = Some n ->
       Webhook.handleCheckoutStarted env secret req (Database.at_time time d1)
       = Done (Webhook.mkResponse 200 (Webhook.SuccessBody true)) (Database.at_time time d1)).
Proof.
  pose proof (handleCheckoutStarted_unfold env secret req d tenant Hsig Htenant) as Hun.
  split; [|split].
  - intros Hcl.
    apply (proj2 (receipt_conflict_claimed _ _)) in Hcl.
    assert (Hins : Database.insert_receipt env (checkout_receipt tenant (Webhook.body req)) d
                   = Throw Pg.unique_violation d).
    { unfold Database.insert_receipt, Database.checked. rewrite Hacc1, Hcl. reflexivity. }
    rewrite Hun, (@claim_receipt_duplicate _ _ _ _ Hins eq_refl). reflexivity.
  - intros Hnone (r & n & _ & _ & _ & _ & Hid). simpl in Hid. congruence.
  - intros Hfree.
    assert (Hnew : existsb (Database.receipt_conflict
                              (checkout_receipt tenant (Webhook.body req)))
                           (Pg.webhook_receipts d) = false).
    { destruct (existsb _ _) eqn:Hx; [|reflexivity].
      exfalso. apply Hfree. apply (proj1 (receipt_conflict_claimed _ _)). exact Hx. }
    assert (Hins : Database.insert_receipt env (checkout_receipt tenant (Webhook.body req)) d
                   = Done tt (Database.bump
                                (Database.with_webhook_receipts
                                   (Pg.webhook_receipts d
                                    ++ [Pg.mkRow (Pg.next_id d) (Pg.now d) (Pg.now d)
                                          (checkout_receipt tenant (Webhook.body req))])
                                   d))).
    { unfold Database.insert_receipt, Database.checked. rewrite Hacc1, Hnew. reflexivity. }
    eexists. split; [reflexivity|]. split.
    + rewrite Hun, (@claim_receipt_claimed _ _ _ Hins).
      unfold Database.insert_event, Database.checked.
      change (checkout_event
                (Database.bump
                   (Database.with_webhook_receipts
                      (Pg.webhook_receipts d
                       ++ [Pg.mkRow (Pg.next_id d) (Pg.now d) (Pg.now d)
                             (checkout_receipt tenant (Webhook.body req))])
                      d))
                tenant (Webhook.body req))
        with (checkout_event d tenant (Webhook.body req)).
      rewrite Hacc2. reflexivity.
    + intros n time Hid.
      match goal with
      | |- Webhook.handleCheckoutStarted _ _ _ (Database.at_time time ?D) = _ => set (d1 := D)
      end.
      assert (Hten1 : Webhook.getTenantByDomain (Webhook.shop_domain_header req)
                        (Database.at_time time d1)
                      = Done (Some tenant) (Database.at_time time d1)).
      { apply (@getTenantByDomain_frame _ d _ _ Htenant). reflexivity. }
      rewrite (handleCheckoutStarted_unfold env secret req (Database.at_time time d1) tenant
                 Hsig Hten1).
      assert (Hdup : Database.insert_receipt env (checkout_receipt tenant (Webhook.body req))
                       (Database.at_time time d1)
                     = Throw Pg.unique_violation (Database.at_time time d1)).
      { unfold Database.insert_receipt, Database.checked. rewrite Hacc1.
        replace (existsb (Database.receipt_conflict
                            (checkout_receipt tenant (Webhook.body req)))
                         (Pg.webhook_receipts (Database.at_time time d1))) with true;
          [reflexivity|].
        symmetry. unfold d1. simpl. rewrite existsb_app. simpl.
        rewrite (@receipt_conflict_self (checkout_receipt tenant (Webhook.body req))
                   (Pg.next_id d) (Pg.now d) (Pg.now d) n Hid).
        rewrite orb_true_r. reflexivity. }
      rewrite (@claim_receipt_duplicate _ _ _ _ Hdup eq_refl). reflexivity.
Qed.

(** A signed checkouts/create delivery for the platform [Scenario.env0] and
    the secret "whsec". *)
Definition checkout_hook (cid : option Z) : Webhook.Request Webhook.CheckoutBody :=
  Webhook.mkRequest (Some "shop.myshopify.com") (Some "whsec{}")
    (list_ascii_of_string "{}")
    (Webhook.mkCheckoutBody cid None "{}" (Some "cart-1")).

Lemma X1_checkout_dedup_witness :
  Webhook.verifyWebhook Scenario.env0 "whsec" (Webhook.rawBody (checkout_hook (Some 9)))
                        (Webhook.hmac_header (checkout_hook (Some 9))) = true /\
  Webhook.getTenantByDomain (Webhook.shop_domain_header (checkout_hook (Some 9))) Scenario.db1
  = Done (Some Scenario.tenant1) Scenario.db1 /\
  pg_check Scenario.env0
    (Pg.InsertReceipt (checkout_receipt Scenario.tenant1 (Webhook.body (checkout_hook (Some 9)))))
  = None /\
  pg_check Scenario.env0
    (Pg.InsertEvent (checkout_event Scenario.db1 Scenario.tenant1
                       (Webhook.body (checkout_hook (Some 9)))))
  = None /\
  exists d1,
    Webhook.handleCheckoutStarted Scenario.env0 "whsec" (checkout_hook (Some 9)) Scenario.db1
    = Done (Webhook.mkResponse 200 (Webhook.SuccessBody false)) d1 /\
    map (fun r => Pg.e_event_type (Pg.vals r)) (Pg.custom_events d1) = ["checkout_started"] /\
    Webhook.handleCheckoutStarted Scenario.env0 "whsec" (checkout_hook (Some 9))
                                  (Database.at_time 500 d1)
    = Done (Webhook.mkResponse 200 (Webhook.SuccessBody true)) (Database.at_time 500 d1).
Proof.
  assert (H1 : Webhook.verifyWebhook Scenario.env0 "whsec"
                 (Webhook.rawBody (checkout_hook (Some 9)))
                 (Webhook.hmac_header (checkout_hook (Some 9))) = true)
    by (vm_compute; reflexivity).
  assert (H2 : Webhook.getTenantByDomain
                 (Webhook.shop_domain_header (checkout_hook (Some 9))) Scenario.db1
               = Done (Some Scenario.tenant1) Scenario.db1) by (vm_compute; reflexivity).
  split; [exact H1|]. split; [exact H2|]. split; [reflexivity|]. split; [reflexivity|].
  destruct (proj2 (proj2 (X1_checkout_dedup Scenario.env0 "whsec" (checkout_hook (Some 9))
                            Scenario.db1 Scenario.tenant1 H1 H2 eq_refl eq_refl)))
    as (d1 & Hd1 & Hfirst & Hagain).
  { intros (r & n & Hin & _). exact Hin. }
  exists d1. split; [exact Hfirst|]. split; [rewrite Hd1; reflexivity|].
  apply (Hagain 9 500). reflexivity.
Defined.

(* ================================================================== *)
(** ** What a webhook handler may leave behind *)
(* ================================================================== *)

Section WebhookAnswers.
Import Pg Database Webhook.
Variable env : Env.
Variable secret : string.

(** The tables no webhook handler writes. *)
Definition beyond_webhooks (d d' : DB) : Prop :=
  tenants d' = tenants d /\ products d' = products d /\
  product_variants d' = product_variants d /\ orders d' = orders d /\
  order_line_items d' = order_line_items d /\ sync_logs d' = sync_logs d /\
  sync_checkpoints d' = sync_checkpoints d /\ now d' = now d.

(** An outcome that is an answer of a handler run from [d]. *)
Definition answered (d : DB) (o : Outcome DB Response) : Prop :=
  exists resp d',
    o = Done resp d' /\
    (status resp = 200 \/ status resp = 401 \/ status resp = 404 \/ status resp = 500) /\
    beyond_webhooks d d' /\
    (status resp = 401 \/ status resp = 404 \/ json resp = SuccessBody true -> d' = d) /\
    (status resp <> 200 ->
     customers d' = customers d /\ custom_events d' = custom_events d).

Lemma beyond_webhooks_refl d : beyond_webhooks d d.
Proof. unfold beyond_webhooks. repeat split. Qed.

Lemma getTenantByDomain_total dom d :
  getTenantByDomain dom d = Done None d \/
  exists tenant, getTenantByDomain dom d = Done (Some tenant) d.
Proof.
  unfold getTenantByDomain, bind, select_tenant_by_domain, ret.
  destruct (hd_error _) as [t|]; [right; exists t | left]; reflexivity.
Qed.

Ltac answer_with :=
  eexists; eexists; split; [reflexivity|]; simpl;
  split; [auto|];
  split; [try apply beyond_webhooks_refl; unfold beyond_webhooks; simpl; repeat split|];
  split; [intros [H|[H|H]]; try discriminate H; try reflexivity
         | intros H; try (exfalso; apply H; reflexivity); auto].

(** The claim of a receipt: duplicate with the store as it was, claimed with
    one more receipt, or refused with the store as it was. *)
Lemma claim_receipt_cases v d :
  claim_receipt (insert_receipt env v) d = Done true d
  \/ claim_receipt (insert_receipt env v) d
     = Done false (bump (with_webhook_receipts
                           (webhook_receipts d ++ [mkRow (next_id d) (now d) (now d) v]) d))
  \/ exists e, claim_receipt (insert_receipt env v) d = Throw e d.
Proof.
  destruct (insert_receipt_cases env v d) as [(e & _ & Hins)|[(_ & _ & Hins)|(_ & _ & Hins)]].
  - destruct (@claim_receipt_thrown _ _ _ _ Hins) as [Hc|Hc]; [left | right; right; exists e];
      exact Hc.
  - left. exact (@claim_receipt_duplicate _ _ _ _ Hins eq_refl).
  - right. left. exact (@claim_receipt_claimed _ _ _ Hins).
Qed.

Lemma customer_update_answered req d :
  answered d (handleCustomerUpdate env secret req d) /\
  forall resp d', handleCustomerUpdate env secret req d = Done resp d' ->
                  custom_events d' = custom_events d.
Proof.
  destruct (verifyWebhook env secret (rawBody req) (hmac_header req)) eqn:Hsig.
  2:{ rewrite (customer_update_unauthorized env secret req d Hsig).
      split; [answer_with|]. intros resp d' H. inversion H. reflexivity. }
  destruct (getTenantByDomain_total (shop_domain_header req) d) as [Hten|[tenant Hten]].
  { assert (Hrun : handleCustomerUpdate env secret req d
                   = Done (mkResponse 404 (ErrorBody "Tenant not found")) d).
    { unfold handleCustomerUpdate, try_catch. rewrite Hsig. simpl.
      unfold bind. rewrite Hten. reflexivity. }
    rewrite Hrun. split; [answer_with|]. intros resp d' H. inversion H. reflexivity. }
  rewrite (@handleCustomerUpdate_unfold env secret req d tenant Hsig Hten).
  destruct (claim_receipt_cases (customer_receipt tenant (body req)) d)
    as [Hc|[Hc|[e Hc]]]; rewrite Hc.
  - split; [answer_with|]. intros resp d' H. inversion H. reflexivity.
  - destruct (cb_id (body req)) as [cid|].
    + unfold upsert_customer, checked.
      destruct (pg_check env (UpsertCustomer (hook_customer_vals tenant cid (body req)))).
      * split; [answer_with|]. intros resp d' H. inversion H. reflexivity.
      * simpl. split; [answer_with|]. intros resp d' H. inversion H. reflexivity.
    + split; [answer_with|]. intros resp d' H. inversion H. reflexivity.
  - split; [answer_with|]. intros resp d' H. inversion H. reflexivity.
Qed.

Lemma cart_abandoned_answered req d :
  answered d (handleCartAbandoned env secret req d) /\
  forall resp d', handleCartAbandoned env secret req d = Done resp d' ->
                  customers d' = customers d.
Proof.
  destruct (verifyWebhook env secret (rawBody req) (hmac_header req)) eqn:Hsig.
  2:{ rewrite (cart_abandoned_unauthorized env secret req d Hsig).
      split; [answer_with|]. intros resp d' H. inversion H. reflexivity. }
  destruct (getTenantByDomain_total (shop_domain_header req) d) as [Hten|[tenant Hten]].
  { assert (Hrun : handleCartAbandoned env secret req d
                   = Done (mkResponse 404 (ErrorBody "Tenant not found")) d).
    { unfold handleCartAbandoned, try_catch. rewrite Hsig. simpl.
      unfold bind. rewrite Hten. reflexivity. }
    rewrite Hrun. split; [answer_with|]. intros resp d' H. inversion H. reflexivity. }
  rewrite (@handleCartAbandoned_unfold env secret req d tenant Hsig Hten).
  destruct (claim_receipt_cases (cart_receipt tenant (body req)) d)
    as [Hc|[Hc|[e Hc]]]; rewrite Hc.
  - split; [answer_with|]. intros resp d' H. inversion H. reflexivity.
  - unfold insert_event, checked.
    destruct (pg_check env (InsertEvent _)).
    + split; [answer_with|]. intros resp d' H. inversion H. reflexivity.
    + simpl. split; [answer_with|]. intros resp d' H. inversion H. reflexivity.
  - split; [answer_with|]. intros resp d' H. inversion H. reflexivity.
Qed.

Lemma checkout_started_answered req d :
  answered d (handleCheckoutStarted env secret req d) /\
  forall resp d', handleCheckoutStarted env secret req d = Done resp d' ->
                  customers d' = customers d.
Proof.
  destruct (verifyWebhook env secret (rawBody req) (hmac_header req)) eqn:Hsig.
  2:{ rewrite (checkout_started_unauthorized env secret req d Hsig).
      split; [answer_with|]. intros resp d' H. inversion H. reflexivity. }
  destruct (getTenantByDomain_total (shop_domain_header req) d) as [Hten|[tenant Hten]].
  { assert (Hrun : handleCheckoutStarted env secret req d
                   = Done (mkResponse 404 (ErrorBody "Tenant not found")) d).
    { unfold handleCheckoutStarted, try_catch. rewrite Hsig. simpl.
      unfold bind. rewrite Hten. reflexivity. }
    rewrite Hrun. split; [answer_with|]. intros resp d' H. inversion H. reflexivity. }
  rewrite (handleCheckoutStarted_unfold env secret req d tenant Hsig Hten).
  destruct (claim_receipt_cases (checkout_receipt tenant (body req)) d)
    as [Hc|[Hc|[e Hc]]]; rewrite Hc.
  - split; [answer_with|]. intros resp d' H. inversion H. reflexivity.
  - unfold insert_event, checked.
    destruct (pg_check env (InsertEvent _)).
    + split; [answer_with|]. intros resp d' H. inversion H. reflexivity.
    + simpl. split; [answer_with|]. intros resp d' H. inversion H. reflexivity.
  - split; [answer_with|]. intros resp d' H. inversion H. reflexivity.
Qed.
End WebhookAnswers.

(** X2. Whatever the request and the store, each of the three webhook
    handlers returns an answer and lets no error escape: the status is 200,
    401, 404 or 500; the handler never writes tenants, products, variants,
    orders, line items, sync logs or checkpoints; an answer 401, 404 or
    200-duplicate leaves the whole store as it was; an answer other than 200
    leaves the customers and the custom events as they were (at most a
    receipt was stored); customers/update never writes a custom event and
    the two event handlers never write a customer. *)
Theorem X2_webhooks_always_answer (env : Env) (secret : string) (d : Pg.DB) :
  (forall req,
      answered d (Webhook.handleCustomerUpdate env secret req d) /\
      forall resp d',
        Webhook.handleCustomerUpdate env secret req d = Done resp d' ->
        Pg.custom_events d' = Pg.custom_events d) /\
  (forall req,
      answered d (Webhook.handleCartAbandoned env secret req d) /\
      forall resp d',
        Webhook.handleCartAbandoned env secret req d = Done resp d' ->
        Pg.customers d' = Pg.customers d) /\
  (forall req,
      answered d (Webhook.handleCheckoutStarted env secret req d) /\
      forall resp d',
        Webhook.handleCheckoutStarted env secret req d = Done resp d' ->
        Pg.customers d' = Pg.customers d).
Proof.
  split; [|split]; intros req.
  - apply customer_update_answered.
  - apply cart_abandoned_answered.
  - apply checkout_started_answered.
Qed.

(** X3. The receipt and the data write of customers/update are two separate
    statements: when the event has not been claimed, the store accepts the
    receipt and refuses the customer upsert, the handler answers 500 with
    the receipt stored and the customers table as it was; the same delivery
    at any later time is then answered 200 as a duplicate and writes
    nothing, so the customer of that event is not written by a retry. *)
Theorem X3_refused_write_keeps_receipt
    (env : Env) (secret : string) (req : Webhook.Request Webhook.CustomerBody)
    (d : Pg.DB) (tenant : Pg.Tenant) (cid : Z) (e : JS.Error)
    (Hsig : Webhook.verifyWebhook env secret (Webhook.rawBody req) (Webhook.hmac_header req)
            = true)
    (Htenant : Webhook.getTenantByDomain (Webhook.shop_domain_header req) d
               = Done (Some tenant) d)
    (Hid : Webhook.cb_id (Webhook.body req) = Some cid)
    (Hfree : ~ claimed d (customer_receipt tenant (Webhook.body req)))
    (Hacc : pg_check env (Pg.InsertReceipt (customer_receipt tenant (Webhook.body req)))
            = None)
    (Hrej : pg_check env (Pg.UpsertCustomer (hook_customer_vals tenant cid (Webhook.body req)))
            = Some e) :
  exists d1,
    Webhook.handleCustomerUpdate env secret req d
    = Done (Webhook.mkResponse 500 (Webhook.ErrorBody "Internal server error")) d1 /\
    Pg.customers d1 = Pg.customers d /\
    Pg.webhook_receipts d1
    = Pg.webhook_receipts d
      ++ [Pg.mkRow (Pg.next_id d) (Pg.now d) (Pg.now d)
            (customer_receipt tenant (Webhook.body req))] /\
    forall time,
      Webhook.handleCustomerUpdate env secret req (Database.at_time time d1)
      = Done (Webhook.mkResponse 200 (Webhook.SuccessBody true)) (Database.at_time time d1).
Proof.
  assert (Hnew : existsb (Database.receipt_conflict
                            (customer_receipt tenant (Webhook.body req)))
                         (Pg.webhook_receipts d) = false).
  { destruct (existsb _ _) eqn:Hx; [|reflexivity].
    exfalso. apply Hfree. apply (proj1 (receipt_conflict_claimed _ _)). exact Hx. }
  assert (Hins : Database.insert_receipt env (customer_receipt tenant (Webhook.body req)) d
                 = Done tt (Database.bump
                              (Database.with_webhook_receipts
                                 (Pg.webhook_receipts d
                                  ++ [Pg.mkRow (Pg.next_id d) (Pg.now d) (Pg.now d)
                                        (customer_receipt tenant (Webhook.body req))])
                                 d))).
  { unfold Database.insert_receipt, Database.checked. rewrite Hacc, Hnew. reflexivity. }
  eexists. split; [|split; [|split]].
  - rewrite (@handleCustomerUpdate_unfold env secret req d tenant Hsig Htenant).
    rewrite (@claim_receipt_claimed _ _ _ Hins), Hid.
    unfold Database.upsert_customer, Database.checked. rewrite Hrej. reflexivity.
  - reflexivity.
  - reflexivity.
  - intros time.
    match goal with
    | |- Webhook.handleCustomerUpdate _ _ _ (Database.at_time time ?D) = _ => set (d1 := D)
    end.
    assert (Hten1 : Webhook.getTenantByDomain (Webhook.shop_domain_header req)
                      (Database.at_time time d1)
                    = Done (Some tenant) (Database.at_time time d1)).
    { apply (@getTenantByDomain_frame _ d _ _ Htenant). reflexivity. }
    rewrite (@handleCustomerUpdate_unfold env secret req (Database.at_time time d1) tenant
               Hsig Hten1).
    assert (Hdup : Database.insert_receipt env (customer_receipt tenant (Webhook.body req))
                     (Database.at_time time d1)
                   = Throw Pg.unique_violation (Database.at_time time d1)).
    { unfold Database.insert_receipt, Database.checked. rewrite Hacc.
      replace (existsb (Database.receipt_conflict
                          (customer_receipt tenant (Webhook.body req)))
                       (Pg.webhook_receipts (Database.at_time time d1))) with true;
        [reflexivity|].
      symmetry. unfold d1. simpl. rewrite existsb_app. simpl.
      rewrite (@receipt_conflict_self (customer_receipt tenant (Webhook.body req))
                 (Pg.next_id d) (Pg.now d) (Pg.now d) cid Hid).
      rewrite orb_true_r. reflexivity. }
    rewrite (@claim_receipt_duplicate _ _ _ _ Hdup eq_refl). reflexivity.
Qed.

Lemma X3_refused_write_keeps_receipt_witness :
  Webhook.verifyWebhook Scenario.env_varchar "whsec"
    (Webhook.rawBody long_email_hook) (Webhook.hmac_header long_email_hook) = true /\
  Webhook.getTenantByDomain (Webhook.shop_domain_header long_email_hook) Scenario.db1
  = Done (Some Scenario.tenant1) Scenario.db1 /\
  Webhook.cb_id (Webhook.body long_email_hook) = Some 202 /\
  ~ claimed Scenario.db1 (customer_receipt Scenario.tenant1 (Webhook.body long_email_hook)) /\
  pg_check Scenario.env_varchar
    (Pg.InsertReceipt (customer_receipt Scenario.tenant1 (Webhook.body long_email_hook)))
  = None /\
  pg_check Scenario.env_varchar
    (Pg.UpsertCustomer
       (hook_customer_vals Scenario.tenant1 202 (Webhook.body long_email_hook)))
  = Some Scenario.string_too_long /\
  exists d1,
    Webhook.handleCustomerUpdate Scenario.env_varchar "whsec" long_email_hook Scenario.db1
    = Done (Webhook.mkResponse 500 (Webhook.ErrorBody "Internal server error")) d1 /\
    Pg.customers d1 = [] /\
    List.length (Pg.webhook_receipts d1) = 1%nat /\
    Webhook.handleCustomerUpdate Scenario.env_varchar "whsec" long_email_hook
                                 (Database.at_time 500 d1)
    = Done (Webhook.mkResponse 200 (Webhook.SuccessBody true)) (Database.at_time 500 d1).
Proof.
  assert (H1 : Webhook.verifyWebhook Scenario.env_varchar "whsec"
                 (Webhook.rawBody long_email_hook) (Webhook.hmac_header long_email_hook) = true)
    by (vm_compute; reflexivity).
  assert (H2 : Webhook.getTenantByDomain (Webhook.shop_domain_header long_email_hook)
                 Scenario.db1
               = Done (Some Scenario.tenant1) Scenario.db1) by (vm_compute; reflexivity).
  assert (H3 : Webhook.cb_id (Webhook.body long_email_hook) = Some 202) by reflexivity.
  assert (H4 : ~ claimed Scenario.db1
                 (customer_receipt Scenario.tenant1 (Webhook.body long_email_hook))).
  { intros (r & n & Hin & _). exact Hin. }
  assert (H5 : pg_check Scenario.env_varchar
                 (Pg.InsertReceipt
                    (customer_receipt Scenario.tenant1 (Webhook.body long_email_hook)))
               = None) by reflexivity.
  assert (H6 : pg_check Scenario.env_varchar
                 (Pg.UpsertCustomer
                    (hook_customer_vals Scenario.tenant1 202 (Webhook.body long_email_hook)))
               = Some Scenario.string_too_long) by (vm_compute; reflexivity).
  split; [exact H1|]. split; [exact H2|]. split; [exact H3|]. split; [exact H4|].
  split; [exact H5|]. split; [exact H6|].
  destruct (X3_refused_write_keeps_receipt Scenario.env_varchar "whsec" long_email_hook
              Scenario.db1 Scenario.tenant1 202 Scenario.string_too_long
              H1 H2 H3 H4 H5 H6) as (d1 & Hrun & Hcust & Hrec & Hagain).
  exists d1. split; [exact Hrun|]. split; [exact Hcust|].
  split; [rewrite Hrec; reflexivity | apply Hagain].
Defined.

(* ================================================================== *)
(** ** The two ways a customer reaches the store *)
(* ================================================================== *)

Section TwoPaths.
Import Pg.
Variable V : Type.
Variable key : V -> Key.
Variable merge : V -> V -> V.
Variable touch : bool.

(** The column values after an upsert depend neither on the time nor on the
    identifier on offer. *)
Lemma upsert_vals now1 fresh1 now2 fresh2 v t :
  map (@vals V) (upsert key merge touch now1 fresh1 v t)
  = map (@vals V) (upsert key merge touch now2 fresh2 v t).
Proof.
  induction t as [|r t IH]; simpl; [reflexivity|].
  destruct (has_key key (key v) r); simpl; [reflexivity | rewrite IH; reflexivity].
Qed.

(** Nor does the table, when the key is there already. *)
Lemma upsert_fresh now fresh1 fresh2 v t :
  (1 <= count_key key (key v) t)%nat ->
  upsert key merge touch now fresh1 v t = upsert key merge touch now fresh2 v t.
Proof.
  induction t as [|r t IH]; intros Hc.
  - unfold count_key in Hc. simpl in Hc. lia.
  - simpl. destruct (has_key key (key v) r) eqn:Hr; [reflexivity|].
    rewrite IH; [reflexivity|].
    rewrite (count_key_cons V key) in Hc. rewrite Hr in Hc. exact Hc.
Qed.
End TwoPaths.

(** The body of a customers/update delivery that carries a customer as the
    source serves it. *)
Definition body_of_customer (c : Shopify.ShopifyCustomer) : Webhook.CustomerBody :=
  Webhook.mkCustomerBody (Some (Shopify.id c)) (Shopify.email c) (Shopify.first_name c)
    (Shopify.last_name c) (Shopify.phone c) (Some (Shopify.total_spent c))
    (Shopify.orders_count c) (Shopify.created_at c) (Shopify.updated_at c).

(** X4. The webhook and the ingestion write the same customer: for a
    customers/update delivery (valid signature, known tenant, event not yet
    claimed, receipt accepted) whose body is a customer [c] with a non-empty
    total_spent, the handler binds the very values the upsert writer binds
    for [c]; if the writer stores [c] the handler answers 200 and leaves a
    customers table with the same column values row by row (the same table
    when the customer was stored already), and if the store refuses the
    writer it refuses the handler, which answers 500 without a customer
    write. *)
Theorem X4_webhook_writes_what_ingestion_writes
    (env : Env) (secret : string) (req : Webhook.Request Webhook.CustomerBody)
    (d : Pg.DB) (tenant : Pg.Tenant) (c : Shopify.ShopifyCustomer)
    (Hsig : Webhook.verifyWebhook env secret (Webhook.rawBody req) (Webhook.hmac_header req)
            = true)
    (Htenant : Webhook.getTenantByDomain (Webhook.shop_domain_header req) d
               = Done (Some tenant) d)
    (Hbody : Webhook.body req = body_of_customer c)
    (Hspent : JS.truthy (Shopify.total_spent c) = true)
    (Hfree : ~ claimed d (customer_receipt tenant (Webhook.body req)))
    (Hacc : pg_check env (Pg.InsertReceipt (customer_receipt tenant (Webhook.body req)))
            = None) :
  hook_customer_vals tenant (Shopify.id c) (Webhook.body req)
  = customer_vals (Pg.t_id tenant) c /\
  match Ingestion.write_customer env (Pg.t_id tenant) c d with
  | Done _ d_ing =>
      exists d_hook,
        Webhook.handleCustomerUpdate env secret req d
        = Done (Webhook.mkResponse 200 (Webhook.SuccessBody false)) d_hook /\
        map (@Pg.vals _) (Pg.customers d_hook) = map (@Pg.vals _) (Pg.customers d_ing) /\
        ((1 <= Pg.count_key Pg.customer_key (Pg.t_id tenant, Shopify.id c) (Pg.customers d))%nat ->
         Pg.customers d_hook = Pg.customers d_ing)
  | Throw _ d_ing =>
      d_ing = d /\
      exists d_hook,
        Webhook.handleCustomerUpdate env secret req d
        = Done (Webhook.mkResponse 500 (Webhook.ErrorBody "Internal server error")) d_hook /\
        Pg.customers d_hook = Pg.customers d
  | Diverge => False
  end.
Proof.
  assert (Hvals : hook_customer_vals tenant (Shopify.id c) (Webhook.body req)
                  = customer_vals (Pg.t_id tenant) c).
  { unfold hook_customer_vals, customer_vals. rewrite Hbody. simpl.
    unfold JS.or_else. rewrite Hspent. reflexivity. }
  split; [exact Hvals|].
  assert (Hid : Webhook.cb_id (Webhook.body req) = Some (Shopify.id c))
    by (rewrite Hbody; reflexivity).
  assert (Hnew : existsb (Database.receipt_conflict
                            (customer_receipt tenant (Webhook.body req)))
                         (Pg.webhook_receipts d) = false).
  { destruct (existsb _ _) eqn:Hx; [|reflexivity].
    exfalso. apply Hfree. apply (proj1 (receipt_conflict_claimed _ _)). exact Hx. }
  assert (Hins : Database.insert_receipt env (customer_receipt tenant (Webhook.body req)) d
                 = Done tt (Database.bump
                              (Database.with_webhook_receipts
                                 (Pg.webhook_receipts d
                                  ++ [Pg.mkRow (Pg.next_id d) (Pg.now d) (Pg.now d)
                                        (customer_receipt tenant (Webhook.body req))])
                                 d))).
  { unfold Database.insert_receipt, Database.checked. rewrite Hacc, Hnew. reflexivity. }
  rewrite (@handleCustomerUpdate_unfold env secret req d tenant Hsig Htenant).
  rewrite (@claim_receipt_claimed _ _ _ Hins), Hid, Hvals.
  unfold Ingestion.write_customer, Database.upsert_customer, Database.checked.
  fold (customer_vals (Pg.t_id tenant) c).
  destruct (pg_check env (Pg.UpsertCustomer (customer_vals (Pg.t_id tenant) c))) as [e|].
  - split; [reflexivity|]. eexists. split; reflexivity.
  - simpl. eexists. split; [reflexivity|]. simpl. split.
    + apply upsert_vals.
    + intros Hc. apply upsert_fresh. exact Hc.
Qed.

(** The delivery that carries [Scenario.alice]. *)
Definition alice_hook : Webhook.Request Webhook.CustomerBody :=
  Webhook.mkRequest (Some "shop.myshopify.com") (Some "whsec{}")
    (list_ascii_of_string "{}") (body_of_customer (Scenario.alice "7000")).

Lemma X4_webhook_writes_what_ingestion_writes_witness :
  Webhook.verifyWebhook Scenario.env0 "whsec" (Webhook.rawBody alice_hook)
                        (Webhook.hmac_header alice_hook) = true /\
  Webhook.getTenantByDomain (Webhook.shop_domain_header alice_hook) Scenario.db1
  = Done (Some Scenario.tenant1) Scenario.db1 /\
  JS.truthy (Shopify.total_spent (Scenario.alice "7000")) = true /\
  ~ claimed Scenario.db1 (customer_receipt Scenario.tenant1 (Webhook.body alice_hook)) /\
  hook_customer_vals Scenario.tenant1 101 (Webhook.body alice_hook)
  = customer_vals "t1" (Scenario.alice "7000").
Proof.
  assert (H1 : Webhook.verifyWebhook Scenario.env0 "whsec" (Webhook.rawBody alice_hook)
                 (Webhook.hmac_header alice_hook) = true) by (vm_compute; reflexivity).
  assert (H2 : Webhook.getTenantByDomain (Webhook.shop_domain_header alice_hook) Scenario.db1
               = Done (Some Scenario.tenant1) Scenario.db1) by (vm_compute; reflexivity).
  assert (H3 : JS.truthy (Shopify.total_spent (Scenario.alice "7000")) = true) by reflexivity.
  assert (H4 : ~ claimed Scenario.db1
                 (customer_receipt Scenario.tenant1 (Webhook.body alice_hook))).
  { intros (r & n & Hin & _). exact Hin. }
  split; [exact H1|]. split; [exact H2|]. split; [exact H3|]. split; [exact H4|].
  exact (proj1 (X4_webhook_writes_what_ingestion_writes Scenario.env0 "whsec" alice_hook
                  Scenario.db1 Scenario.tenant1 (Scenario.alice "7000")
                  H1 H2 eq_refl H3 H4 eq_refl)).
Defined.

(* ================================================================== *)
(** ** The row under a key *)
(* ================================================================== *)

Section RowUnderKey.
Import Pg.
Variable V : Type.
Variable key : V -> Key.
Variable merge : V -> V -> V.
Variable touch : bool.
Hypothesis merge_key : forall old new, key (merge old new) = key old.

Lemma select_key_none k t :
  count_key key k t = 0%nat -> select_key key k t = [].
Proof. unfold count_key. intros H. apply length_zero_iff_nil. exact H. Qed.

(** On a table that satisfies the constraint, the rows under the key of an
    upsert are the updated row, or the inserted one. *)
Lemma upsert_select now fresh v t :
  unique key t ->
  select_key key (key v) (upsert key merge touch now fresh v t)
  = [match select_key key (key v) t with
     | r :: _ => on_conflict merge touch now v r
     | [] => mkRow fresh now now v
     end].
Proof.
  induction t as [|r t IH]; intros Hu.
  - simpl. unfold has_key. simpl. rewrite key_eqb_refl. reflexivity.
  - simpl. destruct (has_key key (key v) r) eqn:Hr.
    + simpl. rewrite (has_key_on_conflict key merge touch merge_key), Hr.
      f_equal. apply select_key_none.
      pose proof (Hu (key v)) as Hk. rewrite (count_key_cons V key), Hr in Hk. lia.
    + simpl. rewrite Hr. apply IH. apply (unique_tail V key r t Hu).
Qed.

(** Rows under other keys are as they were. *)
Lemma upsert_select_other k now fresh v t :
  key_eqb k (key v) = false ->
  select_key key k (upsert key merge touch now fresh v t) = select_key key k t.
Proof.
  intros Hk. induction t as [|r t IH]; simpl.
  - unfold has_key. simpl. rewrite Hk. reflexivity.
  - destruct (has_key key (key v) r) eqn:Hr; simpl.
    + rewrite (has_key_on_conflict key merge touch merge_key).
      destruct (has_key key k r) eqn:Hkr; [|reflexivity].
      exfalso. unfold has_key in Hr, Hkr.
      apply key_eqb_eq in Hr. apply key_eqb_eq in Hkr.
      rewrite <- Hr in Hkr. rewrite Hkr, key_eqb_refl in Hk. discriminate.
    + rewrite IH. reflexivity.
Qed.
End RowUnderKey.

(* ================================================================== *)
(** ** Orders: the customer link and the columns an update leaves *)
(* ================================================================== *)

Section OrderRows.
Import Pg Database Shopify Ingestion.
Variable env : Env.

(** The orders table after an order was written. *)
Lemma write_order_row tenantId o d d1 :
  unique order_key (orders d) ->
  write_order env tenantId o d = Done tt d1 ->
  select_key order_key (tenantId, order_id o) (orders d1)
  = [match select_key order_key (tenantId, order_id o) (orders d) with
     | r :: _ =>
         on_conflict order_merge true (now d)
                     (order_vals tenantId (order_customer d tenantId o) o) r
     | [] =>
         mkRow (next_id d) (now d) (now d)
               (order_vals tenantId (order_customer d tenantId o) o)
     end] /\
  customers d1 = customers d /\
  unique order_key (orders d1).
Proof.
  intros Hu Hrun.
  destruct (write_order_done env tenantId o d d1 Hrun)
    as (_ & _ & steps & _ & Hord & _ & Hc & _).
  split; [|split; [exact Hc|]].
  - rewrite Hord.
    apply (upsert_select OrderVals order_key order_merge true order_merge_key
             (now d) (next_id d) (order_vals tenantId (order_customer d tenantId o) o)
             (orders d) Hu).
  - rewrite Hord. apply (unique_upsert order_merge true order_merge_key). exact Hu.
Qed.

(** The customers table after a customer was written. *)
Lemma write_customer_row tenantId c d d1 :
  unique customer_key (customers d) ->
  write_customer env tenantId c d = Done tt d1 ->
  select_key customer_key (tenantId, id c) (customers d1)
  = [match select_key customer_key (tenantId, id c) (customers d) with
     | r :: _ => on_conflict customer_merge true (now d) (customer_vals tenantId c) r
     | [] => mkRow (next_id d) (now d) (now d) (customer_vals tenantId c)
     end] /\
  orders d1 = orders d.
Proof.
  intros Hu Hrun. unfold write_customer, upsert_customer, checked in Hrun.
  fold (customer_vals tenantId c) in Hrun.
  destruct (pg_check env (UpsertCustomer (customer_vals tenantId c))); [discriminate Hrun|].
  inversion Hrun. simpl. split; [|reflexivity].
  apply (upsert_select CustomerVals customer_key customer_merge true customer_merge_key
           (now d) (next_id d) (customer_vals tenantId c) (customers d) Hu).
Qed.
End OrderRows.

(** X5. The customer link of an order is resolved when the order is
    written, on tables that satisfy their uniqueness constraints: (1) an
    order whose customer has no row yet is stored with customer_id NULL;
    (2) an order written after its customer is stored with the identifier of
    the customer's row, whether the order is new or was stored before;
    (3) hence an order that arrived before its customer is linked, in the
    same row, the next time it is written. *)
Theorem X5_order_customer_link
    (env : Env) (tenantId : string) (o : Shopify.ShopifyOrder) (c : Shopify.ShopifyCustomer)
    (Hcust : Shopify.customer o = Some c) :
  (forall d d1,
      Pg.unique Pg.order_key (Pg.orders d) ->
      Pg.count_key Pg.customer_key (tenantId, Shopify.id c) (Pg.customers d) = 0%nat ->
      Ingestion.write_order env tenantId o d = Done tt d1 ->
      exists r,
        Pg.select_key Pg.order_key (tenantId, Shopify.order_id o) (Pg.orders d1) = [r] /\
        Pg.o_customer_id (Pg.vals r) = None) /\
  (forall d d1 d2 time,
      Pg.unique Pg.customer_key (Pg.customers d) ->
      Pg.unique Pg.order_key (Pg.orders d) ->
      Ingestion.write_customer env tenantId c d = Done tt d1 ->
      Ingestion.write_order env tenantId o (Database.at_time time d1) = Done tt d2 ->
      exists r rc,
        Pg.select_key Pg.order_key (tenantId, Shopify.order_id o) (Pg.orders d2) = [r] /\
        Pg.select_key Pg.customer_key (tenantId, Shopify.id c) (Pg.customers d2) = [rc] /\
        Pg.o_customer_id (Pg.vals r) = Some (Pg.row_id rc)) /\
  (forall d d1 d2 d3 t1 t2,
      Pg.unique Pg.customer_key (Pg.customers d) ->
      Pg.unique Pg.order_key (Pg.orders d) ->
      Pg.count_key Pg.customer_key (tenantId, Shopify.id c) (Pg.customers d) = 0%nat ->
      Ingestion.write_order env tenantId o d = Done tt d1 ->
      Ingestion.write_customer env tenantId c (Database.at_time t1 d1) = Done tt d2 ->
      Ingestion.write_order env tenantId o (Database.at_time t2 d2) = Done tt d3 ->
      exists r1 r3 rc,
        Pg.select_key Pg.order_key (tenantId, Shopify.order_id o) (Pg.orders d1) = [r1] /\
        Pg.o_customer_id (Pg.vals r1) = None /\
        Pg.select_key Pg.order_key (tenantId, Shopify.order_id o) (Pg.orders d3) = [r3] /\
        Pg.select_key Pg.customer_key (tenantId, Shopify.id c) (Pg.customers d3) = [rc] /\
        Pg.row_id r3 = Pg.row_id r1 /\
        Pg.o_customer_id (Pg.vals r3) = Some (Pg.row_id rc)).
Proof.
  assert (Hmissing : forall d,
             Pg.count_key Pg.customer_key (tenantId, Shopify.id c) (Pg.customers d) = 0%nat ->
             order_customer d tenantId o = None).
  { intros d Hz. unfold order_customer. rewrite Hcust.
    rewrite (select_key_none _ Pg.customer_key _ _ Hz). reflexivity. }
  assert (Hlinked : forall d d1 d2 time,
             Pg.unique Pg.customer_key (Pg.customers d) ->
             Pg.unique Pg.order_key (Pg.orders d) ->
             Ingestion.write_customer env tenantId c d = Done tt d1 ->
             Ingestion.write_order env tenantId o (Database.at_time time d1) = Done tt d2 ->
             exists rc,
               Pg.select_key Pg.customer_key (tenantId, Shopify.id c) (Pg.customers d2) = [rc] /\
               Pg.select_key Pg.order_key (tenantId, Shopify.order_id o) (Pg.orders d2)
               = [match Pg.select_key Pg.order_key (tenantId, Shopify.order_id o) (Pg.orders d)
                  with
                  | r :: _ =>
                      Pg.on_conflict Pg.order_merge true time
                        (order_vals tenantId (Some (Pg.row_id rc)) o) r
                  | [] =>
                      Pg.mkRow (Pg.next_id d1) time time
                               (order_vals tenantId (Some (Pg.row_id rc)) o)
                  end]).
  { intros d d1 d2 time Huc Huo Hc Ho.
    destruct (write_customer_row env tenantId c d d1 Huc Hc) as (Hsel & Hord).
    assert (Huo1 : Pg.unique Pg.order_key (Pg.orders (Database.at_time time d1))).
    { simpl. rewrite Hord. exact Huo. }
    destruct (write_order_row env tenantId o (Database.at_time time d1) d2 Huo1 Ho)
      as (Hrow & Hc2 & _).
    simpl in Hrow, Hc2. rewrite Hord in Hrow.
    match type of Hsel with _ = [?R] => set (rc := R) in * end.
    assert (Hoc : order_customer (Database.at_time time d1) tenantId o = Some (Pg.row_id rc)).
    { unfold order_customer. rewrite Hcust. simpl. rewrite Hsel. reflexivity. }
    rewrite Hoc in Hrow.
    exists rc. split; [rewrite Hc2; exact Hsel | exact Hrow]. }
  split; [|split].
  - intros d d1 Huo Hz Hrun.
    destruct (write_order_row env tenantId o d d1 Huo Hrun) as (Hrow & _).
    rewrite (Hmissing d Hz) in Hrow.
    eexists. split; [exact Hrow|].
    destruct (Pg.select_key Pg.order_key (tenantId, Shopify.order_id o) (Pg.orders d));
      reflexivity.
  - intros d d1 d2 time Huc Huo Hc Ho.
    destruct (Hlinked d d1 d2 time Huc Huo Hc Ho) as (rc & Hsel & Hrow).
    eexists. exists rc. split; [exact Hrow|]. split; [exact Hsel|].
    destruct (Pg.select_key Pg.order_key (tenantId, Shopify.order_id o) (Pg.orders d));
      reflexivity.
  - intros d d1 d2 d3 t1 t2 Huc Huo Hz H1 H2 H3.
    destruct (write_order_row env tenantId o d d1 Huo H1) as (Hrow1 & Hc1 & Huo1).
    rewrite (Hmissing d Hz) in Hrow1.
    assert (Huc1 : Pg.unique Pg.customer_key (Pg.customers (Database.at_time t1 d1))).
    { simpl. rewrite Hc1. exact Huc. }
    destruct (Hlinked (Database.at_time t1 d1) d2 d3 t2 Huc1 Huo1 H2 H3)
      as (rc & Hsel & Hrow3).
    simpl in Hrow3. rewrite Hrow1 in Hrow3.
    eexists. eexists. exists rc.
    split; [exact Hrow1|]. split.
    { destruct (Pg.select_key Pg.order_key (tenantId, Shopify.order_id o) (Pg.orders d));
        reflexivity. }
    split; [exact Hrow3|]. split; [exact Hsel|]. split; reflexivity.
Qed.

(** An order of [Scenario.alice] with one line item. *)
Definition order_of_alice (total ship : string) : Shopify.ShopifyOrder :=
  Shopify.mkOrder 5001 1001 (Some (Scenario.alice "7000"))
    [Shopify.mkLineItem 1 2 "3.50" "Widget" "Blue" "W-1"]
    total total "0.00" "USD" "paid" "fulfilled" "1000" "8000" ship "{}".

(** The store an outcome leaves, [d0] if there is none. *)
Definition store_after {A} (o : Outcome Pg.DB A) (d0 : Pg.DB) : Pg.DB :=
  match o with
  | Done _ d => d
  | Throw _ d => d
  | Diverge => d0
  end.

Lemma X5_order_customer_link_witness :
  Shopify.customer (order_of_alice "7.00" "{A}") = Some (Scenario.alice "7000") /\
  exists d1 d2 d3,
    Ingestion.write_order Scenario.env0 "t1" (order_of_alice "7.00" "{A}") Scenario.db1
    = Done tt d1 /\
    Ingestion.write_customer Scenario.env0 "t1" (Scenario.alice "7000")
                             (Database.at_time 200 d1) = Done tt d2 /\
    Ingestion.write_order Scenario.env0 "t1" (order_of_alice "7.00" "{A}")
                          (Database.at_time 300 d2) = Done tt d3 /\
    map (fun r => Pg.o_customer_id (Pg.vals r)) (Pg.orders d1) = [None] /\
    exists r3 rc,
      Pg.select_key Pg.order_key ("t1", 5001) (Pg.orders d3) = [r3] /\
      Pg.select_key Pg.customer_key ("t1", 101) (Pg.customers d3) = [rc] /\
      Pg.o_customer_id (Pg.vals r3) = Some (Pg.row_id rc).
Proof.
  split; [reflexivity|].
  set (d1 := store_after (Ingestion.write_order Scenario.env0 "t1"
                            (order_of_alice "7.00" "{A}") Scenario.db1) Scenario.db1).
  set (d2 := store_after (Ingestion.write_customer Scenario.env0 "t1" (Scenario.alice "7000")
                            (Database.at_time 200 d1)) Scenario.db1).
  set (d3 := store_after (Ingestion.write_order Scenario.env0 "t1"
                            (order_of_alice "7.00" "{A}") (Database.at_time 300 d2))
                         Scenario.db1).
  assert (H1 : Ingestion.write_order Scenario.env0 "t1" (order_of_alice "7.00" "{A}")
                 Scenario.db1 = Done tt d1) by (vm_compute; reflexivity).
  assert (H2 : Ingestion.write_customer Scenario.env0 "t1" (Scenario.alice "7000")
                 (Database.at_time 200 d1) = Done tt d2) by (vm_compute; reflexivity).
  assert (H3 : Ingestion.write_order Scenario.env0 "t1" (order_of_alice "7.00" "{A}")
                 (Database.at_time 300 d2) = Done tt d3) by (vm_compute; reflexivity).
  exists d1, d2, d3.
  split; [exact H1|]. split; [exact H2|]. split; [exact H3|].
  split; [vm_compute; reflexivity|].
  destruct (proj2 (proj2 (X5_order_customer_link Scenario.env0 "t1"
                            (order_of_alice "7.00" "{A}") (Scenario.alice "7000") eq_refl))
                  Scenario.db1 d1 d2 d3 200 300)
    as (r1 & r3 & rc & _ & _ & Hr3 & Hc & _ & Hlink).
  - intros k. vm_compute. lia.
  - intros k. vm_compute. lia.
  - reflexivity.
  - exact H1.
  - exact H2.
  - exact H3.
  - exists r3, rc. split; [exact Hr3|]. split; [exact Hc | exact Hlink].
Defined.

(** X6. The DO UPDATE SET list of the orders upsert names neither currency
    nor shipping_address nor billing_address (nor shopify_created_at): when
    an order that had no row is written and a later version of it (same
    external id) is written again, the one row of the order keeps its
    identifier and the currency, the two addresses and the source creation
    time of the first version, while order number, the two statuses, the
    source update time and the customer link are those of the later version
    (the three amounts are rebound as well; what the DECIMAL columns make of
    them is not stated here). *)
Theorem X6_order_update_keeps_first_addresses
    (env : Env) (tenantId : string) (o1 o2 : Shopify.ShopifyOrder)
    (d d1 d2 : Pg.DB) (time : Z)
    (Hsame : Shopify.order_id o2 = Shopify.order_id o1)
    (Hu : Pg.unique Pg.order_key (Pg.orders d))
    (Hnew : Pg.count_key Pg.order_key (tenantId, Shopify.order_id o1) (Pg.orders d) = 0%nat)
    (Hfirst : Ingestion.write_order env tenantId o1 d = Done tt d1)
    (Hsecond : Ingestion.write_order env tenantId o2 (Database.at_time time d1) = Done tt d2) :
  exists r,
    Pg.select_key Pg.order_key (tenantId, Shopify.order_id o1) (Pg.orders d2) = [r] /\
    Pg.row_id r = Pg.next_id d /\
    Pg.created_at r = Pg.now d /\
    Pg.updated_at r = time /\
    (Pg.o_currency (Pg.vals r) = Shopify.currency o1 /\
     Pg.o_shipping_address (Pg.vals r) = Shopify.shipping_address o1 /\
     Pg.o_billing_address (Pg.vals r) = Shopify.billing_address o1 /\
     Pg.o_shopify_created_at (Pg.vals r) = Shopify.order_created_at o1) /\
    (Pg.o_order_number (Pg.vals r) = Shopify.order_number o2 /\
     Pg.o_financial_status (Pg.vals r) = Shopify.financial_status o2 /\
     Pg.o_fulfillment_status (Pg.vals r) = Shopify.fulfillment_status o2 /\
     Pg.o_shopify_updated_at (Pg.vals r) = Shopify.order_updated_at o2 /\
     Pg.o_customer_id (Pg.vals r) = order_customer d1 tenantId o2).
Proof.
  destruct (write_order_row env tenantId o1 d d1 Hu Hfirst) as (Hrow1 & _ & Hu1).
  rewrite (select_key_none _ Pg.order_key _ _ Hnew) in Hrow1.
  destruct (write_order_row env tenantId o2 (Database.at_time time d1) d2 Hu1 Hsecond)
    as (Hrow2 & _).
  rewrite Hsame in Hrow2. simpl in Hrow2. rewrite Hrow1 in Hrow2.
  eexists. split; [exact Hrow2|]. simpl. repeat split.
Qed.

Lemma X6_order_update_keeps_first_addresses_witness :
  Shopify.order_id (order_of_alice "9.00" "{B}") = Shopify.order_id (order_of_alice "7.00" "{A}") /\
  Pg.count_key Pg.order_key ("t1", 5001) (Pg.orders Scenario.db1) = 0%nat /\
  exists d1 d2 r,
    Ingestion.write_order Scenario.env0 "t1" (order_of_alice "7.00" "{A}") Scenario.db1
    = Done tt d1 /\
    Ingestion.write_order Scenario.env0 "t1" (order_of_alice "9.00" "{B}")
                          (Database.at_time 300 d1) = Done tt d2 /\
    Pg.select_key Pg.order_key ("t1", 5001) (Pg.orders d2) = [r] /\
    Pg.o_shipping_address (Pg.vals r) = "{A}" /\
    Pg.o_shopify_updated_at (Pg.vals r)
    = Shopify.order_updated_at (order_of_alice "9.00" "{B}").
Proof.
  split; [reflexivity|]. split; [reflexivity|].
  set (d1 := store_after (Ingestion.write_order Scenario.env0 "t1"
                            (order_of_alice "7.00" "{A}") Scenario.db1) Scenario.db1).
  set (d2 := store_after (Ingestion.write_order Scenario.env0 "t1"
                            (order_of_alice "9.00" "{B}") (Database.at_time 300 d1))
                         Scenario.db1).
  assert (H1 : Ingestion.write_order Scenario.env0 "t1" (order_of_alice "7.00" "{A}")
                 Scenario.db1 = Done tt d1) by (vm_compute; reflexivity).
  assert (H2 : Ingestion.write_order Scenario.env0 "t1" (order_of_alice "9.00" "{B}")
                 (Database.at_time 300 d1) = Done tt d2) by (vm_compute; reflexivity).
  assert (Hu : Pg.unique Pg.order_key (Pg.orders Scenario.db1)).
  { intros k. vm_compute. lia. }
  destruct (X6_order_update_keeps_first_addresses Scenario.env0 "t1"
              (order_of_alice "7.00" "{A}") (order_of_alice "9.00" "{B}")
              Scenario.db1 d1 d2 300 eq_refl Hu eq_refl H1 H2)
    as (r & Hsel & _ & _ & _ & (_ & Hship & _) & (_ & _ & _ & Hupd & _)).
  exists d1, d2, r. split; [exact H1|]. split; [exact H2|]. split; [exact Hsel|].
  split; [exact Hship | exact Hupd].
Defined.

(* ================================================================== *)
(** ** The books during the loop *)
(* ================================================================== *)

Section Books.
Import Pg Database Shopify Ingestion.
Variable env : Env.
Variable src : Source.
Variable R : Type.
Variable E : Entity R.
Variable HE : entity_ok src E.
Variable tenantId : string.
Variable shopify : ShopifyAPIService.
Variable lastUpdatedAt : option Z.
Variable w0 : World.

(** A turn of the loop writes entity tables only. *)
Lemma page_step_books f :
  books (db (world f)) = books (db w0) ->
  wp (page_step env E tenantId shopify lastUpdatedAt)
     (fun _ f' => books (db (world f')) = books (db w0))
     (fun _ f' => books (db (world f')) = books (db w0)) f.
Proof.
  intros Hb. unfold wp. rewrite (page_step_unfold env src R E HE).
  destruct (src _ _) as [e|data]; [exact Hb|].
  destruct (unwrap E data) as [page|]; [|exact Hb].
  destruct (Nat.eqb (List.length page) 0); [exact Hb|].
  assert (Ht : tame (for_of page (write E tenantId))).
  { apply tame_for_of. intros r. apply (ok_write HE). }
  specialize (Ht (db (world f))).
  destruct (for_of page (write E tenantId) (db (world f))) as [[] d'|e d'|];
    [simpl; congruence | exact Hb | exact I].
Qed.
End Books.

(** The SyncLog row of a run, once it is closed, on a store whose rows have
    other identifiers. *)
Lemma set_log_fresh now id tenantId syncType started st n err logs :
  Forall (fun l => Pg.log_id l <> id) logs ->
  Database.set_log now id st n err
    (logs ++ [Pg.mkSyncLog id tenantId syncType "running" 0 None started None])
  = logs ++ [Pg.mkSyncLog id tenantId syncType st n err started (Some now)].
Proof.
  intros Hf. unfold Database.set_log. rewrite map_app. simpl. rewrite Nat.eqb_refl.
  f_equal. rewrite <- (map_id logs) at 2. apply map_ext_in. intros l Hin.
  rewrite Forall_forall in Hf. specialize (Hf l Hin).
  destruct (Nat.eqb (Pg.log_id l) id) eqn:Hid; [|reflexivity].
  apply Nat.eqb_eq in Hid. contradiction.
Qed.

(* ================================================================== *)
(** ** The rows of other tenants *)
(* ================================================================== *)

Section OtherTenants.
Import Pg Database Shopify Ingestion.








Variable env : Env.





Variable src : Source.





End OtherTenants.

Section Isolation.
Import Pg Database Shopify Ingestion.
Variable env : Env.
Variable src : Source.
Variable k : Kind.
Variable t t' : string.
Hypothesis Hne : t <> t'.
Variable shopify : ShopifyAPIService.
Variable lastUpdatedAt : option Z.
Variable w0 : World.


End Isolation.



(** The world an outcome leaves, [w0] if there is none. *)
Definition world_after {A} (o : Outcome Shopify.World A) (w0 : Shopify.World)
  : Shopify.World :=
  match o with
  | Done _ w => w
  | Throw _ w => w
  | Diverge => w0
  end.


(* ================================================================== *)
(** ** The requests of a run *)
(* ================================================================== *)

(** The request that the getter of an entity type sends for a cursor. *)
Definition page_request (k : Kind) (svc : Shopify.ShopifyAPIService) (since : option Z)
  : Shopify.Request :=
  match k with
  | KCustomers =>
      Shopify.mkRequest (Shopify.baseUrl svc ++ "/customers.json") (Shopify.accessToken svc)
        (("limit", Shopify.PNum 250) :: Shopify.since_param since)
  | KProducts =>
      Shopify.mkRequest (Shopify.baseUrl svc ++ "/products.json") (Shopify.accessToken svc)
        (("limit", Shopify.PNum 250) :: Shopify.since_param since)
  | KOrders =>
      Shopify.mkRequest (Shopify.baseUrl svc ++ "/orders.json") (Shopify.accessToken svc)
        (("limit", Shopify.PNum 250) :: ("status", Shopify.PStr "any")
           :: Shopify.since_param since)
  end.

Section Chain.
Import Pg Database Shopify Ingestion.
Variable src : Source.
(** The request for a cursor, and the external id of the last record of an
    answer (none for an error or an empty page). *)
Variable request : option Z -> Request.
Variable last_id : JS.Error + Payload -> option Z.
(** The number of requests sent before the run. *)
Variable n0 : nat.

(** [chained reqs since]: the requests [reqs] were sent one after the other,
    the first without a cursor and each further one with the id of the last
    record of the answer before it; every one was answered by a non-empty
    page, and [since] is the cursor for the request that comes next. *)
Inductive chained : list Request -> option Z -> Prop :=
| chained_nil : chained [] None
| chained_snoc (reqs : list Request) (since : option Z) (i : Z) :
    chained reqs since ->
    last_id (src (n0 + List.length reqs)%nat (request since)) = Some i ->
    chained (reqs ++ [request since]) (Some i).

Lemma chained_last reqs since :
  chained reqs since -> reqs <> [] ->
  exists reqs' since', reqs = reqs' ++ [request since'] /\ chained reqs' since'.
Proof.
  intros Hc Hne. destruct Hc as [|reqs since i Hc Hl]; [contradiction|].
  exists reqs, since. auto.
Qed.

Lemma chained_requests reqs since :
  chained reqs since -> Forall (fun rq => exists s, rq = request s) reqs.
Proof.
  induction 1 as [|reqs since i Hc IH Hl]; [constructor|].
  apply Forall_app. split; [exact IH|]. constructor; [exists since; reflexivity | constructor].
Qed.
End Chain.

Section Cursor.
Import Pg Database Shopify Ingestion.
Variable env : Env.
Variable src : Source.
Variable R : Type.
Variable E : Entity R.
Variable HE : entity_ok src E.
Variable tenantId : string.
Variable shopify : ShopifyAPIService.
Variable lastUpdatedAt : option Z.
Variable w0 : World.

Definition last_record_id (a : JS.Error + Payload) : option Z :=
  option_map (rec_id E) (last_of (page_of E a)).

Definition chained_here : list Request -> option Z -> Prop :=
  chained src (ok_request HE shopify) last_record_id (List.length (sent w0)).

(** Between two turns. *)
Definition paging (f : Frame) : Prop :=
  exists reqs,
    sent (world f) = sent w0 ++ reqs /\
    ((chained_here reqs (sinceId (locals f)) /\
      (reqs = [] -> hasMore (locals f) = true))
     \/
     (hasMore (locals f) = false /\
      exists reqs' since,
        reqs = reqs' ++ [ok_request HE shopify since] /\ chained_here reqs' since)).

(** After the last request of a run. *)
Definition paged (f : Frame) : Prop :=
  exists reqs since,
    sent (world f) = sent w0 ++ reqs ++ [ok_request HE shopify since] /\
    chained_here reqs since.

Lemma paging_start : paging (mkFrame w0 (mkLocals true None 0 None)).
Proof.
  exists []. simpl. split; [rewrite app_nil_r; reflexivity|].
  left. split; [constructor | reflexivity].
Qed.

Lemma paging_paged f : paging f -> hasMore (locals f) = false -> paged f.
Proof.
  intros (reqs & Hsent & [[Hc Hnil]|(_ & reqs' & since & Hreqs & Hc)]) Hm.
  - assert (Hne : reqs <> []).
    { intros Hn. rewrite (Hnil Hn) in Hm. discriminate. }
    destruct (chained_last _ _ _ _ _ _ Hc Hne) as (reqs' & since' & Hreqs & Hc').
    exists reqs', since'. rewrite Hsent, Hreqs. auto.
  - exists reqs', since. rewrite Hsent, Hreqs. auto.
Qed.

Lemma last_of_cons_some {A} (x : A) (l : list A) : exists y, last_of (x :: l) = Some y.
Proof.
  revert x. induction l as [|z l IH]; intros x; [exists x; reflexivity|].
  destruct (IH z) as [y Hy]. exists y. simpl in *. exact Hy.
Qed.

Lemma page_step_paging f :
  paging f -> hasMore (locals f) = true ->
  wp (page_step env E tenantId shopify lastUpdatedAt)
     (fun _ f' => paging f') (fun _ f' => paged f') f.
Proof.
  intros (reqs & Hsent & Hcase) Hm.
  destruct Hcase as [[Hc _]|(Hstop & _)]; [|rewrite Hstop in Hm; discriminate].
  assert (Hstopped : paged (mkFrame (turn_sent src R E HE shopify f (db (world f)))
                              (locals f))).
  { exists reqs, (sinceId (locals f)). split; [|exact Hc].
    simpl. rewrite Hsent, <- app_assoc. reflexivity. }
  unfold wp. rewrite (page_step_unfold env src R E HE).
  destruct (src (List.length (sent (world f))) (turn_request src R E HE shopify f))
    as [e|data] eqn:Hsrc; [exact Hstopped|].
  destruct (unwrap E data) as [page|] eqn:Hun; [|exact Hstopped].
  destruct (Nat.eqb (List.length page) 0) eqn:Hlen.
  - exists (reqs ++ [turn_request src R E HE shopify f]). simpl.
    split; [rewrite Hsent, <- app_assoc; reflexivity|].
    right. split; [reflexivity|]. exists reqs, (sinceId (locals f)). auto.
  - destruct (for_of page (write E tenantId) (db (world f))) as [[] d'|e d'|];
      [|exact Hstopped|exact I].
    destruct page as [|c page']; [discriminate Hlen|].
    destruct (last_of_cons_some c page') as [y Hy].
    exists (reqs ++ [turn_request src R E HE shopify f]). simpl.
    split; [rewrite Hsent, <- app_assoc; reflexivity|].
    left. split; [|intros Hn; destruct reqs; discriminate Hn].
    change (match page' with [] => Some c | _ :: _ => last_of page' end)
      with (last_of (c :: page')).
    rewrite Hy. simpl.
    apply (chained_snoc src (ok_request HE shopify) last_record_id (List.length (sent w0))
             reqs (sinceId (locals f)) (rec_id E y) Hc).
    unfold last_record_id.
    assert (Hidx : (List.length (sent w0) + List.length reqs)%nat
                   = List.length (sent (world f))).
    { rewrite Hsent, length_app. reflexivity. }
    rewrite Hidx. unfold turn_request in Hsrc. rewrite Hsrc. simpl. rewrite Hun, Hy.
    reflexivity.
Qed.

Lemma sweep_paged fuel logId :
  wp (sweep env E tenantId shopify lastUpdatedAt fuel logId)
     (fun _ f' => paged f') (fun _ f' => paged f')
     (mkFrame w0 (mkLocals true None 0 None)).
Proof.
  eapply wp_mono.
  - apply (sweep_rule env R E tenantId shopify lastUpdatedAt logId paging
             (fun _ f => paged f)).
    + intros f Hf Hm. apply page_step_paging; assumption.
    + apply paging_start.
  - intros r f' (f & Hf & Hm & _ & Hcl & _).
    destruct (paging_paged f Hf Hm) as (reqs & since & Hsent & Hc).
    exists reqs, since. destruct Hcl as (_ & Hs & _). rewrite Hs. auto.
  - intros e f' (f & Hf & Hcl & _).
    assert (Hp : paged f).
    { destruct Hf as [Hf|(Hf & Hm & _)]; [exact Hf | apply paging_paged; assumption]. }
    destruct Hp as (reqs & since & Hsent & Hc).
    exists reqs, since. destruct Hcl as (_ & Hs & _). rewrite Hs. auto.
Qed.
End Cursor.

Lemma chained_ext src (request request' : option Z -> Shopify.Request) last_id n0 reqs since :
  (forall s, request s = request' s) ->
  chained src request last_id n0 reqs since ->
  chained src request' last_id n0 reqs since.
Proof.
  intros Heq. induction 1 as [|reqs since i Hc IH Hl]; [constructor|].
  rewrite Heq. apply chained_snoc; [exact IH|]. rewrite <- Heq. exact Hl.
Qed.

(** The external id of the last record of an answer to a request for the
    entity type [k]. *)
Definition last_id_of (env : Env) (src : Shopify.Source) (k : Kind)
    (a : JS.Error + Shopify.Payload) : option Z :=
  last_record_id _ (kind_entity env src k) a.

(** The path of the endpoint of an entity type. *)
Definition endpoint (k : Kind) : string :=
  match k with
  | KCustomers => "/customers.json"
  | KProducts => "/products.json"
  | KOrders => "/orders.json"
  end.

(** X8. The requests of a run that opened its SyncLog row (the tenant id
    given to it references a tenant), whether it completes or fails: at least
    one is sent; the first carries no cursor; every further one is sent
    after a non-empty page and carries as since_id the external id of the
    last record of that page (no since_id when that id is 0); and every
    request goes to https://<shop domain without protocol>/admin/api/2023-10
    and the endpoint of the entity type, with the access token given to the
    run and limit = 250. *)
Theorem X8_requests_follow_cursor
    (env : Env) (src : Shopify.Source) (k : Kind) (fuel : nat)
    (t shopDomain : string) (accessToken : option string) (w w' : Shopify.World)
    (Hopen : refusal env t w = None)
    (Hrun : final (ingest env src k fuel t shopDomain accessToken w) = Some w') :
  exists reqs since,
    Shopify.sent w'
    = Shopify.sent w ++ reqs
      ++ [page_request k (Shopify.new_ShopifyAPIService shopDomain accessToken) since] /\
    chained src (page_request k (Shopify.new_ShopifyAPIService shopDomain accessToken))
            (last_id_of env src k) (List.length (Shopify.sent w)) reqs since /\
    Forall (fun rq =>
              Shopify.url rq
              = (("https://" ++ Shopify.sanitize shopDomain ++ "/admin/api/2023-10")
                 ++ endpoint k)%string /\
              Shopify.access_token_header rq = accessToken /\
              In ("limit", Shopify.PNum 250) (Shopify.params rq))
           (reqs ++ [page_request k (Shopify.new_ShopifyAPIService shopDomain accessToken)
                       since]).
Proof.
  set (svc := Shopify.new_ShopifyAPIService shopDomain accessToken).
  assert (Hreq : forall s, ok_request (kind_ok env src k) svc s = page_request k svc s).
  { intros s. destruct k; reflexivity. }
  assert (H : wp (ingest env src k fuel t shopDomain accessToken)
                 (fun _ w1 =>
                    exists reqs since,
                      Shopify.sent w1 = Shopify.sent w ++ reqs ++ [page_request k svc since] /\
                      chained src (page_request k svc) (last_id_of env src k)
                              (List.length (Shopify.sent w)) reqs since)
                 (fun _ w1 =>
                    exists reqs since,
                      Shopify.sent w1 = Shopify.sent w ++ reqs ++ [page_request k svc since] /\
                      chained src (page_request k svc) (last_id_of env src k)
                              (List.length (Shopify.sent w)) reqs since)
                 w).
  { unfold wp. rewrite (@ingest_unfold env src k fuel t shopDomain accessToken w Hopen).
    apply wp_call.
    eapply wp_mono.
    - apply (sweep_paged env src _ (kind_entity env src k) (kind_ok env src k)).
    - intros r f' (reqs & since & Hsent & Hc). exists reqs, since.
      rewrite <- Hreq. split; [exact Hsent|].
      apply (chained_ext _ _ _ _ _ _ _ Hreq). exact Hc.
    - intros e f' (reqs & since & Hsent & Hc). exists reqs, since.
      rewrite <- Hreq. split; [exact Hsent|].
      apply (chained_ext _ _ _ _ _ _ _ Hreq). exact Hc. }
  assert (Hex : exists reqs since,
             Shopify.sent w' = Shopify.sent w ++ reqs ++ [page_request k svc since] /\
             chained src (page_request k svc) (last_id_of env src k)
                     (List.length (Shopify.sent w)) reqs since).
  { unfold wp in H.
    destruct (ingest env src k fuel t shopDomain accessToken w) as [r w1|e w1|];
      simpl in Hrun; [| |discriminate]; inversion Hrun; subst w1; exact H. }
  destruct Hex as (reqs & since & Hsent & Hc).
  exists reqs, since. split; [exact Hsent|]. split; [exact Hc|].
  assert (Hone : forall s,
             Shopify.url (page_request k svc s)
             = (("https://" ++ Shopify.sanitize shopDomain ++ "/admin/api/2023-10")
                ++ endpoint k)%string /\
             Shopify.access_token_header (page_request k svc s) = accessToken /\
             In ("limit", Shopify.PNum 250) (Shopify.params (page_request k svc s))).
  { intros s. destruct k; simpl; repeat split; left; reflexivity. }
  apply Forall_app. split.
  - eapply Forall_impl; [|apply (chained_requests _ _ _ _ _ _ Hc)].
    intros rq (s & ->). apply Hone.
  - constructor; [apply Hone | constructor].
Qed.

Lemma X8_requests_follow_cursor_witness :
  refusal Scenario.env0 "t1" (Scenario.world_of Scenario.db1) = None /\
  exists w',
    final (ingest Scenario.env0 Scenario.page_then_error KCustomers 5 "t1"
             "https://shop.myshopify.com" (Some "tok") (Scenario.world_of Scenario.db1))
    = Some w' /\
    map (fun rq => (Shopify.url rq, Shopify.params rq)) (Shopify.sent w')
    = [("https://shop.myshopify.com/admin/api/2023-10/customers.json",
        [("limit", Shopify.PNum 250)]);
       ("https://shop.myshopify.com/admin/api/2023-10/customers.json",
        [("limit", Shopify.PNum 250); ("since_id", Shopify.PNum 250)])] /\
    exists reqs since,
      Shopify.sent w'
      = reqs ++ [page_request KCustomers
                   (Shopify.new_ShopifyAPIService "https://shop.myshopify.com" (Some "tok"))
                   since] /\
      chained Scenario.page_then_error
              (page_request KCustomers
                 (Shopify.new_ShopifyAPIService "https://shop.myshopify.com" (Some "tok")))
              (last_id_of Scenario.env0 Scenario.page_then_error KCustomers) 0 reqs since.
Proof.
  set (w' := world_after
               (ingest Scenario.env0 Scenario.page_then_error KCustomers 5 "t1"
                  "https://shop.myshopify.com" (Some "tok") (Scenario.world_of Scenario.db1))
               (Scenario.world_of Scenario.db1)).
  assert (H : final (ingest Scenario.env0 Scenario.page_then_error KCustomers 5 "t1"
                       "https://shop.myshopify.com" (Some "tok")
                       (Scenario.world_of Scenario.db1))
              = Some w') by (vm_compute; reflexivity).
  assert (H0 : refusal Scenario.env0 "t1" (Scenario.world_of Scenario.db1) = None)
    by reflexivity.
  split; [exact H0|].
  exists w'. split; [exact H|]. split; [vm_compute; reflexivity|].
  destruct (X8_requests_follow_cursor Scenario.env0 Scenario.page_then_error KCustomers 5
              "t1" "https://shop.myshopify.com" (Some "tok")
              (Scenario.world_of Scenario.db1) w' H0 H) as (reqs & since & Hsent & Hc & _).
  exists reqs, since. split; [exact Hsent | exact Hc].
Defined.

(* ================================================================== *)
(** ** What a run of [ingestCustomers] leaves in the customers table *)
(* ================================================================== *)

Section CustomersRun.
Import Pg Database Shopify Ingestion.
Variable env : Env.
Variable src : Source.
Variable tenantId : string.





Variable shopify : ShopifyAPIService.
Variable lastUpdatedAt : option Z.
Variable w0 : World.





End CustomersRun.

Section CustomersRows.
Import Pg Database Shopify Ingestion.
Variable tenantId : string.

End CustomersRows.





Section UntouchedKeys.
Import Pg.
Variable V : Type.
Variable key : V -> Key.
Variable merge : V -> V -> V.
Variable touch : bool.
Hypothesis merge_key : forall old new, key (merge old new) = key old.

(** The rows under a key that no step of a sequence writes. *)
Lemma apply_steps_select_other k steps : forall t,
  Forall (fun s => key_eqb k (key (snd s)) = false) steps ->
  select_key key k (apply_steps V key merge touch steps t) = select_key key k t.
Proof.
  induction steps as [|s steps IH]; intros t Hf; [reflexivity|].
  inversion Hf as [|? ? Hs Hrest]; subst. simpl.
  rewrite (IH _ Hrest).
  apply (upsert_select_other V key merge touch merge_key). exact Hs.
Qed.
End UntouchedKeys.



(* ================================================================== *)
(** ** Runs on a source without records *)
(* ================================================================== *)

Section FirstTurn.
Import Pg Database Shopify Ingestion.
Variable env : Env.
Variable src : Source.




End FirstTurn.





(* ================================================================== *)
(** ** A first record without a readable timestamp *)
(* ================================================================== *)

Section Unparsable.
Import Pg Database Shopify Ingestion.
Variable env : Env.
Variable src : Source.
Variable R : Type.
Variable E : Entity R.
Variable HE : entity_ok src E.
Variable tenantId : string.
Variable shopify : ShopifyAPIService.
Variable lastUpdatedAt : option Z.
Variable w0 : World.
Variable logId : nat.

(** The first answer is a page whose first record has no timestamp that
    [new Date] reads. *)
Variable p : Payload.
Variable c : R.
Variable rest : list R.
Hypothesis Hfirst : src (List.length (sent w0)) (ok_request HE shopify None) = inr p.
Hypothesis Hpage : unwrap E p = Some (c :: rest).
Hypothesis Hdate : updatedAt_of env E c = JS.InvalidDate.



End Unparsable.




(* ================================================================== *)
(** ** Child rows: variants of a product, line items of an order *)
(* ================================================================== *)

Section Children.
Import Pg.
Variable V : Type.
Variable key : V -> Key.
Variable merge : V -> V -> V.
Variable touch : bool.
Hypothesis merge_key : forall old new, key (merge old new) = key old.
Hypothesis merge_merge : forall old a b, merge (merge old a) b = merge old b.
Hypothesis merge_self : forall v, merge v v = v.
(** The column that refers to the parent row, which DO UPDATE SET takes
    from the new values. *)
Variable parent : V -> nat.
Hypothesis merge_parent : forall old new, parent (merge old new) = parent new.

Lemma last_with_found k xs x :
  In x xs -> key x = k -> exists z, last_with V key k xs = Some z /\ In z xs.
Proof.
  induction xs as [|y xs IH]; intros Hin Hk; [contradiction|]. simpl.
  destruct (last_with V key k xs) as [z|] eqn:Hl.
  - destruct Hin as [->|Hin].
    + exists z. split; [reflexivity|]. right.
      destruct xs as [|y' xs']; [discriminate Hl|].
      assert (Hz : forall l, last_with V key k l = Some z -> In z l).
      { induction l as [|a l IHl]; simpl; [discriminate|].
        destruct (last_with V key k l) as [z'|].
        - intros H. inversion H; subst. right. apply IHl. reflexivity.
        - destruct (key_eqb (key a) k); [|discriminate].
          intros H. inversion H. left. reflexivity. }
      apply Hz. exact Hl.
    + destruct (IH Hin Hk) as (z' & Hz' & Hin'). inversion Hz'; subst z'.
      exists z. split; [reflexivity | right; exact Hin'].
  - destruct Hin as [->|Hin].
    + rewrite Hk, key_eqb_refl. exists x. split; [reflexivity | left; reflexivity].
    + destruct (IH Hin Hk) as (z' & Hz' & _). discriminate Hz'.
Qed.

Lemma select_one k (t : Table V) :
  count_key key k t = 1%nat -> exists r, select_key key k t = [r].
Proof.
  unfold count_key. destruct (select_key key k t) as [|r [|r' l]]; simpl; try discriminate.
  intros _. exists r. reflexivity.
Qed.

(** After the upserts of [steps], which all refer to the parent [pid], each
    key of [steps] has one row, and it refers to [pid]. *)
Lemma children_linked pid steps t s :
  unique key t ->
  Forall (fun s => parent (snd s) = pid) steps ->
  In s steps ->
  exists r,
    select_key key (key (snd s)) (apply_steps V key merge touch steps t) = [r] /\
    parent (vals r) = pid.
Proof.
  intros Hu Hall Hin.
  destruct (select_one _ _ (apply_steps_exactly_one V key merge touch merge_key steps t s Hu Hin))
    as [r Hr].
  exists r. split; [exact Hr|].
  assert (Hrin : In r (select_key key (key (snd s)) (apply_steps V key merge touch steps t))).
  { rewrite Hr. left. reflexivity. }
  unfold select_key in Hrin. apply filter_In in Hrin. destruct Hrin as [Hrt Hk].
  unfold has_key in Hk. apply key_eqb_eq in Hk.
  destruct (last_with_found (key (vals r)) (map snd steps) (snd s)) as (z & Hz & Hzin).
  { apply in_map. exact Hin. }
  { exact Hk. }
  pose proof (settled V key merge touch merge_key merge_merge merge_self steps t Hu r z Hrt Hz)
    as Hm.
  rewrite <- Hm, merge_parent.
  apply in_map_iff in Hzin. destruct Hzin as (s' & <- & Hs').
  rewrite Forall_forall in Hall. apply Hall. exact Hs'.
Qed.
End Children.

Section UnservedKeys.
Import Pg.
Variable V : Type.
Variable W : Type.
Variable key : V -> Key.
Variable merge : V -> V -> V.
Variable touch : bool.
Hypothesis merge_key : forall old new, key (merge old new) = key old.

(** The rows under a key that is the key of none of the values written. *)
Lemma apply_steps_unserved (vals_of : W -> V) (ws : list W) k steps t :
  map snd steps = map vals_of ws ->
  (forall w, In w ws -> key (vals_of w) <> k) ->
  select_key key k (apply_steps V key merge touch steps t) = select_key key k t.
Proof.
  intros Hs Hk.
  apply (apply_steps_select_other V key merge touch merge_key).
  rewrite Forall_forall. intros s Hin.
  assert (Hv : In (snd s) (map vals_of ws)) by (rewrite <- Hs; apply in_map; exact Hin).
  apply in_map_iff in Hv. destruct Hv as (w & Hw & Hwin). rewrite <- Hw.
  destruct (key_eqb k (key (vals_of w))) eqn:Hkk; [|reflexivity].
  apply key_eqb_eq in Hkk. exfalso. apply (Hk w Hwin). symmetry. exact Hkk.
Qed.
End UnservedKeys.

(** X13. A product and its variants, written on tables that satisfy their
    uniqueness constraints: the product has one row, and every variant of
    the payload has one row, which refers to the row of the product, also
    when the variant was stored under another product before. Variants that
    the payload does not list are left as they are: the writer removes no
    variant row. *)
Theorem X13_variants_follow_product
    (env : Env) (tenantId : string) (p : Shopify.ShopifyProduct) (d d1 : Pg.DB)
    (Hup : Pg.unique Pg.product_key (Pg.products d))
    (Huv : Pg.unique Pg.variant_key (Pg.product_variants d))
    (Hrun : Ingestion.write_product env tenantId p d = Done tt d1) :
  exists rp,
    Pg.select_key Pg.product_key (tenantId, Shopify.product_id p) (Pg.products d1) = [rp] /\
    (forall v, In v (Shopify.variants p) ->
       exists rv,
         Pg.select_key Pg.variant_key (tenantId, Shopify.variant_id v) (Pg.product_variants d1)
         = [rv] /\
         Pg.v_product_id (Pg.vals rv) = Pg.row_id rp) /\
    (forall k,
       (forall v, In v (Shopify.variants p) -> (tenantId, Shopify.variant_id v) <> k) ->
       Pg.select_key Pg.variant_key k (Pg.product_variants d1)
       = Pg.select_key Pg.variant_key k (Pg.product_variants d)).
Proof.
  destruct (write_product_done env tenantId p d d1 Hrun)
    as (_ & _ & steps & Hs & Hprod & Hvar & _).
  set (pid := Pg.returning_id Pg.product_key (Pg.next_id d) (product_vals tenantId p)
                              (Pg.products d)) in *.
  pose proof (upsert_select Pg.ProductVals Pg.product_key Pg.product_merge true
                product_merge_key (Pg.now d) (Pg.next_id d) (product_vals tenantId p)
                (Pg.products d) Hup) as Hsel.
  rewrite <- Hprod in Hsel.
  eexists. split; [exact Hsel|]. split.
  - intros v Hin.
    assert (Hv : In (variant_vals tenantId pid v) (map snd steps)).
    { rewrite Hs. apply in_map. exact Hin. }
    apply in_map_iff in Hv. destruct Hv as (s & Hsv & Hsin).
    destruct (children_linked Pg.VariantVals Pg.variant_key Pg.variant_merge true
                variant_merge_key variant_merge_merge variant_merge_self
                Pg.v_product_id (fun _ _ => eq_refl) pid steps (Pg.product_variants d) s Huv)
      as (rv & Hrv & Hlink).
    + rewrite Forall_forall. intros s' Hs'.
      assert (Hv' : In (snd s') (map (variant_vals tenantId pid) (Shopify.variants p))).
      { rewrite <- Hs. apply in_map. exact Hs'. }
      apply in_map_iff in Hv'. destruct Hv' as (v' & <- & _). reflexivity.
    + exact Hsin.
    + exists rv. rewrite Hsv in Hrv. rewrite Hvar. split; [exact Hrv|].
      rewrite Hlink. unfold pid, Pg.returning_id.
      destruct (Pg.select_key Pg.product_key (Pg.product_key (product_vals tenantId p))
                              (Pg.products d)); reflexivity.
  - intros k Hk. rewrite Hvar.
    apply (apply_steps_unserved Pg.VariantVals Shopify.ShopifyVariant Pg.variant_key
             Pg.variant_merge true variant_merge_key (variant_vals tenantId pid)
             (Shopify.variants p) k steps (Pg.product_variants d) Hs).
    exact Hk.
Qed.

(** A shirt in two sizes, and a store in which size S is a row of another
    product and the shirt has a size XL that the payload no longer lists. *)
Definition shirt : Shopify.ShopifyProduct :=
  Shopify.mkProduct 900 "Shirt" "" "Acme" "apparel" "1000" "2000" "1500" "shirt" "" "active"
    [Shopify.mkVariant 11 "S" "9.00" "SH-S" 3 100 "1000" "2000";
     Shopify.mkVariant 12 "M" "9.50" "SH-M" 5 110 "1000" "2000"].

Definition db_shirts : Pg.DB :=
  Pg.mkDB [Scenario.tenant1] []
    [Pg.mkRow 0 10 10 (product_vals "t1" shirt);
     Pg.mkRow 1 10 10
       (Pg.mkProductVals "t1" 901 "Hat" "" "Acme" "apparel" "hat" "" "active" "1000" "1000" "")]
    [Pg.mkRow 2 10 10
       (Pg.mkVariantVals "t1" 1 11 "S" (JS.Dec false 8 0) "SH-S" 1 100 "1000" "1000");
     Pg.mkRow 3 10 10
       (Pg.mkVariantVals "t1" 0 13 "XL" (JS.Dec false 9 0) "SH-XL" 1 130 "1000" "1000")]
    [] [] [] [] [] [] 4 100.

Lemma X13_variants_follow_product_witness :
  Pg.unique Pg.product_key (Pg.products db_shirts) /\
  Pg.unique Pg.variant_key (Pg.product_variants db_shirts) /\
  exists d1,
    Ingestion.write_product Scenario.env0 "t1" shirt db_shirts = Done tt d1 /\
    map (fun r => (Pg.row_id r, Pg.v_shopify_variant_id (Pg.vals r), Pg.v_product_id (Pg.vals r)))
        (Pg.product_variants d1)
    = [(2%nat, 11, 0%nat); (3%nat, 13, 0%nat); (6%nat, 12, 0%nat)] /\
    exists rp,
      Pg.select_key Pg.product_key ("t1", 900) (Pg.products d1) = [rp] /\
      forall v, In v (Shopify.variants shirt) ->
        exists rv,
          Pg.select_key Pg.variant_key ("t1", Shopify.variant_id v) (Pg.product_variants d1)
          = [rv] /\
          Pg.v_product_id (Pg.vals rv) = Pg.row_id rp.
Proof.
  assert (Hup : Pg.unique Pg.product_key (Pg.products db_shirts)).
  { intros k. unfold Pg.count_key, Pg.select_key. simpl.
    destruct (Pg.has_key Pg.product_key k _) eqn:H1;
      destruct (Pg.has_key Pg.product_key k (Pg.mkRow 1 10 10 _)) eqn:H2; simpl; try lia.
    unfold Pg.has_key in H1, H2. apply key_eqb_eq in H1. apply key_eqb_eq in H2.
    rewrite H1 in H2. discriminate H2. }
  assert (Huv : Pg.unique Pg.variant_key (Pg.product_variants db_shirts)).
  { intros k. unfold Pg.count_key, Pg.select_key. simpl.
    destruct (Pg.has_key Pg.variant_key k _) eqn:H1;
      destruct (Pg.has_key Pg.variant_key k (Pg.mkRow 3 10 10 _)) eqn:H2; simpl; try lia.
    unfold Pg.has_key in H1, H2. apply key_eqb_eq in H1. apply key_eqb_eq in H2.
    rewrite H1 in H2. discriminate H2. }
  split; [exact Hup|]. split; [exact Huv|].
  set (d1 := store_after (Ingestion.write_product Scenario.env0 "t1" shirt db_shirts) db_shirts).
  assert (Hrun : Ingestion.write_product Scenario.env0 "t1" shirt db_shirts = Done tt d1)
    by (vm_compute; reflexivity).
  exists d1. split; [exact Hrun|]. split; [vm_compute; reflexivity|].
  destruct (X13_variants_follow_product Scenario.env0 "t1" shirt db_shirts d1 Hup Huv Hrun)
    as (rp & Hrp & Hlinked & _).
  exists rp. split; [exact Hrp | exact Hlinked].
Defined.

(** X14. An order and its line items, written on tables that satisfy their
    uniqueness constraints: the order has one row, and every line item of
    the payload has one row, which refers to the row of the order, also when
    the line item was stored under another order before. Line items that
    the payload does not list are left as they are: the writer removes no
    line item row. *)
Theorem X14_line_items_follow_order
    (env : Env) (tenantId : string) (o : Shopify.ShopifyOrder) (d d1 : Pg.DB)
    (Huo : Pg.unique Pg.order_key (Pg.orders d))
    (Hul : Pg.unique Pg.line_item_key (Pg.order_line_items d))
    (Hrun : Ingestion.write_order env tenantId o d = Done tt d1) :
  exists ro,
    Pg.select_key Pg.order_key (tenantId, Shopify.order_id o) (Pg.orders d1) = [ro] /\
    (forall li, In li (Shopify.line_items o) ->
       exists rl,
         Pg.select_key Pg.line_item_key (tenantId, Shopify.line_item_id li)
                       (Pg.order_line_items d1)
         = [rl] /\
         Pg.l_order_id (Pg.vals rl) = Pg.row_id ro) /\
    (forall k,
       (forall li, In li (Shopify.line_items o) -> (tenantId, Shopify.line_item_id li) <> k) ->
       Pg.select_key Pg.line_item_key k (Pg.order_line_items d1)
       = Pg.select_key Pg.line_item_key k (Pg.order_line_items d)).
Proof.
  destruct (write_order_done env tenantId o d d1 Hrun)
    as (_ & _ & steps & Hs & Hord & Hli & _).
  set (ov := order_vals tenantId (order_customer d tenantId o) o) in *.
  set (oid := Pg.returning_id Pg.order_key (Pg.next_id d) ov (Pg.orders d)) in *.
  pose proof (upsert_select Pg.OrderVals Pg.order_key Pg.order_merge true
                order_merge_key (Pg.now d) (Pg.next_id d) ov (Pg.orders d) Huo) as Hsel.
  rewrite <- Hord in Hsel.
  eexists. split; [exact Hsel|]. split.
  - intros li Hin.
    assert (Hv : In (line_item_vals tenantId oid li) (map snd steps)).
    { rewrite Hs. apply in_map. exact Hin. }
    apply in_map_iff in Hv. destruct Hv as (s & Hsv & Hsin).
    destruct (children_linked Pg.LineItemVals Pg.line_item_key Pg.line_item_merge false
                line_item_merge_key line_item_merge_merge line_item_merge_self
                Pg.l_order_id (fun _ _ => eq_refl) oid steps (Pg.order_line_items d) s Hul)
      as (rl & Hrl & Hlink).
    + rewrite Forall_forall. intros s' Hs'.
      assert (Hv' : In (snd s') (map (line_item_vals tenantId oid) (Shopify.line_items o))).
      { rewrite <- Hs. apply in_map. exact Hs'. }
      apply in_map_iff in Hv'. destruct Hv' as (li' & <- & _). reflexivity.
    + exact Hsin.
    + exists rl. rewrite Hsv in Hrl. rewrite Hli. split; [exact Hrl|].
      rewrite Hlink. unfold oid, Pg.returning_id.
      destruct (Pg.select_key Pg.order_key (Pg.order_key ov) (Pg.orders d)); reflexivity.
  - intros k Hk. rewrite Hli.
    apply (apply_steps_unserved Pg.LineItemVals Shopify.ShopifyLineItem Pg.line_item_key
             Pg.line_item_merge false line_item_merge_key (line_item_vals tenantId oid)
             (Shopify.line_items o) k steps (Pg.order_line_items d) Hs).
    exact Hk.
Qed.

(** A store that holds the order of [order_of_alice] with a line item that
    the payload no longer lists, and the line item of the payload under
    another order. *)
Definition db_orders : Pg.DB :=
  Pg.mkDB [Scenario.tenant1] []
    [] []
    [Pg.mkRow 0 10 10 (order_vals "t1" None (order_of_alice "7.00" "{A}"));
     Pg.mkRow 1 10 10
       (Pg.mkOrderVals "t1" None 5002 1002 (JS.Dec false 1 0) (JS.Dec false 1 0)
          (JS.Dec false 0 0) "USD" "paid" "" "{}" "{}" "1000" "1000")]
    [Pg.mkRow 2 10 10 (Pg.mkLineItemVals "t1" 1 1 1 (JS.Dec false 1 0) "Widget" "Blue" "W-1");
     Pg.mkRow 3 10 10 (Pg.mkLineItemVals "t1" 0 2 1 (JS.Dec false 2 0) "Gadget" "" "G-1")]
    [] [] [] [] 4 100.

Lemma X14_line_items_follow_order_witness :
  Pg.unique Pg.order_key (Pg.orders db_orders) /\
  Pg.unique Pg.line_item_key (Pg.order_line_items db_orders) /\
  exists d1,
    Ingestion.write_order Scenario.env0 "t1" (order_of_alice "9.00" "{B}") db_orders
    = Done tt d1 /\
    map (fun r => (Pg.row_id r, Pg.l_shopify_line_item_id (Pg.vals r), Pg.l_order_id (Pg.vals r)))
        (Pg.order_line_items d1)
    = [(2%nat, 1, 0%nat); (3%nat, 2, 0%nat)] /\
    exists ro,
      Pg.select_key Pg.order_key ("t1", 5001) (Pg.orders d1) = [ro] /\
      forall li, In li (Shopify.line_items (order_of_alice "9.00" "{B}")) ->
        exists rl,
          Pg.select_key Pg.line_item_key ("t1", Shopify.line_item_id li)
                        (Pg.order_line_items d1)
          = [rl] /\
          Pg.l_order_id (Pg.vals rl) = Pg.row_id ro.
Proof.
  assert (Huo : Pg.unique Pg.order_key (Pg.orders db_orders)).
  { intros k. unfold Pg.count_key, Pg.select_key. simpl.
    destruct (Pg.has_key Pg.order_key k _) eqn:H1;
      destruct (Pg.has_key Pg.order_key k (Pg.mkRow 1 10 10 _)) eqn:H2; simpl; try lia.
    unfold Pg.has_key in H1, H2. apply key_eqb_eq in H1. apply key_eqb_eq in H2.
    rewrite H1 in H2. discriminate H2. }
  assert (Hul : Pg.unique Pg.line_item_key (Pg.order_line_items db_orders)).
  { intros k. unfold Pg.count_key, Pg.select_key. simpl.
    destruct (Pg.has_key Pg.line_item_key k _) eqn:H1;
      destruct (Pg.has_key Pg.line_item_key k (Pg.mkRow 3 10 10 _)) eqn:H2; simpl; try lia.
    unfold Pg.has_key in H1, H2. apply key_eqb_eq in H1. apply key_eqb_eq in H2.
    rewrite H1 in H2. discriminate H2. }
  split; [exact Huo|]. split; [exact Hul|].
  set (d1 := store_after (Ingestion.write_order Scenario.env0 "t1"
                            (order_of_alice "9.00" "{B}") db_orders) db_orders).
  assert (Hrun : Ingestion.write_order Scenario.env0 "t1" (order_of_alice "9.00" "{B}") db_orders
                 = Done tt d1) by (vm_compute; reflexivity).
  exists d1. split; [exact Hrun|]. split; [vm_compute; reflexivity|].
  destruct (X14_line_items_follow_order Scenario.env0 "t1" (order_of_alice "9.00" "{B}")
              db_orders d1 Huo Hul Hrun) as (ro & Hro & Hlinked & _).
  exists ro. split; [exact Hro | exact Hlinked].
Defined.

(* ================================================================== *)
(** ** The sync_logs table as a log book of the runs *)
(* ================================================================== *)

Section Counter.
Import Pg Database Shopify Ingestion.
Variable env : Env.
Variable src : Source.

(** Statements only hand out identifiers; none is ever taken back. *)
Definition growing {A} (m : M DB A) : Prop :=
  forall d,
    match m d with
    | Done _ d' => (next_id d <= next_id d')%nat
    | Throw _ d' => (next_id d <= next_id d')%nat
    | Diverge => True
    end.

Lemma growing_ret {A} (a : A) : growing (ret a).
Proof. intros d. simpl. lia. Qed.

Lemma growing_bind {A B} (m : M DB A) (k : A -> M DB B) :
  growing m -> (forall a, growing (k a)) -> growing (bind m k).
Proof.
  intros Hm Hk d. unfold bind. specialize (Hm d).
  destruct (m d) as [a d'|e d'|]; auto.
  specialize (Hk a d'). destruct (k a d'); auto; lia.
Qed.

Lemma growing_for_of {A} (l : list A) (body : A -> M DB unit) :
  (forall x, growing (body x)) -> growing (for_of l body).
Proof.
  intros Hb. induction l as [|x l IH]; simpl.
  - apply growing_ret.
  - apply growing_bind; [apply Hb | intros _; exact IH].
Qed.

Lemma growing_checked {A} st (run : M DB A) : growing run -> growing (checked env st run).
Proof.
  intros Hr d. unfold checked. destruct (pg_check env st); [simpl; lia | apply Hr].
Qed.

Lemma growing_write_customer t c : growing (write_customer env t c).
Proof. apply growing_checked. intros d. simpl. lia. Qed.

Lemma growing_write_product t p : growing (write_product env t p).
Proof.
  unfold write_product. apply growing_bind.
  - apply growing_checked. intros d. simpl. lia.
  - intros pid. apply growing_for_of. intros v. apply growing_checked. intros d. simpl. lia.
Qed.

Lemma growing_write_order t o : growing (write_order env t o).
Proof.
  unfold write_order. apply growing_bind.
  - destruct (customer o) as [c|]; simpl; [|apply growing_ret].
    apply growing_bind; [intros d; simpl; lia | intros rows; apply growing_ret].
  - intros cid. apply growing_bind.
    + apply growing_checked. intros d. simpl. lia.
    + intros oid. apply growing_for_of. intros li. apply growing_checked. intros d. simpl. lia.
Qed.

Lemma growing_kind k t r : growing (write (kind_entity env src k) t r).
Proof.
  destruct k; simpl;
    [apply growing_write_customer | apply growing_write_product | apply growing_write_order].
Qed.

Lemma page_step_counter k t shopify lastUpdatedAt (n : nat) f :
  (n <= next_id (db (world f)))%nat ->
  wp (page_step env (kind_entity env src k) t shopify lastUpdatedAt)
     (fun _ f' => (n <= next_id (db (world f')))%nat)
     (fun _ f' => (n <= next_id (db (world f')))%nat) f.
Proof.
  intros Hn. unfold wp.
  rewrite (page_step_unfold env src _ (kind_entity env src k) (kind_ok env src k)).
  destruct (src _ _) as [e|data]; [exact Hn|].
  destruct (unwrap (kind_entity env src k) data) as [page|]; [|exact Hn].
  destruct (Nat.eqb (List.length page) 0); [exact Hn|].
  assert (Hg : growing (for_of page (write (kind_entity env src k) t))).
  { apply growing_for_of. intros r. apply growing_kind. }
  specialize (Hg (db (world f))).
  destruct (for_of page (write (kind_entity env src k) t) (db (world f))) as [[] d'|e d'|];
    [simpl; lia | exact Hn | exact I].
Qed.

(** The identifiers of the SyncLog rows were all handed out before. *)
Definition numbered (d : DB) : Prop :=
  Forall (fun l => (log_id l < next_id d)%nat) (sync_logs d).

(** What a run leaves of the books of [w], apart from its SyncLog row. *)
Definition kept (w w' : World) : Prop :=
  numbered (db w') /\ tenants (db w') = tenants (db w) /\ now (db w') = now (db w) /\
  custom_events (db w') = custom_events (db w) /\
  webhook_receipts (db w') = webhook_receipts (db w).

Lemma kept_refl w : numbered (db w) -> kept w w.
Proof. intros H. repeat split. exact H. Qed.

Lemma kept_trans w1 w2 w3 : kept w1 w2 -> kept w2 w3 -> kept w1 w3.
Proof.
  intros (_ & H1 & H2 & H3 & H4) (Hn & H5 & H6 & H7 & H8).
  repeat split; [exact Hn | congruence | congruence | congruence | congruence].
Qed.

(** The SyncLog row of a run of [k] for [t] that was opened in [d] and
    closed with [st], [n] and [err]. *)
Definition run_log (k : Kind) (t : string) (d : DB) (st : string) (n : Z)
    (err : option string) : SyncLog :=
  mkSyncLog (next_id d) t (entity (kind_entity env src k)) st n err (now d) (Some (now d)).

(** One run appends one row to the log book: completed with the count of
    its result, or failed with the message of the error it throws. *)
Lemma ingest_logbook k fuel t shopDomain accessToken w :
  numbered (db w) ->
  refusal env t w = None ->
  wp (ingest env src k fuel t shopDomain accessToken)
     (fun r w' =>
        success r = true /\
        sync_logs (db w')
        = sync_logs (db w) ++ [run_log k t (db w) "completed" (processed r) None] /\
        kept w w')
     (fun e w' =>
        (exists N,
            sync_logs (db w')
            = sync_logs (db w) ++ [run_log k t (db w) "failed" N (Some (JS.message e))]) /\
        kept w w')
     w.
Proof.
  intros Hnum Hopen.
  set (w0 := opened (entity (kind_entity env src k)) t w).
  set (Inv := fun f : Frame =>
                (next_id (db w0) <= next_id (db (world f)))%nat /\
                books (db (world f)) = books (db w0)).
  assert (Hfresh : Forall (fun l => log_id l <> next_id (db w)) (sync_logs (db w))).
  { eapply Forall_impl; [|exact Hnum]. intros l Hl. simpl in Hl. lia. }
  assert (Hclose : forall st err f f',
             Inv f ->
             closed_as (next_id (db w)) st err f f' ->
             sync_logs (db (world f'))
             = sync_logs (db w)
               ++ [run_log k t (db w) st (totalProcessed (locals f)) err] /\
             kept w (world f')).
  { intros st err f f' [Hid Hb]
           (_ & _ & Hten & _ & _ & _ & _ & _ & Hev & Hrec & Hnext & Hnow & Hlogs).
    unfold books in Hb. inversion Hb as [[Hten0 Hev0 Hlogs0 Hrec0 Hck0 Hnow0]].
    assert (Hl : sync_logs (db (world f'))
                 = sync_logs (db w)
                   ++ [run_log k t (db w) st (totalProcessed (locals f)) err]).
    { rewrite Hlogs, Hlogs0, Hnow0. unfold w0, opened, opened_log, run_log. simpl.
      apply set_log_fresh. exact Hfresh. }
    split; [exact Hl|].
    unfold kept. rewrite Hten, Hten0, Hnow, Hnow0, Hev, Hev0, Hrec, Hrec0.
    split; [|repeat split].
    unfold numbered. rewrite Hl, Hnext. unfold w0, opened in Hid. simpl in Hid.
    apply Forall_app. split.
    - eapply Forall_impl; [|exact Hnum]. intros l Hlt. simpl in Hlt. lia.
    - constructor; [simpl; lia | constructor]. }
  unfold wp. rewrite (@ingest_unfold env src k fuel t shopDomain accessToken w Hopen).
  apply wp_call.
  eapply wp_mono.
  - apply (sweep_rule env _ (kind_entity env src k) t _ _ (next_id (db w))
             Inv (fun _ f => Inv f)).
    + intros f [Hid Hb] _. apply wp_both.
      * apply page_step_counter. exact Hid.
      * apply (page_step_books env src _ _ (kind_ok env src k)). exact Hb.
    + split; [simpl; lia | reflexivity].
  - intros r f' (f & Hf & _ & Hr & Hcl & _).
    destruct (Hclose _ _ f f' Hf Hcl) as [Hl Hk].
    rewrite Hr. simpl. split; [reflexivity|]. split; [exact Hl | exact Hk].
  - intros e f' (f & Hf & Hcl & _).
    assert (Hf' : Inv f) by (destruct Hf as [Hf|[Hf _]]; exact Hf).
    destruct (Hclose _ _ f f' Hf' Hcl) as [Hl Hk].
    split; [exists (totalProcessed (locals f)); exact Hl | exact Hk].
Qed.

(** What [createSyncLog] raises depends on the tenants table alone. *)
Lemma refusal_kept t w w' : kept w w' -> refusal env t w' = refusal env t w.
Proof.
  intros (_ & Hten & _). unfold refusal.
  apply (@referenced_tenants env "sync_logs" t (db w) (db w') Hten).
Qed.

(** The id of a stored tenant is never refused. *)
Lemma refusal_stored tenant w :
  In tenant (tenants (db w)) -> refusal env (t_id tenant) w = None.
Proof.
  intros Hin. unfold refusal.
  apply (@referenced_stored env "sync_logs" (t_id tenant) (db w) tenant Hin eq_refl).
Qed.
End Counter.

(* ================================================================== *)
(** ** Runs one after the other *)
(* ================================================================== *)

(** The name of an entity type in sync_logs and in [data_types]. *)
Definition kind_name (k : Kind) : string :=
  match k with
  | KCustomers => "customers"
  | KProducts => "products"
  | KOrders => "orders"
  end.


(** A SyncLog row of tenant [t] closed as completed for [name] with the
    count of the result [r], and one closed as failed with the message of
    [e]. *)
Definition completed_log (t name : string) (r : Ingestion.IngestResult) (l : Pg.SyncLog)
  : Prop :=
  Pg.log_tenant_id l = t /\ Pg.sync_type l = name /\ Pg.status l = "completed" /\
  Pg.records_processed l = Ingestion.processed r /\ Pg.error_message l = None /\
  Pg.completed_at l <> None.

Definition failed_log (t name : string) (e : JS.Error) (l : Pg.SyncLog) : Prop :=
  Pg.log_tenant_id l = t /\ Pg.sync_type l = name /\ Pg.status l = "failed" /\
  Pg.error_message l = Some (JS.message e) /\ Pg.completed_at l <> None.

Section Batch.
Import Pg Database Shopify Ingestion.
Variable env : Env.
Variable src : Source.
Variable fuel : nat.
Variable t shopDomain : string.
Variable accessToken : option string.

(** The runs for [ks], one after the other; the first error ends them. *)
Fixpoint run_kinds (ks : list Kind) : M World (list (string * IngestResult)) :=
  match ks with
  | [] => ret []
  | k :: ks' =>
      r <- ingest env src k fuel t shopDomain accessToken ;;
      rs <- run_kinds ks' ;;
      ret ((kind_name k, r) :: rs)
  end.

(** All runs completed: one completed row each, in order. *)
Definition all_booked (ks : list Kind) (w : World) (rs : list (string * IngestResult))
    (w' : World) : Prop :=
  map fst rs = map kind_name ks /\
  Forall (fun kr => success (snd kr) = true) rs /\
  (exists logs,
      sync_logs (db w') = sync_logs (db w) ++ logs /\
      Forall2 (fun kr l => completed_log t (fst kr) (snd kr) l) rs logs) /\
  kept w w'.

(** The run for [k] failed: completed rows for the entity types before it,
    its failed row, and no row for the entity types after it. *)
Definition booked_until (ks : list Kind) (w : World) (e : JS.Error) (w' : World) : Prop :=
  (exists ks1 k ks2 rs pre failing,
      ks = ks1 ++ k :: ks2 /\
      map fst rs = map kind_name ks1 /\
      sync_logs (db w') = sync_logs (db w) ++ pre ++ [failing] /\
      Forall2 (fun kr l => completed_log t (fst kr) (snd kr) l) rs pre /\
      failed_log t (kind_name k) e failing) /\
  kept w w'.

Lemma run_log_completed k d r :
  completed_log t (kind_name k) r (run_log env src k t d "completed" (processed r) None).
Proof. destruct k; repeat split; discriminate. Qed.

Lemma run_log_failed k d N e :
  failed_log t (kind_name k) e (run_log env src k t d "failed" N (Some (JS.message e))).
Proof. destruct k; repeat split; discriminate. Qed.

Lemma run_kinds_logbook ks : forall w,
  numbered (db w) ->
  refusal env t w = None ->
  wp (run_kinds ks) (all_booked ks w) (booked_until ks w) w.
Proof.
  induction ks as [|k ks IH]; intros w Hnum Hopen.
  - simpl. apply wp_ret. split; [reflexivity|]. split; [constructor|]. split.
    + exists []. split; [rewrite app_nil_r; reflexivity | constructor].
    + apply kept_refl. exact Hnum.
  - simpl. apply wp_bind.
    eapply wp_mono;
      [apply (ingest_logbook env src k fuel t shopDomain accessToken w Hnum Hopen) | |].
    + intros r w1 (Hok & Hl1 & Hk1). cbv beta.
      apply wp_bind.
      eapply wp_mono;
        [apply (IH w1);
         [destruct Hk1 as [Hn _]; exact Hn
         | rewrite (refusal_kept env t w w1 Hk1); exact Hopen] | |].
      * intros rs w2 (Hnames & Hoks & (logs & Hl2 & Hall) & Hk2). apply wp_ret.
        split; [simpl; rewrite Hnames; reflexivity|].
        split; [constructor; [exact Hok | exact Hoks]|].
        split; [|apply (kept_trans w w1 w2 Hk1 Hk2)].
        exists (run_log env src k t (db w) "completed" (processed r) None :: logs).
        split; [rewrite Hl2, Hl1, <- app_assoc; reflexivity|].
        constructor; [apply run_log_completed | exact Hall].
      * intros e w2 ((ks1 & k' & ks2 & rs & pre & failing & Hks & Hnames & Hl2 & Hall & Hf)
                     & Hk2).
        split; [|apply (kept_trans w w1 w2 Hk1 Hk2)].
        exists (k :: ks1), k', ks2, ((kind_name k, r) :: rs),
               (run_log env src k t (db w) "completed" (processed r) None :: pre), failing.
        split; [rewrite Hks; reflexivity|].
        split; [simpl; rewrite Hnames; reflexivity|].
        split; [rewrite Hl2, Hl1, <- app_assoc; reflexivity|].
        split; [constructor; [apply run_log_completed | exact Hall] | exact Hf].
    + intros e w1 ((N & Hl1) & Hk1).
      split; [|exact Hk1].
      exists [], k, ks, [], [], (run_log env src k t (db w) "failed" N (Some (JS.message e))).
      split; [reflexivity|]. split; [reflexivity|]. split; [exact Hl1|].
      split; [constructor | apply run_log_failed].
Qed.


End Batch.

Section BatchEnds.
Import Pg Database Shopify Ingestion.
Variable env : Env.
Variable src : Source.
Variable fuel : nat.

(** From any request on, [fuel] requests include one that is not answered
    with a full page, whatever the entity type: no run is cut short. *)
Definition ends_within : Prop :=
  forall k i, exists n,
    (n < fuel)%nat /\ forall rq, ~ full (kind_entity env src k) (src (i + n)%nat rq).

Lemma run_kinds_total t shopDomain accessToken ks : forall w,
  ends_within -> run_kinds env src fuel t shopDomain accessToken ks w <> Diverge.
Proof.
  induction ks as [|k ks IH]; intros w Hends; simpl; [discriminate|].
  unfold bind.
  destruct (Hends k (List.length (sent w))) as (n & Hn & Hshort).
  pose proof (@ingest_total env src k n fuel t shopDomain accessToken w Hn Hshort) as Htot.
  destruct (ingest env src k fuel t shopDomain accessToken w) as [r w1|e w1|];
    [|discriminate|contradiction].
  specialize (IH w1 Hends).
  destruct (run_kinds env src fuel t shopDomain accessToken ks w1); [discriminate.. | congruence].
Qed.
End BatchEnds.

Section Lookup.
Import Pg Database Shopify.
Variable env : Env.


End Lookup.




(* ================================================================== *)
(** ** Where the requests of a batch go *)
(* ================================================================== *)

Section Addressed.
Import Pg Database Shopify Ingestion.
Variable env : Env.
Variable src : Source.
Variable fuel : nat.
Variable t shopDomain : string.
Variable accessToken : option string.

(** The requests sent between [w] and [w'] all go to the shop of
    [shopDomain], to the endpoint of an entity type, with [accessToken]. *)
Definition addressed (w w' : World) : Prop :=
  exists reqs,
    sent w' = sent w ++ reqs /\
    Forall (fun rq =>
              access_token_header rq = accessToken /\
              exists k, url rq = (("https://" ++ sanitize shopDomain ++ "/admin/api/2023-10")
                                  ++ endpoint k)%string)
           reqs.

Lemma addressed_refl w : addressed w w.
Proof. exists []. split; [rewrite app_nil_r; reflexivity | constructor]. Qed.

Lemma addressed_trans w1 w2 w3 : addressed w1 w2 -> addressed w2 w3 -> addressed w1 w3.
Proof.
  intros (r1 & H1 & F1) (r2 & H2 & F2). exists (r1 ++ r2).
  split; [rewrite H2, H1, app_assoc; reflexivity | apply Forall_app; split; assumption].
Qed.

Lemma ingest_addressed k w :
  wp (ingest env src k fuel t shopDomain accessToken)
     (fun _ w' => addressed w w') (fun _ w' => addressed w w') w.
Proof.
  set (svc := new_ShopifyAPIService shopDomain accessToken).
  assert (Hone : forall s,
             access_token_header (ok_request (kind_ok env src k) svc s) = accessToken /\
             exists k', url (ok_request (kind_ok env src k) svc s)
                        = (("https://" ++ sanitize shopDomain ++ "/admin/api/2023-10")
                           ++ endpoint k')%string).
  { intros s. split; [destruct k; reflexivity|]. exists k. destruct k; reflexivity. }
  assert (Hp : forall f,
             paged src _ (kind_entity env src k) (kind_ok env src k) svc
                   (opened (entity (kind_entity env src k)) t w) f ->
             addressed w (world f)).
  { intros f (reqs & since & Hsent & Hc). exists (reqs ++ [ok_request (kind_ok env src k) svc since]).
    split; [exact Hsent|]. apply Forall_app. split.
    - eapply Forall_impl; [|apply (chained_requests _ _ _ _ _ _ Hc)].
      intros rq (s & ->). apply Hone.
    - constructor; [apply Hone | constructor]. }
  unfold wp. destruct (refusal env t w) as [e0|] eqn:Href.
  { rewrite (@ingest_refused env src k fuel t shopDomain accessToken w e0 Href).
    apply addressed_refl. }
  rewrite (@ingest_unfold env src k fuel t shopDomain accessToken w Href). apply wp_call.
  eapply wp_mono.
  - apply (sweep_paged env src _ (kind_entity env src k) (kind_ok env src k)).
  - intros r f' Hf. exact (Hp f' Hf).
  - intros e f' Hf. exact (Hp f' Hf).
Qed.

Lemma run_kinds_addressed ks : forall w,
  wp (run_kinds env src fuel t shopDomain accessToken ks)
     (fun _ w' => addressed w w') (fun _ w' => addressed w w') w.
Proof.
  induction ks as [|k ks IH]; intros w; simpl.
  - apply wp_ret. apply addressed_refl.
  - apply wp_bind. eapply wp_mono; [apply ingest_addressed | | auto].
    intros r w1 H1. cbv beta. apply wp_bind.
    eapply wp_mono; [apply IH | |].
    + intros rs w2 H2. apply wp_ret. apply (addressed_trans w w1 w2 H1 H2).
    + intros e w2 H2. apply (addressed_trans w w1 w2 H1 H2).
Qed.
End Addressed.

(** The credential a caller hands to the runs: the stored one, decrypted
    when [TOKEN_ENCRYPTION_KEY] is set. *)
Definition token_of (env : Env) (stored : string) : JS.Error + string :=
  if TOKEN_ENCRYPTION_KEY env then decryptToken env stored else inr stored.


(** A platform with a token key, whose stored credentials read "enc:"
    followed by the plain one; a tenant whose credential is stored that
    way; and a source that accepts the plain credential only. *)
Definition env_encrypted : Env :=
  mkEnv Scenario.date_of_millis
        (fun secret raw => (secret ++ string_of_list_ascii raw)%string)
        (fun _ => None)
        true
        (fun s =>
           match Shopify.strip_prefix "enc:" s with
           | Some plain => inr plain
           | None => inl (JS.mkError None "Invalid encrypted token format")
           end)
        Scenario.uuid_of_length.


Definition plain_only : Shopify.Source :=
  fun _ rq =>
    match Shopify.access_token_header rq with
    | Some "tok" =>
        if String.prefix "https://shop.myshopify.com/admin/api/2023-10/customers"
                         (Shopify.url rq)
        then inr (Shopify.Customers [Scenario.alice "7000"])
        else if String.prefix "https://shop.myshopify.com/admin/api/2023-10/products"
                              (Shopify.url rq)
        then inr (Shopify.Products [])
        else inr (Shopify.Orders [])
    | _ => inl Scenario.unauthorized_error
    end.




(* ================================================================== *)
(** ** The scheduler *)
(* ================================================================== *)

(** The entity types of a scheduled sync, in the order they run. *)
Definition all_kinds : list Kind := [KCustomers; KProducts; KOrders].

(** The credential the scheduler syncs a tenant with: none when the tenant
    has no access token or when the stored one does not decrypt. *)
Definition credential (env : Env) (t : Pg.Tenant) : option string :=
  match Pg.access_token t with
  | Some stored =>
      if JS.truthy stored
      then match token_of env stored with
           | inr tok => Some tok
           | inl _ => None
           end
      else None
  | None => None
  end.

Section Scheduler.
Import Pg Database Shopify Ingestion.
Variable env : Env.
Variable src : Source.
Variable fuel : nat.

(** [swept ts w w']: the tenants [ts] were handled one after the other
    from [w] to [w']. A tenant without a credential changes nothing. For a
    tenant with one, the requests go to its shop with that credential, and
    its runs are booked: three completed rows, or the completed rows before
    the first failed run and the failed row; whichever it is, the next
    tenant is handled. *)
Inductive swept : list Tenant -> World -> World -> Prop :=
| swept_nil (w : World) : swept [] w w
| swept_skip (t : Tenant) (ts : list Tenant) (w w' : World) :
    credential env t = None -> swept ts w w' -> swept (t :: ts) w w'
| swept_run (t : Tenant) (ts : list Tenant) (tok : string) (w w1 w' : World) :
    credential env t = Some tok ->
    addressed (shop_domain t) (Some tok) w w1 ->
    (exists rs, all_booked (t_id t) all_kinds w rs w1) \/
    (exists e, booked_until (t_id t) all_kinds w e w1) ->
    swept ts w1 w' ->
    swept (t :: ts) w w'.

(** The three runs of a tenant are the batch of all entity types. *)
Lemma scheduled_runs t tok w :
  (ingestCustomers env src fuel (t_id t) (shop_domain t) (Some tok) ;;;
   ingestProducts env src fuel (t_id t) (shop_domain t) (Some tok) ;;;
   ingestOrders env src fuel (t_id t) (shop_domain t) (Some tok) ;;;
   ret tt) w
  = match run_kinds env src fuel (t_id t) (shop_domain t) (Some tok) all_kinds w with
    | Done _ w' => Done tt w'
    | Throw e w' => Throw e w'
    | Diverge => Diverge
    end.
Proof.
  unfold all_kinds. simpl. unfold bind, ret.
  destruct (ingestCustomers env src fuel (t_id t) (shop_domain t) (Some tok) w)
    as [r1 w1|e w1|]; [|reflexivity|reflexivity].
  destruct (ingestProducts env src fuel (t_id t) (shop_domain t) (Some tok) w1)
    as [r2 w2|e w2|]; [|reflexivity|reflexivity].
  destruct (ingestOrders env src fuel (t_id t) (shop_domain t) (Some tok) w2)
    as [r3 w3|e w3|]; reflexivity.
Qed.

Lemma scheduled_tenant_spec t w :
  numbered (db w) ->
  In t (tenants (db w)) ->
  match Routes.scheduled_tenant env src fuel t w with
  | Done _ w1 =>
      numbered (db w1) /\ tenants (db w1) = tenants (db w) /\
      match credential env t with
      | None => w1 = w
      | Some tok =>
          addressed (shop_domain t) (Some tok) w w1 /\
          ((exists rs, all_booked (t_id t) all_kinds w rs w1) \/
           (exists e, booked_until (t_id t) all_kinds w e w1))
      end
  | Throw _ _ => False
  | Diverge => ~ ends_within env src fuel
  end.
Proof.
  intros Hnum Hin. unfold Routes.scheduled_tenant, credential, Routes.has_token.
  destruct (access_token t) as [stored|]; [|simpl; auto].
  destruct (JS.truthy stored); [|simpl; auto]. cbn [negb].
  change (if TOKEN_ENCRYPTION_KEY env then decryptToken env stored else inr stored)
    with (token_of env stored).
  destruct (token_of env stored) as [err|tok]; [simpl; auto|].
  unfold try_catch. rewrite scheduled_runs.
  pose proof (run_kinds_logbook env src fuel (t_id t) (shop_domain t) (Some tok)
                all_kinds w Hnum (refusal_stored env t w Hin)) as H.
  pose proof (run_kinds_addressed env src fuel (t_id t) (shop_domain t) (Some tok)
                all_kinds w) as Ha.
  pose proof (run_kinds_total env src fuel (t_id t) (shop_domain t) (Some tok)
                all_kinds w) as Htot.
  unfold wp in H, Ha.
  destruct (run_kinds env src fuel (t_id t) (shop_domain t) (Some tok) all_kinds w)
    as [rs w1|e w1|].
  - destruct H as (Hn & Hok & Hlogs & Hk). pose proof Hk as (Hnum1 & Hten & _).
    split; [exact Hnum1|]. split; [exact Hten|]. split; [exact Ha|].
    left. exists rs. exact (conj Hn (conj Hok (conj Hlogs Hk))).
  - unfold ret. destruct H as (Hb & Hk). pose proof Hk as (Hnum1 & Hten & _).
    split; [exact Hnum1|]. split; [exact Hten|]. split; [exact Ha|].
    right. exists e. exact (conj Hb Hk).
  - intros Hends. apply (Htot Hends). reflexivity.
Qed.

Lemma scheduled_tenants_spec ts : forall w,
  numbered (db w) ->
  (forall t, In t ts -> In t (tenants (db w))) ->
  match for_of ts (Routes.scheduled_tenant env src fuel) w with
  | Done _ w' => swept ts w w'
  | Throw _ _ => False
  | Diverge => ~ ends_within env src fuel
  end.
Proof.
  induction ts as [|t ts IH]; intros w Hnum Hstored; simpl.
  - constructor.
  - unfold bind.
    pose proof (scheduled_tenant_spec t w Hnum (Hstored t (or_introl eq_refl))) as Ht.
    destruct (Routes.scheduled_tenant env src fuel t w) as [[] w1|e w1|];
      [|contradiction|exact Ht].
    destruct Ht as (Hnum1 & Hten & Hcase).
    assert (Hstored1 : forall t0, In t0 ts -> In t0 (tenants (db w1))).
    { intros t0 Hin0. rewrite Hten. apply Hstored. right. exact Hin0. }
    specialize (IH w1 Hnum1 Hstored1).
    destruct (for_of ts (Routes.scheduled_tenant env src fuel) w1) as [[] w'|e w'|];
      [|contradiction|exact IH].
    destruct (credential env t) as [tok|] eqn:Hcred.
    + destruct Hcase as [Ha Hb]. apply (swept_run t ts tok w w1 w' Hcred Ha Hb IH).
    + subst w1. apply (swept_skip t ts w w' Hcred IH).
Qed.

(** What a sweep appends to sync_logs. *)
Lemma swept_logs ts w w' :
  swept ts w w' ->
  exists logs,
    sync_logs (db w') = sync_logs (db w) ++ logs /\
    (forall t, In t ts -> credential env t <> None ->
               exists l, In l logs /\ log_tenant_id l = t_id t /\ sync_type l = "customers") /\
    (forall l, In l logs ->
               exists t, In t ts /\ credential env t <> None /\ log_tenant_id l = t_id t).
Proof.
  induction 1 as [w|t ts w w' Hcred Hs IH|t ts tok w w1 w' Hcred Ha Hb Hs IH].
  - exists []. split; [rewrite app_nil_r; reflexivity|]. split; [intros t []|intros l []].
  - destruct IH as (logs & Hl & Hall & Honly). exists logs. split; [exact Hl|]. split.
    + intros t0 [<-|Hin] Hc; [contradiction | apply Hall; assumption].
    + intros l Hin. destruct (Honly l Hin) as (t0 & Ht0 & Hc0 & Hid).
      exists t0. split; [right; exact Ht0 | auto].
  - destruct IH as (logs & Hl & Hall & Honly).
    assert (Hmine : exists mine first,
               sync_logs (db w1) = sync_logs (db w) ++ mine /\
               In first mine /\ log_tenant_id first = t_id t /\ sync_type first = "customers" /\
               Forall (fun l => log_tenant_id l = t_id t) mine).
    { destruct Hb as [(rs & Hn & _ & (mine & Hm & Hall2) & _)
                     |(e & (ks1 & k & ks2 & rs & pre & failing & Hks & Hn & Hm & Hall2 & Hf) & _)].
      - unfold all_kinds in Hn. simpl in Hn.
        destruct rs as [|[n1 r1] rs]; [discriminate Hn|].
        inversion Hall2 as [|? first ? mine' Hfirst Hrest]; subst.
        simpl in Hn. inversion Hn as [[Hn1 Hn2]].
        exists (first :: mine'), first. split; [exact Hm|]. split; [left; reflexivity|].
        destruct Hfirst as (Ht1 & Ht2 & _). simpl in Ht2.
        split; [exact Ht1|]. split; [rewrite Ht2; exact Hn1|].
        constructor; [exact Ht1|].
        clear - Hrest. induction Hrest as [|x l xs ls Hx _ IH]; constructor; [apply Hx | exact IH].
      - assert (Hpre : Forall (fun l => log_tenant_id l = t_id t) pre).
        { clear - Hall2. induction Hall2 as [|x l xs ls Hx _ IH]; constructor;
            [apply Hx | exact IH]. }
        destruct Hf as (Hf1 & Hf2 & _).
        destruct ks1 as [|k1 ks1].
        + simpl in Hks. unfold all_kinds in Hks. inversion Hks; subst k ks2.
          destruct rs; [|discriminate Hn]. inversion Hall2; subst.
          exists [failing], failing. split; [exact Hm|]. split; [left; reflexivity|].
          split; [exact Hf1|]. split; [exact Hf2|]. constructor; [exact Hf1 | constructor].
        + unfold all_kinds in Hks. simpl in Hks. inversion Hks as [[Hk1 Hrest]]. subst k1.
          destruct rs as [|[n1 r1] rs]; [discriminate Hn|].
          inversion Hall2 as [|? first ? pre' Hfirst Hrest2]; subst.
          simpl in Hn. inversion Hn as [[Hn1 Hn2]].
          exists ((first :: pre') ++ [failing]), first. split; [exact Hm|].
          split; [left; reflexivity|].
          destruct Hfirst as (Ht1 & Ht2 & _). simpl in Ht2.
          split; [exact Ht1|]. split; [rewrite Ht2; exact Hn1|].
          apply Forall_app. split; [exact Hpre|]. constructor; [exact Hf1 | constructor]. }
    destruct Hmine as (mine & first & Hm & Hin1 & Hid1 & Hty1 & Hallmine).
    exists (mine ++ logs). split; [rewrite Hl, Hm, app_assoc; reflexivity|]. split.
    + intros t0 [<-|Hin] Hc.
      * exists first. split; [apply in_or_app; left; exact Hin1 | auto].
      * destruct (Hall t0 Hin Hc) as (l & Hlin & Hlid & Hlty).
        exists l. split; [apply in_or_app; right; exact Hlin | auto].
    + intros l Hin. apply in_app_or in Hin. destruct Hin as [Hin|Hin].
      * exists t. split; [left; reflexivity|]. split; [rewrite Hcred; discriminate|].
        rewrite Forall_forall in Hallmine. apply Hallmine. exact Hin.
      * destruct (Honly l Hin) as (t0 & Ht0 & Hc0 & Hid).
        exists t0. split; [right; exact Ht0 | auto].
Qed.
End Scheduler.

(** X17. [runScheduledIngestion] of [index.ts], on a store whose SyncLog
    identifiers were handed out before. No error escapes it. It handles the
    active tenants in the order the store returns them: a tenant without an
    access token, or whose stored token does not decrypt, is skipped and
    nothing is written for it; for every other active tenant the three runs
    are started in the order customers, products, orders with the decrypted
    credential, and a failed run ends the runs of that tenant only. So
    every active tenant with a credential gets at least its customers row in
    sync_logs, whatever happened to the tenants before it, and every row
    appended belongs to such a tenant. It returns whenever the source ends
    every run. *)
Theorem X17_scheduler_handles_every_tenant
    (env : Env) (src : Shopify.Source) (fuel : nat) (w : Shopify.World)
    (Hnum : numbered (Shopify.db w)) :
  match Routes.runScheduledIngestion env src fuel w with
  | Done _ w' =>
      let active := filter (fun t => String.eqb (Pg.t_status t) "active")
                           (Pg.tenants (Shopify.db w)) in
      swept env active w w' /\
      exists logs,
        Pg.sync_logs (Shopify.db w') = Pg.sync_logs (Shopify.db w) ++ logs /\
        (forall t, In t active -> credential env t <> None ->
                   exists l, In l logs /\ Pg.log_tenant_id l = Pg.t_id t /\
                             Pg.sync_type l = "customers") /\
        (forall l, In l logs ->
                   exists t, In t active /\ credential env t <> None /\
                             Pg.log_tenant_id l = Pg.t_id t)
  | Throw _ _ => False
  | Diverge => ~ ends_within env src fuel
  end.
Proof.
  unfold Routes.runScheduledIngestion, try_catch, bind, Ingestion.in_db, zoom,
    Database.select_tenants_by_status. cbn [Shopify.db Shopify.sent].
  assert (Hw : Shopify.mkWorld (Shopify.db w) (Shopify.sent w) = w) by (destruct w; reflexivity).
  rewrite Hw.
  assert (Hstored : forall t,
             In t (filter (fun t => String.eqb (Pg.t_status t) "active")
                          (Pg.tenants (Shopify.db w))) ->
             In t (Pg.tenants (Shopify.db w))).
  { intros t Hin. apply filter_In in Hin. exact (proj1 Hin). }
  pose proof (scheduled_tenants_spec env src fuel
                (filter (fun t => String.eqb (Pg.t_status t) "active")
                        (Pg.tenants (Shopify.db w))) w Hnum Hstored) as H.
  destruct (for_of (filter (fun t => String.eqb (Pg.t_status t) "active")
                           (Pg.tenants (Shopify.db w)))
                   (Routes.scheduled_tenant env src fuel) w) as [[] w'|e w'|];
    [|contradiction|exact H].
  cbv zeta. split; [exact H|]. apply (swept_logs env _ w w' H).
Qed.

(** Five tenants: one whose shop the source does not know, one that syncs,
    one whose stored credential does not decrypt, one that is not active and
    one without a credential. *)
Definition db_scheduled : Pg.DB :=
  Pg.mkDB [Pg.mkTenant "t0" "down.myshopify.com" (Some "enc:tok") "active";
           Pg.mkTenant "t1" "shop.myshopify.com" (Some "enc:tok") "active";
           Pg.mkTenant "t2" "other.myshopify.com" (Some "tok") "active";
           Pg.mkTenant "t3" "idle.myshopify.com" (Some "enc:tok") "inactive";
           Pg.mkTenant "t4" "new.myshopify.com" None "active"]
          [] [] [] [] [] [] [] [] [] 0 100.

Lemma X17_scheduler_handles_every_tenant_witness :
  numbered (Shopify.db (Scenario.world_of db_scheduled)) /\
  exists w',
    Routes.runScheduledIngestion env_encrypted plain_only 3 (Scenario.world_of db_scheduled)
    = Done tt w' /\
    map (fun l => (Pg.log_tenant_id l, Pg.sync_type l, Pg.status l))
        (Pg.sync_logs (Shopify.db w'))
    = [("t0", "customers", "failed"); ("t1", "customers", "completed");
       ("t1", "products", "completed"); ("t1", "orders", "completed")] /\
    swept env_encrypted
          (filter (fun t => String.eqb (Pg.t_status t) "active") (Pg.tenants db_scheduled))
          (Scenario.world_of db_scheduled) w'.
Proof.
  assert (Hnum : numbered (Shopify.db (Scenario.world_of db_scheduled))) by constructor.
  split; [exact Hnum|].
  pose proof (X17_scheduler_handles_every_tenant env_encrypted plain_only 3
                (Scenario.world_of db_scheduled) Hnum) as H.
  set (o := Routes.runScheduledIngestion env_encrypted plain_only 3
              (Scenario.world_of db_scheduled)) in *.
  set (w' := world_after o (Scenario.world_of db_scheduled)).
  assert (Ho : o = Done tt w') by (vm_compute; reflexivity).
  exists w'. split; [exact Ho|]. split; [vm_compute; reflexivity|].
  rewrite Ho in H. exact (proj1 H).
Defined.

(* ================================================================== *)
(** ** [ingestAll] *)
(* ================================================================== *)




